(** * mpy-workbench: the board listing call, the interpreter lookup, the
    sync view and the polling serial monitor

    A shallow embedding of [src/pyraw.ts], [src/pythonInterpreter.ts],
    [src/syncView.ts] and [src/actions.ts].  The extension's module state (the monitor's fields,
    the interpreter cache) and the part of the editor it talks to (settings,
    workspace files, pending timeouts, subprocesses) are threaded through a
    state-and-exception monad; what the outside world answers (clock
    readings, subprocess results, the Python extension, [JSON.parse],
    [path.join], [String.prototype.trim]) is an oracle record [Env]. *)

From Stdlib Require Import ZArith String Ascii List Bool Lia.
From stdpp Require Import base option strings list gmap.

Set Warnings "-register-all".

Open Scope string_scope.
Open Scope Z_scope.

(** ** JavaScript values that the code inspects at run time *)

(** What [JSON.parse] can return, and what a settings store can hold.
    [JObj] lists the object's own properties, each name once.  Numbers are
    kept as integers: nothing here looks at a fractional value. *)
Inductive json : Type :=
  | JNull
  | JBool (b : bool)
  | JNum (n : Z)
  | JStr (s : string)
  | JArr (items : list json)
  | JObj (props : list (string * json)).

(** A possibly [undefined] value. *)
Definition jsval : Type := option json.

(** ToBoolean. *)
Definition truthy (v : jsval) : bool :=
  match v with
  | None | Some JNull => false
  | Some (JBool b) => b
  | Some (JNum n) => negb (n =? 0)
  | Some (JStr s) => negb (String.eqb s "")
  | Some (JArr _) | Some (JObj _) => true
  end.

(** [a || b] *)
Definition js_or (a b : jsval) : jsval := if truthy a then a else b.

(** [v === "lit"] *)
Definition is_str (lit : string) (v : jsval) : bool :=
  match v with Some (JStr s) => String.eqb s lit | _ => false end.

(** [Array.isArray(v)] *)
Definition isArray (v : json) : bool :=
  match v with JArr _ => true | _ => false end.

Fixpoint assoc (k : string) (l : list (string * json)) : jsval :=
  match l with
  | [] => None
  | (k', v) :: l' => if String.eqb k k' then Some v else assoc k l'
  end.

(** Thrown values: an [Error] with its [name] and [message]. *)
Record exn : Type := mkExn { exn_name : string; message : string }.

Definition Error (m : string) : exn := mkExn "Error" m.
Definition TypeError (m : string) : exn := mkExn "TypeError" m.
Definition SyntaxError (m : string) : exn := mkExn "SyntaxError" m.

(** [String(e)] for an error object. *)
Definition exn_to_string (e : exn) : string :=
  if String.eqb (message e) "" then exn_name e
  else exn_name e ++ ": " ++ message e.

(** [v.prop]: a property read.  It throws on [null] and [undefined]; the
    primitives and arrays produced by [JSON.parse] have no property of the
    names read here. *)
Definition get_prop (v : jsval) (prop : string) : exn + jsval :=
  match v with
  | None | Some JNull =>
      inl (TypeError ("Cannot read properties of null (reading '" ++ prop ++ "')"))
  | Some (JObj props) => inr (assoc prop props)
  | Some _ => inr None
  end.

(** [typeof v === 'boolean'] *)
Definition is_boolean (v : jsval) : bool :=
  match v with Some (JBool _) => true | _ => false end.

(** ** Strings *)

Fixpoint strip_prefix (p s : string) : option string :=
  match p, s with
  | EmptyString, _ => Some s
  | String a p', String b s' => if Ascii.eqb a b then strip_prefix p' s' else None
  | String _ _, EmptyString => None
  end.

(** [s.replace(/^p/, "")] for a literal [p]. *)
Definition replace_prefix (p s : string) : string :=
  match strip_prefix p s with Some r => r | None => s end.

(** [connect.replace(/^serial:\/\//, "").replace(/^serial:\//, "")] *)
Definition device_of (connect : string) : string :=
  replace_prefix "serial:/" (replace_prefix "serial://" connect).

(** [s.includes(sub)] *)
Fixpoint includes (sub s : string) : bool :=
  if String.prefix sub s then true
  else match s with
       | EmptyString => false
       | String _ s' => includes sub s'
       end.

(** ** The outside world *)

(** The callback arguments of [execFile]: [(err, stdout, stderr)]. *)
Record ExecOutcome : Type := mkExec {
  ex_err : option exn;
  ex_stdout : string;
  ex_stderr : string
}.

(** The API object exported by the [ms-python.python] extension.  A member
    that is missing is [None]; a call can throw ([inl]). *)
Record PythonApi : Type := mkPythonApi {
  (* settings.getExecutionDetails(uri).execCommand *)
  getExecutionDetails : option (option string -> exn + option (list string));
  (* getActiveInterpreter(uri).path *)
  getActiveInterpreter : option (option string -> exn + option string)
}.

Record PythonExtension : Type := mkPythonExtension {
  isActive : bool;
  activate : option exn;          (* [Some e]: activation rejects with [e] *)
  exports : option PythonApi
}.

(** Answers of everything outside the extension.  The [nat] argument of the
    time-dependent oracles is the number of questions asked so far, so two
    runs of the same subprocess may differ. *)
Record Env : Type := mkEnv {
  JSON_parse : string -> option json;      (* [None]: SyntaxError *)
  js_trim : string -> string;              (* String.prototype.trim *)
  path_join : list string -> string;       (* path.join *)
  Date_now : nat -> Z;
  execFile : nat -> string -> list string -> Z -> ExecOutcome;
  (* what a spawned child writes to stdout and stderr before it closes;
     [None]: the child cannot be started, it emits [error] and never [close] *)
  spawn_io : nat -> string -> list string -> option (string * string);
  platform : string;                       (* process.platform *)
  LOCALAPPDATA : option string;            (* process.env.LOCALAPPDATA *)
  python_extension : option PythonExtension;
  extensionPath : option string            (* of WebForks.MicroPython-WorkBench *)
}.

(** ** The extension's state and the monad that threads it *)

(** Fields of [class SerialMonitor]; [out] holds the lines appended to the
    output channel once it has been created. *)
Record Monitor : Type := mkMonitor {
  timer : option nat;
  busy : bool;
  running : bool;
  out : option (list string)
}.

(** Static fields of [class PythonInterpreterManager]. *)
Record InterpCache : Type := mkCache {
  cachedInterpreter : option string;
  lastCacheTime : Z;
  lastMpremoteNotification : Z
}.

(** What the extension asks of its host, in the order it asks. *)
Inductive Effect : Type :=
  | ConfigRead (scope : option string) (key : string)
  | FileExists (path : string)
  | FileRead (path : string)
  | ExecFileCall (file : string) (args : list string) (timeout : Z)
  | SpawnCall (file : string) (args : list string) (killAfter : Z)
  | WarningMessage (text : string)
  | ConsoleLog (text : string).

Record World : Type := mkWorld {
  (* vscode.workspace.getConfiguration(_, scope) *)
  settings : option string -> gmap string json;
  (* the disk: [Some None] is an entry that exists and cannot be read *)
  files : gmap string (option string);
  (* vscode.workspace.workspaceFolders, by fsPath *)
  workspaceFolders : list string;
  monitor : Monitor;
  interp : InterpCache;
  (* handles of the timeouts that are armed; each one runs [tick] *)
  timeouts : list nat;
  next_handle : nat;
  (* number of oracle questions asked so far *)
  asked : nat;
  log : list Effect
}.

Definition set_monitor (m : Monitor) (w : World) : World :=
  mkWorld (settings w) (files w) (workspaceFolders w) m (interp w)
          (timeouts w) (next_handle w) (asked w) (log w).

Definition set_interp (c : InterpCache) (w : World) : World :=
  mkWorld (settings w) (files w) (workspaceFolders w) (monitor w) c
          (timeouts w) (next_handle w) (asked w) (log w).

Definition set_timeouts (ts : list nat) (n : nat) (w : World) : World :=
  mkWorld (settings w) (files w) (workspaceFolders w) (monitor w) (interp w)
          ts n (asked w) (log w).

Definition set_settings (s : option string -> gmap string json) (w : World) : World :=
  mkWorld s (files w) (workspaceFolders w) (monitor w) (interp w)
          (timeouts w) (next_handle w) (asked w) (log w).

Definition emit (e : Effect) (w : World) : World :=
  mkWorld (settings w) (files w) (workspaceFolders w) (monitor w) (interp w)
          (timeouts w) (next_handle w) (asked w) (log w ++ [e]).

Definition bump (w : World) : World :=
  mkWorld (settings w) (files w) (workspaceFolders w) (monitor w) (interp w)
          (timeouts w) (next_handle w) (S (asked w)) (log w).

(** Outcome of a call: a value, or a thrown error (for an [async] function,
    a promise that resolves or rejects). *)
Inductive Res (A : Type) : Type :=
  | Ok (a : A)
  | Throw (e : exn).
Arguments Ok {A} a.
Arguments Throw {A} e.

(** State survives a throw, as it does in JavaScript. *)
Definition M (A : Type) : Type := World -> Res A * World.

Definition ret {A} (a : A) : M A := fun w => (Ok a, w).
Definition throw {A} (e : exn) : M A := fun w => (Throw e, w).

Definition bind {A B} (m : M A) (k : A -> M B) : M B :=
  fun w => match m w with
           | (Ok a, w') => k a w'
           | (Throw e, w') => (Throw e, w')
           end.

(** [try { m } catch (e) { h e }] *)
Definition try_catch {A} (m : M A) (h : exn -> M A) : M A :=
  fun w => match m w with
           | (Ok a, w') => (Ok a, w')
           | (Throw e, w') => h e w'
           end.

(** [try { m } finally { f }]: the outcome of [m] stands unless [f] itself
    throws. *)
Definition try_finally {A} (m : M A) (f : M unit) : M A :=
  fun w => let '(r, w1) := m w in
           match f w1 with
           | (Ok _, w2) => (r, w2)
           | (Throw e, w2) => (Throw e, w2)
           end.

Definition get {A} (f : World -> A) : M A := fun w => (Ok (f w), w).

(** A state change that cannot fail. *)
Definition act (f : World -> World) : M unit := fun w => (Ok tt, f w).

(** Lift an [exn + A] computed without touching the state. *)
Definition lift {A} (r : exn + A) : M A :=
  match r with inl e => throw e | inr a => ret a end.

Declare Scope js_scope.
Delimit Scope js_scope with js.
Notation "'do' x <- m ; k" := (bind m (fun x => k))
  (at level 10, x name, m at level 100, k at level 200,
   format "'[v' 'do'  x  <-  m ; '/' k ']'") : js_scope.
Notation "'run' m ; k" := (bind m (fun _ => k))
  (at level 10, m at level 100, k at level 200,
   format "'[v' 'run'  m ; '/' k ']'") : js_scope.
Open Scope js_scope.

Definition result {A} (m : M A) (w : World) : Res A := fst (m w).
Definition after {A} (m : M A) (w : World) : World := snd (m w).

(** ** Host calls *)

Section Host.
Variable env : Env.

(** [Date.now()] *)
Definition now : M Z :=
  fun w => (Ok (Date_now env (asked w)), bump w).

(** [vscode.workspace.getConfiguration(_, scope).get(key)] *)
Definition config_get (scope : option string) (key : string) : M jsval :=
  fun w => (Ok (settings w scope !! key), emit (ConfigRead scope key) w).

(** [....get(key, dflt)]: the default stands in for a setting that is not
    defined. *)
Definition config_get_or (scope : option string) (key : string) (dflt : json)
  : M jsval :=
  do v <- config_get scope key;
  ret (Some (default dflt v)).

(** [promisify(execFile)(file, args, { timeout })] *)
Definition execFileAsync (file : string) (args : list string) (timeout : Z)
  : M (string * string) :=
  fun w =>
    let r := execFile env (asked w) file args timeout in
    let w' := emit (ExecFileCall file args timeout) (bump w) in
    match ex_err r with
    | Some e => (Throw e, w')
    | None => (Ok (ex_stdout r, ex_stderr r), w')
    end.

(** [execFile(file, args, { timeout }, callback)]: what the callback is
    handed. *)
Definition execFile_callback (file : string) (args : list string) (timeout : Z)
  : M ExecOutcome :=
  fun w => (Ok (execFile env (asked w) file args timeout),
            emit (ExecFileCall file args timeout) (bump w)).

(** [spawn(file, args)], the data read from the child until its [close]
    event; the child is killed [killAfter] ms after the spawn.  [None]: the
    child could not be started, and its [close] event never comes. *)
Definition spawn_collect (file : string) (args : list string) (killAfter : Z)
  : M (option (string * string)) :=
  fun w => (Ok (spawn_io env (asked w) file args),
            emit (SpawnCall file args killAfter) (bump w)).

(** [fs.existsSync(path)] and [fs.readFileSync(path, 'utf8')] *)
Definition existsSync (path : string) : M bool :=
  fun w => (Ok (match files w !! path with Some _ => true | None => false end),
            emit (FileExists path) w).

Definition readFileSync (path : string) : M string :=
  fun w => match files w !! path with
           | Some (Some text) => (Ok text, emit (FileRead path) w)
           | Some None => (Throw (Error ("EISDIR: illegal operation, read " ++ path)),
                           emit (FileRead path) w)
           | None => (Throw (Error ("ENOENT: no such file, open " ++ path)),
                      emit (FileRead path) w)
           end.

(** [JSON.parse(text)] *)
Definition JSON_parse_or_throw (text : string) : M json :=
  match JSON_parse env text with
  | Some v => ret v
  | None => throw (SyntaxError "Unexpected token in JSON")
  end.

(** [setTimeout(() => this.tick().catch(() => {}), ms)] arms a fresh
    handle; time itself is not modelled, an armed timeout expires when the
    session says so. *)
Definition setTimeout (ms : Z) : M nat :=
  fun w => (Ok (next_handle w),
            set_timeouts (timeouts w ++ [next_handle w]) (S (next_handle w)) w).

(** [clearTimeout(h)]; a handle that is not armed is ignored. *)
Definition clearTimeout (h : nat) : M unit :=
  act (fun w => set_timeouts (filter (fun h' => h' ≠ h) (timeouts w)) (next_handle w) w).

Definition console_log (text : string) : M unit :=
  act (emit (ConsoleLog text)).
End Host.

(** ** [src/pythonInterpreter.ts] *)

Module PythonInterpreterManager.
Section WithEnv.
Variable env : Env.

Definition CACHE_DURATION : Z := 30000.
Definition NOTIFICATION_COOLDOWN : Z := 300000.

Record Validation : Type := mkValidation {
  valid : bool;
  missingMpremote : bool;
  error : option string
}.

Definition cacheResult (pythonPath : string) : M unit :=
  do t <- now env;
  act (fun w => set_interp
         (mkCache (Some pythonPath) t (lastMpremoteNotification (interp w))) w).

Definition clearCache : M unit :=
  act (fun w => set_interp
         (mkCache None 0 (lastMpremoteNotification (interp w))) w).

(** The warning itself; what the user picks in it arrives later, as a
    separate event. *)
Definition showMpremoteInstallationNotification (pythonPath : string) : M unit :=
  do t <- now env;
  do last <- get (fun w => lastMpremoteNotification (interp w));
  if t - last <? NOTIFICATION_COOLDOWN then ret tt
  else
    run act (fun w => set_interp
               (mkCache (cachedInterpreter (interp w)) (lastCacheTime (interp w)) t) w);
    act (emit (WarningMessage
      "MicroPython WorkBench requires the 'mpremote' package to communicate with your MicroPython board.")).

Definition validatePythonPath (pythonPath : string) : M Validation :=
  try_catch
    (run execFileAsync env pythonPath ["-c"; "import sys; print(sys.version)"] 5000;
     run execFileAsync env "mpremote" ["--version"] 5000;
     ret (mkValidation true false None))
    (fun e =>
       let errorMessage :=
         if String.eqb (message e) "" then exn_to_string e else message e in
       if includes "mpremote" errorMessage
          && (includes "not found" errorMessage
              || includes "command not found" errorMessage)
       then ret (mkValidation false true (Some errorMessage))
       else ret (mkValidation false false (Some errorMessage))).

Definition getPythonFromExtensionAPI (workspaceFolder : option string)
  : M (option string) :=
  try_catch
    (match python_extension env with
     | None => ret None
     | Some pythonExtension =>
         run (if isActive pythonExtension then ret tt
              else match activate pythonExtension with
                   | Some e => throw e
                   | None => ret tt
                   end);
         match exports pythonExtension with
         | None => ret None
         | Some pythonApi =>
             do fromSettings <-
               match getExecutionDetails pythonApi with
               | Some details =>
                   do execCommand <- lift (details workspaceFolder);
                   match execCommand with
                   | Some (first :: _) => ret (Some first)
                   | _ => ret None
                   end
               | None => ret None
               end;
             match fromSettings with
             | Some first => ret (Some first)
             | None =>
                 match getActiveInterpreter pythonApi with
                 | Some active =>
                     do interpreter <- lift (active workspaceFolder);
                     match interpreter with
                     | Some p => if String.eqb p "" then ret None else ret (Some p)
                     | None => ret None
                     end
                 | None => ret None
                 end
             end
         end
     end)
    (fun e =>
       run console_log ("Error accessing Python extension API: " ++ exn_to_string e);
       ret None).

(** [if (v && v.trim()) return v.trim();] for a setting declared as a
    string: [Some p] returns [p], [None] goes on. *)
Definition trimmed_setting (v : jsval) : M (option string) :=
  match v with
  | Some (JStr s) =>
      if negb (String.eqb s "") && negb (String.eqb (js_trim env s) "")
      then ret (Some (js_trim env s)) else ret None
  | _ =>
      if truthy v then throw (TypeError "trim is not a function") else ret None
  end.

(** The [for (const key of configKeys)] loop over the [python] section. *)
Fixpoint first_setting (scope : option string) (keys : list string)
  : M (option string) :=
  match keys with
  | [] => ret None
  | key :: rest =>
      do pythonPath <- config_get scope ("python." ++ key);
      do hit <- trimmed_setting pythonPath;
      match hit with
      | Some p => ret (Some p)
      | None => first_setting scope rest
      end
  end.

Definition getPythonFromConfiguration (workspaceFolder : option string)
  : M (option string) :=
  do mpyPythonPath <- config_get workspaceFolder "microPythonWorkBench.pythonPath";
  do hit <- trimmed_setting mpyPythonPath;
  match hit with
  | Some p => ret (Some p)
  | None => first_setting workspaceFolder ["defaultInterpreterPath"; "pythonPath"]
  end.

Definition getFallbackPythonPaths : list string :=
  if String.eqb (platform env) "win32" then
    let local := default "" (LOCALAPPDATA env) in
    [ "python"; "python3"; "py -3"; "py";
      path_join env [local; "Programs"; "Python"; "Python39"; "python.exe"];
      path_join env [local; "Programs"; "Python"; "Python310"; "python.exe"];
      path_join env [local; "Programs"; "Python"; "Python311"; "python.exe"];
      path_join env [local; "Programs"; "Python"; "Python312"; "python.exe"] ]
  else
    [ "python3"; "python"; "/usr/bin/python3"; "/usr/local/bin/python3";
      "/opt/homebrew/bin/python3"; "/usr/bin/python"; "/usr/local/bin/python" ].

(** The body shared by methods 1 and 2 once a candidate is at hand:
    [Some p] is [return p], [None] falls out of the [if]. *)
Definition try_candidate (pythonPath : option string) : M (option string) :=
  match pythonPath with
  | Some p =>
      if String.eqb p "" then ret None
      else
        do validation <- validatePythonPath p;
        if valid validation then
          run cacheResult p; ret (Some p)
        else if missingMpremote validation then
          run showMpremoteInstallationNotification p; ret None
        else ret None
  | None => ret None
  end.

(** The [for (const fallback of fallbacks)] loop of method 3. *)
Fixpoint try_fallbacks (fallbacks : list string) : M (option string) :=
  match fallbacks with
  | [] => ret None
  | fallback :: rest =>
      do hit <- try_catch
        (do validation <- validatePythonPath fallback;
         if valid validation then
           run cacheResult fallback; ret (Some fallback)
         else if missingMpremote validation then
           run showMpremoteInstallationNotification fallback; ret None
         else ret None)
        (fun _ => ret None);
      match hit with
      | Some p => ret (Some p)
      | None => try_fallbacks rest
      end
  end.

(** [this.cachedInterpreter && (now - this.lastCacheTime) < this.CACHE_DURATION] *)
Definition cache_hit (c : InterpCache) (t : Z) : option string :=
  match cachedInterpreter c with
  | Some p =>
      if negb (String.eqb p "") && (t - lastCacheTime c <? CACHE_DURATION)
      then Some p else None
  | None => None
  end.

Definition getPythonPath (workspaceFolder : option string) : M string :=
  do t <- now env;
  do cached <- get (fun w => cache_hit (interp w) t);
  match cached with
  | Some p => ret p
  | None =>
      do m1 <- try_catch
        (do pythonPath <- getPythonFromExtensionAPI workspaceFolder;
         try_candidate pythonPath)
        (fun e =>
           run console_log ("Failed to get Python from extension API: " ++ exn_to_string e);
           ret None);
      match m1 with
      | Some p => ret p
      | None =>
          do m2 <- try_catch
            (do pythonPath <- getPythonFromConfiguration workspaceFolder;
             try_candidate pythonPath)
            (fun e =>
               run console_log ("Failed to get Python from configuration: " ++ exn_to_string e);
               ret None);
          match m2 with
          | Some p => ret p
          | None =>
              do m3 <- try_fallbacks getFallbackPythonPaths;
              match m3 with
              | Some p => ret p
              | None =>
                  let lastResort := "python3" in
                  run cacheResult lastResort; ret lastResort
              end
          end
      end
  end.

(** [checkMpremoteAvailability]: called on activation. *)
Definition checkMpremoteAvailability : M bool :=
  try_catch
    (do pythonPath <- getPythonPath None;
     do validation <- validatePythonPath pythonPath;
     if negb (valid validation) && missingMpremote validation then
       run showMpremoteInstallationNotification pythonPath; ret false
     else ret (valid validation))
    (fun e =>
       run console_log ("Error checking mpremote availability: " ++ exn_to_string e);
       ret false).

(** [getPythonCommandForTerminal]; the quote character is code 34. *)
Definition getPythonCommandForTerminal (workspaceFolder : option string) : M string :=
  do pythonPath <- getPythonPath workspaceFolder;
  if includes " " pythonPath then ret pythonPath
  else if includes " " pythonPath
          && negb (String.prefix (String (ascii_of_nat 34) EmptyString) pythonPath)
          && negb (String.prefix "'" pythonPath)
  then ret (String (ascii_of_nat 34) pythonPath ++ String (ascii_of_nat 34) EmptyString)
  else ret pythonPath.
End WithEnv.
End PythonInterpreterManager.

(** ** [src/pyraw.ts] *)

Section PyRaw.
Variable env : Env.

(** The callback handed to [execFile]. *)
Definition on_listing (r : ExecOutcome) : M (list json) :=
  match ex_err r with
  | Some err =>
      throw (Error (if String.eqb (ex_stderr r) "" then message err else ex_stderr r))
  | None =>
      match JSON_parse env (if String.eqb (ex_stdout r) "" then "[]" else ex_stdout r) with
      | Some (JArr data) => ret data
      | _ => ret []
      end
  end.

Definition listDirPyRaw (dirPath : string) : M (list json) :=
  do configured <- config_get_or None "microPythonWorkBench.connect" (JStr "auto");
  let connect := js_or configured (Some (JStr "auto")) in
  if negb (truthy connect) || is_str "auto" connect
  then throw (Error "No fixed serial port selected")
  else
    do device <- match connect with
                 | Some (JStr c) => ret (device_of c)
                 | _ => throw (TypeError "connect.replace is not a function")
                 end;
    do root <- match extensionPath env with
               | Some p => ret p
               | None => throw (TypeError "Cannot read properties of undefined (reading 'extensionPath')")
               end;
    let script := path_join env [root; "scripts"; "thonny_list_files.py"] in
    do pythonPath <- PythonInterpreterManager.getPythonPath env None;
    do r <- execFile_callback env pythonPath
              [script; "--port"; device; "--baudrate"; "115200"; "--path"; dirPath]
              10000;
    on_listing r.
End PyRaw.

(** ** Tree items of the editor *)

(** [new vscode.ThemeIcon(id, color)] *)
Record ThemeIcon : Type := mkIcon {
  icon_id : string;
  icon_color : option string
}.

(** The [command] of a tree item: what a click runs, and with what. *)
Record Command : Type := mkCommand {
  cmd_command : string;
  cmd_title : string;
  cmd_arguments : option (list json)
}.

(** [new vscode.TreeItem(label, TreeItemCollapsibleState.None)] and the
    fields the providers assign. *)
Record TreeItem : Type := mkTreeItem {
  item_label : string;
  contextValue : option string;
  item_command : option Command;
  iconPath : option ThemeIcon
}.

(** ** [src/syncView.ts] *)

Module SyncTree.
Section WithEnv.
Variable env : Env.

Record SyncActionNode : Type := mkNode {
  id : string;
  label : string;
  command : string
}.

Definition neutral_label : string := "Toggle AutoSync".
Definition on_label : string := "AutoSync: ON (click to disable)".
Definition off_label : string := "AutoSync: OFF (click to enable)".

(** The [try { ... } catch {}] block of [getActionNodes]. *)
Definition autoSyncLabel : M string :=
  try_catch
    (do ws <- get (fun w => head (workspaceFolders w));
     match ws with
     | None => ret neutral_label
     | Some fsPath =>
         let file := fsPath ++ "/.mpy-workbench/config.json" in
         do present <- existsSync file;
         do cfg <- (if present : bool
                    then do text <- readFileSync file; JSON_parse_or_throw env text
                    else ret (JObj []));
         do flag <- lift (get_prop (Some cfg) "autoSyncOnSave");
         do enabled <- (if is_boolean flag then ret flag
                        else config_get_or None "microPythonWorkBench.autoSyncOnSave"
                               (JBool false));
         ret (if truthy enabled then on_label else off_label)
     end)
    (fun _ => ret neutral_label).

Definition getActionNodes : M (list SyncActionNode) :=
  do autoSync <- autoSyncLabel;
  ret [ mkNode "toggleAutoSync" autoSync "microPythonWorkBench.toggleWorkspaceAutoSync";
        mkNode "baseline" "Upload all files (Local → Board)" "microPythonWorkBench.syncBaseline";
        mkNode "baselineFromBoard" "Download all files (Board → Local)" "microPythonWorkBench.syncBaselineFromBoard";
        mkNode "checkDiffs" "Check for differences (local vs board)" "microPythonWorkBench.checkDiffs";
        mkNode "syncDiffsLocalToBoard" "Sync changed Files Local → Board" "microPythonWorkBench.syncDiffsLocalToBoard";
        mkNode "syncDiffsBoardToLocal" "Sync changed Files Board → Local" "microPythonWorkBench.syncDiffsBoardToLocal";
        mkNode "deleteAllBoard" "Delete ALL files on Board" "microPythonWorkBench.deleteAllBoard" ].

Definition getChildren : M (list SyncActionNode) := getActionNodes.

(** One [if (element.id === ...) item.iconPath = ...] of the [else] branch. *)
Definition icon_if (element : SyncActionNode) (i : string) (icon : ThemeIcon)
    (current : option ThemeIcon) : option ThemeIcon :=
  if String.eqb (id element) i then Some icon else current.

Definition getTreeItemForAction (element : SyncActionNode) : TreeItem :=
  if String.eqb (id element) "toggleAutoSync" then
    mkTreeItem (label element) None
      (Some (mkCommand "microPythonWorkBench.toggleWorkspaceAutoSync" (label element) None))
      (Some (mkIcon "sync" None))
  else
    mkTreeItem (label element) None
      (Some (mkCommand "microPythonWorkBench.runFromView" (label element)
               (Some [JStr (command element)])))
      (icon_if element "deleteAllBoard" (mkIcon "trash" (Some "charts.red"))
         (icon_if element "syncDiffsBoardToLocal" (mkIcon "cloud-download" None)
            (icon_if element "syncDiffsLocalToBoard" (mkIcon "cloud-upload" None)
               (icon_if element "checkDiffs" (mkIcon "diff" None)
                  (icon_if element "baselineFromBoard" (mkIcon "cloud-download" None)
                     (icon_if element "baseline" (mkIcon "cloud-upload" None) None)))))).

Definition getTreeItem (element : SyncActionNode) : TreeItem :=
  getTreeItemForAction element.
End WithEnv.
End SyncTree.

Module SerialMonitor.
Section WithEnv.
Variable env : Env.

Definition intervalMs : Z := 2000.
Definition windowMs : Z := 400.

Definition set_timer (t : option nat) (m : Monitor) : Monitor :=
  mkMonitor t (busy m) (running m) (out m).
Definition set_busy (b : bool) (m : Monitor) : Monitor :=
  mkMonitor (timer m) b (running m) (out m).
Definition set_running (b : bool) (m : Monitor) : Monitor :=
  mkMonitor (timer m) (busy m) b (out m).
Definition set_out (o : option (list string)) (m : Monitor) : Monitor :=
  mkMonitor (timer m) (busy m) (running m) o.

(** An assignment to a field of [this]. *)
Definition update (f : Monitor -> Monitor) : M unit :=
  act (fun w => set_monitor (f (monitor w)) w).

Definition schedule : M unit :=
  do m <- get monitor;
  if negb (running m) || busy m then ret tt
  else
    run (match timer m with Some h => clearTimeout h | None => ret tt end);
    do h <- setTimeout intervalMs;
    update (set_timer (Some h)).

Definition start : M unit :=
  do m <- get monitor;
  if running m then ret tt
  else
    run update (fun m => set_out (Some (default [] (out m))) m);
    run update (set_running true);
    schedule.

Definition stop : M unit :=
  run update (set_running false);
  do m <- get monitor;
  match timer m with
  | Some h => run clearTimeout h; update (set_timer None)
  | None => ret tt
  end.

Definition isRunning : M bool := get (fun w => running (monitor w)).

Definition suspendDuring {T} (fn : M T) : M T :=
  do wasRunning <- get (fun w => running (monitor w));
  run update (set_busy true);
  try_finally fn
    (run update (set_busy false);
     if wasRunning : bool then schedule else ret tt).

(** [tick] up to its first [await]: [None] is the early [return]. *)
Definition tick_prepare : M (option (list string)) :=
  do m <- get monitor;
  if negb (running m) || busy m then ret None
  else
    do connect <- config_get_or None "microPythonWorkBench.connect" (JStr "auto");
    let text := js_or connect (Some (JStr "")) in
    do device <- match text with
                 | Some (JStr c) => ret (device_of c)
                 | _ => throw (TypeError "replace is not a function")
                 end;
    ret (Some ["-m"; "serial.tools.miniterm"; device; "115200"; "--eol"; "LF"]).

(** From [await getPythonPath()] to the child's [close] event, if it
    comes. *)
Definition tick_poll (args : list string) : M (option (string * string)) :=
  do pythonPath <- PythonInterpreterManager.getPythonPath env None;
  spawn_collect env pythonPath args windowMs.

(** After the child has closed. *)
Definition tick_conclude (io : string * string) : M unit :=
  let '(buf, err) := io in
  let text := js_trim env (if String.eqb buf "" then err else buf) in
  run (if String.eqb text "" then ret tt
       else update (fun m => set_out (option_map (fun lines => (lines ++ [text])%list) (out m)) m));
  do m <- get monitor;
  if running m && negb (busy m) then schedule else ret tt.

(** No [error] listener is attached to the child, and [tick] awaits its
    [close] event alone: when that never comes the promise of [tick] stays
    pending and nothing below the [await] runs.  Nobody awaits that promise
    (the timeout callback only attaches a [catch]), so all that shows is
    what is left undone. *)
Definition tick : M unit :=
  do prepared <- tick_prepare;
  match prepared with
  | None => ret tt
  | Some args =>
      do closed <- tick_poll args;
      match closed with
      | Some io => tick_conclude io
      | None => ret tt
      end
  end.

(** The timeout with handle [h] expires: if it is still armed, its
    callback [() => this.tick().catch(() => {})] runs. *)
Definition fire (h : nat) : M unit :=
  do armed <- get (fun w => bool_decide (h ∈ timeouts w));
  if armed : bool then
    run clearTimeout h;
    try_catch tick (fun _ => ret tt)
  else ret tt.

Fixpoint fire_all (hs : list nat) : M unit :=
  match hs with
  | [] => ret tt
  | h :: rest => run fire h; fire_all rest
  end.
End WithEnv.
End SerialMonitor.

(** ** [src/actions.ts] *)

Module ActionsTree.
Record ActionNode : Type := mkNode {
  id : string;
  label : string;
  command : string;
  args : option (list json)
}.

Definition getTreeItemForAction (element : ActionNode) : TreeItem :=
  mkTreeItem (label element) (Some "action")
    (Some (mkCommand "microPythonWorkBench.runFromView" (label element)
             (Some (JStr (command element) :: default [] (args element)))))
    (if String.eqb (id element) "runActive" then Some (mkIcon "play" (Some "charts.green"))
     else if String.eqb (id element) "openRepl" then Some (mkIcon "terminal" None)
     else if String.eqb (id element) "stop" then Some (mkIcon "debug-stop" (Some "charts.red"))
     else if String.eqb (id element) "softReset" then Some (mkIcon "debug-restart" (Some "charts.blue"))
     else if String.eqb (id element) "sendCtrlC" then Some (mkIcon "zap" (Some "charts.yellow"))
     else if String.eqb (id element) "killUsers" then Some (mkIcon "circle-slash" (Some "charts.red"))
     else if String.eqb (id element) "cancelOps" then Some (mkIcon "stop-circle" (Some "charts.red"))
     else if String.eqb (id element) "deleteAll" then Some (mkIcon "trash" None)
     else if String.eqb (id element) "syncAll" then Some (mkIcon "cloud-upload" None)
     else if String.eqb (id element) "syncCurrent" then Some (mkIcon "repo-push" None)
     else None).

Definition getTreeItem (element : ActionNode) : TreeItem :=
  getTreeItemForAction element.

Definition getActionNodes : M (list ActionNode) :=
  ret [ mkNode "runActive" "Run Active File" "microPythonWorkBench.runActiveFile" None;
        mkNode "openRepl" "Open Repl" "microPythonWorkBench.openRepl" None;
        mkNode "stop" "Stop" "microPythonWorkBench.stop" None;
        mkNode "softReset" "Soft Reset" "microPythonWorkBench.softReset" None;
        mkNode "sendCtrlC" "Interrupt" "microPythonWorkBench.serialSendCtrlC" None ].

Definition getChildren : M (list ActionNode) := getActionNodes.
End ActionsTree.

(** ** Reading the log *)

(** The value of [flag] among options given as flag/value pairs. *)
Fixpoint flag_value (flag : string) (options : list string) : option string :=
  match options with
  | f :: v :: rest => if String.eqb f flag then Some v else flag_value flag rest
  | _ => None
  end.

(** The options of an [execFile] call: what follows the script path. *)
Definition options_of (args : list string) : list string := List.tl args.

(** The serial device a subprocess is pointed at: the [--port] option of
    the listing script, the positional port of [serial.tools.miniterm]. *)
Definition port_of (e : Effect) : option string :=
  match e with
  | ExecFileCall _ args _ => flag_value "--port" (options_of args)
  | SpawnCall _ args _ =>
      match args with
      | m :: tool :: device :: _ =>
          if String.eqb m "-m" && String.eqb tool "serial.tools.miniterm"
          then Some device else None
      | _ => None
      end
  | _ => None
  end.

Definition ports_opened (l : list Effect) : list string := omap port_of l.

(** The [--baudrate] argument of a subprocess. *)
Definition baud_of (e : Effect) : option string :=
  match e with
  | ExecFileCall _ args _ => flag_value "--baudrate" (options_of args)
  | _ => None
  end.

Definition baud_rates (l : list Effect) : list string := omap baud_of l.

Definition is_subprocess (e : Effect) : bool :=
  match e with
  | ExecFileCall _ _ _ | SpawnCall _ _ _ => true
  | _ => false
  end.

Definition subprocesses (l : list Effect) : list Effect := List.filter is_subprocess l.

(** ** A concrete host, for running the model *)

Module Sample.
Definition dq : ascii := ascii_of_nat 34.

Definition is_space (c : ascii) : bool :=
  (Ascii.eqb c " " || Ascii.eqb c "009" || Ascii.eqb c "010" || Ascii.eqb c "013")%char.

Definition is_digit (c : ascii) : bool :=
  let n := nat_of_ascii c in (48 <=? n)%nat && (n <=? 57)%nat.

Fixpoint skip_space (cs : list ascii) : list ascii :=
  match cs with
  | c :: rest => if is_space c then skip_space rest else cs
  | [] => []
  end.

(** Characters up to the closing quote; escapes are outside the subset. *)
Fixpoint read_string (cs : list ascii) : option (string * list ascii) :=
  match cs with
  | [] => None
  | c :: rest =>
      if Ascii.eqb c dq then Some (EmptyString, rest)
      else if Ascii.eqb c "\"%char then None
      else match read_string rest with
           | Some (s, rest') => Some (String c s, rest')
           | None => None
           end
  end.

Fixpoint read_digits (acc : Z) (cs : list ascii) : Z * list ascii :=
  match cs with
  | c :: rest =>
      if is_digit c
      then read_digits (10 * acc + Z.of_nat (nat_of_ascii c - 48)) rest
      else (acc, cs)
  | [] => (acc, [])
  end.

Definition literal (word : string) (v : json) (cs : list ascii)
  : option (json * list ascii) :=
  match strip_prefix word (string_of_list_ascii cs) with
  | Some rest => Some (v, list_ascii_of_string rest)
  | None => None
  end.

(** A later member replaces an earlier one of the same name. *)
Definition add_prop (k : string) (v : json) (props : list (string * json))
  : list (string * json) :=
  (List.filter (fun kv => negb (String.eqb (fst kv) k)) props ++ [(k, v)])%list.

(** A reader for the subset of JSON used in the examples: [null], [true],
    [false], integers, strings without escapes, arrays and objects. *)
Fixpoint value (fuel : nat) (cs : list ascii) : option (json * list ascii) :=
  match fuel with
  | O => None
  | S fuel' =>
      match skip_space cs with
      | [] => None
      | c :: rest =>
          if Ascii.eqb c "n" then literal "null" JNull (c :: rest)
          else if Ascii.eqb c "t" then literal "true" (JBool true) (c :: rest)
          else if Ascii.eqb c "f" then literal "false" (JBool false) (c :: rest)
          else if Ascii.eqb c dq then
            match read_string rest with
            | Some (s, rest') => Some (JStr s, rest')
            | None => None
            end
          else if is_digit c then
            let '(n, rest') := read_digits 0 (c :: rest) in Some (JNum n, rest')
          else if Ascii.eqb c "-" then
            match rest with
            | d :: _ =>
                if is_digit d
                then let '(n, rest') := read_digits 0 rest in Some (JNum (- n), rest')
                else None
            | [] => None
            end
          else if Ascii.eqb c "[" then
            match skip_space rest with
            | c' :: rest' =>
                if Ascii.eqb c' "]" then Some (JArr [], rest')
                else
                  (fix items (n : nat) (acc : list json) (cs : list ascii) :=
                     match n with
                     | O => None
                     | S n' =>
                         match value fuel' cs with
                         | Some (v, after_v) =>
                             match skip_space after_v with
                             | sep :: more =>
                                 if Ascii.eqb sep "," then items n' (acc ++ [v])%list more
                                 else if Ascii.eqb sep "]" then Some (JArr (acc ++ [v])%list, more)
                                 else None
                             | [] => None
                             end
                         | None => None
                         end
                     end) fuel' [] (c' :: rest')
            | [] => None
            end
          else if Ascii.eqb c "{" then
            match skip_space rest with
            | c' :: rest' =>
                if Ascii.eqb c' "}" then Some (JObj [], rest')
                else
                  (fix members (n : nat) (acc : list (string * json)) (cs : list ascii) :=
                     match n with
                     | O => None
                     | S n' =>
                         match skip_space cs with
                         | q :: after_q =>
                             if Ascii.eqb q dq then
                               match read_string after_q with
                               | Some (k, after_k) =>
                                   match skip_space after_k with
                                   | colon :: after_colon =>
                                       if Ascii.eqb colon ":" then
                                         match value fuel' after_colon with
                                         | Some (v, after_v) =>
                                             match skip_space after_v with
                                             | sep :: more =>
                                                 if Ascii.eqb sep "," then members n' (add_prop k v acc) more
                                                 else if Ascii.eqb sep "}" then Some (JObj (add_prop k v acc), more)
                                                 else None
                                             | [] => None
                                             end
                                         | None => None
                                         end
                                       else None
                                   | [] => None
                                   end
                               | None => None
                               end
                             else None
                         | [] => None
                         end
                     end) fuel' [] (c' :: rest')
            | [] => None
            end
          else None
      end
  end.

Definition parse (text : string) : option json :=
  let cs := list_ascii_of_string text in
  match value (S (List.length cs)) cs with
  | Some (v, rest) =>
      match skip_space rest with
      | [] => Some v
      | _ => None
      end
  | None => None
  end.

Fixpoint trim_left (s : string) : string :=
  match s with
  | String c s' => if is_space c then trim_left s' else s
  | EmptyString => EmptyString
  end.

Definition rev_string (s : string) : string :=
  string_of_list_ascii (List.rev (list_ascii_of_string s)).

Definition trim (s : string) : string :=
  rev_string (trim_left (rev_string (trim_left s))).

(** POSIX [path.join] on segments that need no normalising. *)
Definition join (segments : list string) : string :=
  match List.filter (fun s => negb (String.eqb s "")) segments with
  | [] => "."
  | first :: rest => List.fold_left (fun acc s => acc ++ "/" ++ s) rest first
  end.

Definition quoted (s : string) : string :=
  String dq s ++ String dq EmptyString.
End Sample.

Module Fixtures.
Import Sample.

Definition connect_key : string := "microPythonWorkBench.connect".

Definition no_child : nat -> string -> list string -> option (string * string) :=
  fun _ _ _ => Some ("", "").

(** A Linux host: the clock advances one second per reading, the Python
    extension is not installed, subprocesses answer as [children] says. *)
Definition linux (children : nat -> string -> list string -> Z -> ExecOutcome) : Env :=
  mkEnv parse trim join (fun k => 1000 * Z.of_nat k) children no_child
        "linux" None None (Some "/ext").

(** Every subprocess runs and prints [stdout]. *)
Definition prints (stdout : string) : nat -> string -> list string -> Z -> ExecOutcome :=
  fun _ _ _ _ => mkExec None stdout "".

(** Every subprocess fails with [err] and [stderr]. *)
Definition fails (err stderr : string) : nat -> string -> list string -> Z -> ExecOutcome :=
  fun _ _ _ _ => mkExec (Some (Error err)) "" stderr.

Definition idle : Monitor := mkMonitor None false false None.

Definition fresh (conf : gmap string json) : World :=
  mkWorld (fun _ => conf) ∅ [] idle (mkCache None 0 0) [] 0 0 [].

Definition port (p : string) : gmap string json := {[ connect_key := JStr p ]}.
End Fixtures.

Import Fixtures.

(** ** Vocabulary of the statements *)

(** [returns P m]: from every state, [m] completes normally with a value in
    [P]. *)
Definition returns {A} (P : A -> Prop) (m : M A) : Prop :=
  forall w, exists a w', m w = (Ok a, w') /\ P a.

(** A candidate is only ever returned when it is a non-empty string. *)
Definition usable (r : option string) : Prop :=
  forall p, r = Some p -> p <> "".

(** An effect that names neither a serial device nor a baud rate. *)
Definition off_wire (e : Effect) : Prop := port_of e = None /\ baud_of e = None.

(** [w'] comes from [w] by steps that leave the settings, the disk, the
    monitor and the armed timeouts alone and point no subprocess at a serial
    device. *)
Record off_the_wire (w w' : World) : Prop := mkOff {
  off_settings : settings w' = settings w;
  off_files : files w' = files w;
  off_folders : workspaceFolders w' = workspaceFolders w;
  off_monitor : monitor w' = monitor w;
  off_timeouts : timeouts w' = timeouts w;
  off_next : next_handle w' = next_handle w;
  off_log : exists l, log w' = (log w ++ l)%list /\ Forall off_wire l
}.

Definition quiet {A} (m : M A) : Prop := forall w, off_the_wire w (snd (m w)).

(** A serial port is fixed when the setting is a string other than the
    empty one and "auto". *)
Definition fixed_port (w : World) (c : string) : Prop :=
  settings w None !! connect_key = Some (JStr c) /\ c <> "" /\ c <> "auto".

(** The argument vector [listDirPyRaw] hands to the interpreter. *)
Definition listing_args (env : Env) (root c dirPath : string) : list string :=
  [ path_join env [root; "scripts"; "thonny_list_files.py"];
    "--port"; device_of c; "--baudrate"; "115200"; "--path"; dirPath ].

(** "The baud rate is a configuration input", for the listing of [/] on
    [/dev/ttyUSB0]: some setting decides the [--baudrate] argument. *)
Definition baud_rate_configurable (env : Env) : Prop :=
  exists key : string,
    forall (conf : gmap string json) (rate : string),
      conf !! connect_key = Some (JStr "/dev/ttyUSB0") ->
      conf !! key = Some (JStr rate) ->
      baud_rates (log (after (listDirPyRaw env "/") (fresh conf))) = [rate].

(** The monitor has a poll armed: the timeout it remembers is pending. *)
Definition polling (w : World) : bool :=
  match timer (monitor w) with
  | Some h => bool_decide (h ∈ timeouts w)
  | None => false
  end.

(** The armed timeouts are in order: none but the one the monitor remembers,
    none at all while it is stopped, none twice, and the remembered handle
    has been handed out already. *)
Record tidy (w : World) : Prop := mkTidy {
  armed_is_current : forall h, h ∈ timeouts w -> timer (monitor w) = Some h;
  armed_means_running : timeouts w <> [] -> running (monitor w) = true;
  armed_once : NoDup (timeouts w);
  handle_is_old : forall h, timer (monitor w) = Some h -> (h < next_handle w)%nat
}.

(** The state with the timeouts [hs] no longer armed. *)
Definition disarm (hs : list nat) (w : World) : World :=
  set_timeouts (filter (fun h => h ∉ hs) (timeouts w)) (next_handle w) w.

(** The state in which [suspendDuring] starts [fn], the state in which [fn]
    completes, and that state with the busy flag cleared. *)
Definition enter (w : World) : World :=
  set_monitor (SerialMonitor.set_busy true (monitor w)) w.

Definition at_completion {T} (fn : M T) (w : World) : World := after fn (enter w).

Definition unbusy (w : World) : World :=
  set_monitor (SerialMonitor.set_busy false (monitor w)) w.

(** [suspendDuring fn] re-arms the poll when it ends: afterwards a poll is
    armed, under the handle that was fresh when [fn] completed. *)
Definition resumes {T} (fn : M T) (w : World) : bool :=
  polling (after (SerialMonitor.suspendDuring fn) w)
  && bool_decide (timer (monitor (after (SerialMonitor.suspendDuring fn) w))
                  = Some (next_handle (at_completion fn w))).

(** A monitor that has been started on a fresh host. *)
Definition started (conf : gmap string json) : World :=
  after SerialMonitor.start (fresh conf).

(** An operation that stops the monitor and then fails. *)
Definition stop_then_fail : M unit :=
  run SerialMonitor.stop; throw (Error "board not responding").

(** The state after [schedule] has armed a fresh timeout. *)
Definition rearmed (w : World) : World :=
  let pending := match timer (monitor w) with
                 | Some h => filter (fun h' => h' ≠ h) (timeouts w)
                 | None => timeouts w
                 end in
  set_monitor (SerialMonitor.set_timer (Some (next_handle w)) (monitor w))
    (set_timeouts (pending ++ [next_handle w]) (S (next_handle w)) w).

(** An operation in three parts: [pre], then the poll timeouts [hs] expire,
    then [fn]; and the same operation with the timeouts merely disarmed. *)
Definition interrupted (env : Env) {T} (pre : M unit) (hs : list nat) (fn : M T) : M T :=
  run pre; run SerialMonitor.fire_all env hs; fn.

Definition undisturbed {T} (pre : M unit) (hs : list nat) (fn : M T) : M T :=
  run pre; run act (disarm hs); fn.

(** [pre] leaves a raised busy flag raised. *)
Definition keeps_flag (pre : M unit) : Prop :=
  forall w, busy (monitor w) = true -> busy (monitor (after pre w)) = true.

(** The two operations that open the serial port. *)
Inductive operation : Type :=
  | Listing (dirPath : string)
  | PollTick.

Definition perform (env : Env) (op : operation) (w : World) : World :=
  match op with
  | Listing dirPath => after (listDirPyRaw env dirPath) w
  | PollTick => after (SerialMonitor.tick env) w
  end.


(** The user sets the port to [c]. *)
Definition reconfigure (c : string) (w : World) : World :=
  set_settings (fun scope => <[connect_key := JStr c]> (settings w scope)) w.

(** The argument vector of a poll. *)
Definition miniterm_args (c : string) : list string :=
  ["-m"; "serial.tools.miniterm"; device_of c; "115200"; "--eol"; "LF"].

(** The sync view's toggle. *)
Definition autoSync_key : string := "microPythonWorkBench.autoSyncOnSave".

Definition record_path (fsPath : string) : string :=
  fsPath ++ "/.mpy-workbench/config.json".

Definition label_of (enabled : bool) : string :=
  if enabled then SyncTree.on_label else SyncTree.off_label.

(** The editor setting, [false] when it is not set. *)
Definition setting_enabled (w : World) : bool :=
  truthy (Some (default (JBool false) (settings w None !! autoSync_key))).

(** The boolean [autoSyncOnSave] field of a parsed record, if it has one. *)
Definition flag_of (v : json) : option bool :=
  match v with
  | JObj props =>
      match assoc "autoSyncOnSave" props with
      | Some (JBool b) => Some b
      | _ => None
      end
  | _ => None
  end.

(** A workspace [/ws] whose record file holds [content], with the editor
    setting at [setting]. *)
Definition workspace (content : option string) (setting : bool) : World :=
  mkWorld (fun _ => {[ autoSync_key := JBool setting ]})
          {[ record_path "/ws" := content ]} ["/ws"]
          idle (mkCache None 0 0) [] 0 0 [].

(** The label of the first node that [getActionNodes] renders. *)
Definition toggle_label (env : Env) (w : World) : Res string :=
  match result (SyncTree.getActionNodes env) w with
  | Ok (node :: _) => Ok (SyncTree.label node)
  | Ok [] => Throw (Error "no nodes")
  | Throw e => Throw e
  end.

(** ** Sessions: what can happen to the monitor, in any order *)

(** The extension host runs one callback at a time, so a session is a
    sequence of events.  An operation [op] wrapped in [suspendDuring] shows
    as two events, its entry and, after its [fn] has completed, its exit
    through the [finally] block; other events can fall in between, entries
    and exits of other operations among them. *)
Inductive event : Type :=
  | CallStart
  | CallStop
  | Expire (handle : nat)
  | Enter (op : nat)
  | Leave (op : nat)
  | SetPort (c : string).

(** The [finally] block of [suspendDuring]. *)
Definition release (wasRunning : bool) : M unit :=
  run SerialMonitor.update (SerialMonitor.set_busy false);
  if wasRunning then SerialMonitor.schedule else ret tt.

(** A session state: the world, and [wasRunning] of each operation that has
    entered and not left. *)
Definition session : Type := World * gmap nat bool.

Definition step (env : Env) (e : event) (s : session) : session :=
  let '(w, inside) := s in
  match e with
  | CallStart => (after SerialMonitor.start w, inside)
  | CallStop => (after SerialMonitor.stop w, inside)
  | Expire h => (after (SerialMonitor.fire env h) w, inside)
  | Enter op => (enter w, <[op := running (monitor w)]> inside)
  | Leave op =>
      match inside !! op with
      | Some wasRunning => (after (release wasRunning) w, delete op inside)
      | None => (w, inside)
      end
  | SetPort c => (reconfigure c w, inside)
  end.

Definition play (env : Env) (es : list event) (s : session) : session :=
  fold_left (fun s e => step env e s) es s.

(** ** Vocabulary for the interpreter cache and the warning *)

(** Every run of [m] is a step of [R]. *)
Definition respects (R : World -> World -> Prop) {A} (m : M A) : Prop :=
  forall w, R w (snd (m w)).

(** The two subprocesses of [validatePythonPath], as the questions [k] and
    [k + 1] put to the host. *)
Definition version_args : list string := ["-c"; "import sys; print(sys.version)"].

Definition interpreter_runs (env : Env) (p : string) (k : nat) : bool :=
  match ex_err (execFile env k p version_args 5000) with
  | None => true
  | Some _ => false
  end.

Definition mpremote_runs (env : Env) (k : nat) : bool :=
  match ex_err (execFile env k "mpremote" ["--version"] 5000) with
  | None => true
  | Some _ => false
  end.

Definition passes (env : Env) (p : string) (k : nat) : bool :=
  interpreter_runs env p k && mpremote_runs env (S k).

(** The subprocesses a validation of [p] starts as question [k]. *)
Definition validation_calls (env : Env) (p : string) (k : nat) : list Effect :=
  ExecFileCall p version_args 5000
    :: (if interpreter_runs env p k then [ExecFileCall "mpremote" ["--version"] 5000] else []).

(** The path [p] was validated by a question asked between [w] and [w']. *)
Definition validated_between (env : Env) (w : World) (p : string) (w' : World) : Prop :=
  exists k, (asked w <= k < asked w')%nat /\ passes env p k = true.

(** The cache of [w'] holds [p], stamped with the last clock reading. *)
Definition cached_at (env : Env) (p : string) (w' : World) : Prop :=
  cachedInterpreter (interp w') = Some p
  /\ lastCacheTime (interp w') = Date_now env (Nat.pred (asked w')).

(** The warnings shown so far. *)
Definition warning_of (e : Effect) : option string :=
  match e with WarningMessage text => Some text | _ => None end.

Definition warnings (l : list Effect) : list string := omap warning_of l.

(** From [w] up to question [upto], every clock reading is within the
    cooldown of the last warning. *)
Definition cooling (env : Env) (w : World) (upto : nat) : Prop :=
  forall k, (asked w <= k < upto)%nat ->
    Date_now env k - lastMpremoteNotification (interp w)
    < PythonInterpreterManager.NOTIFICATION_COOLDOWN.

(** A step during which, if the clock stays within the cooldown, no warning
    is shown and the time of the last one stands. *)
Definition cool_step (env : Env) (w w' : World) : Prop :=
  (asked w <= asked w')%nat
  /\ (cooling env w (asked w') ->
      lastMpremoteNotification (interp w') = lastMpremoteNotification (interp w)
      /\ warnings (log w') = warnings (log w)).

Definition later (w w' : World) : Prop := (asked w <= asked w')%nat.

(** What a setting contributes to [getPythonFromConfiguration]: its trimmed
    text, unless it is unset, empty or blank. *)
Definition setting_text (env : Env) (v : jsval) : option string :=
  match v with
  | Some (JStr s) =>
      if negb (String.eqb s "") && negb (String.eqb (js_trim env s) "")
      then Some (js_trim env s) else None
  | _ => None
  end.

(** The settings that name an interpreter, in the order they are read. *)
Definition interpreter_settings : list string :=
  ["microPythonWorkBench.pythonPath"; "python.defaultInterpreterPath"; "python.pythonPath"].

Definition configured_interpreter (env : Env) (w : World) (scope : option string)
  : option string :=
  head (omap (fun key => setting_text env (settings w scope !! key)) interpreter_settings).

(** A setting as its declaration says it is: a string, or not set. *)
Definition string_or_unset (v : jsval) : Prop :=
  match v with
  | None | Some (JStr _) => True
  | Some _ => False
  end.

(** The Python extension is installed and exports the newer API, which
    names [p] as the first word of the command that runs the interpreter
    of [workspaceFolder]. *)
Definition extension_offers (env : Env) (workspaceFolder : option string) (p : string)
  : Prop :=
  exists ext api details rest,
    python_extension env = Some ext
    /\ (isActive ext = true \/ activate ext = None)
    /\ exports ext = Some api
    /\ getExecutionDetails api = Some details
    /\ details workspaceFolder = inr (Some (p :: rest)).

(** Subprocesses on a host where every interpreter runs and [mpremote]
    fails with [msg]. *)
Definition without_mpremote (msg : string) : nat -> string -> list string -> Z -> ExecOutcome :=
  fun _ file _ _ =>
    if String.eqb file "mpremote" then mkExec (Some (Error msg)) "" ""
    else mkExec None "3.12.1" "".

(** A Linux host whose clock reads [t0] at first. *)
Definition at_time (t0 : Z) (children : nat -> string -> list string -> Z -> ExecOutcome)
  : Env :=
  mkEnv Sample.parse Sample.trim Sample.join (fun k => t0 + 1000 * Z.of_nat k)
        children no_child "linux" None None (Some "/ext").





(** The two public calls in the course of which the warning may be
    shown, and the state each leaves. *)
Inductive warning_site : Type :=
  | Lookup (workspaceFolder : option string)
  | AvailabilityCheck.

Definition visit (env : Env) (site : warning_site) (w : World) : World :=
  match site with
  | Lookup workspaceFolder =>
      after (PythonInterpreterManager.getPythonPath env workspaceFolder) w
  | AvailabilityCheck => after (PythonInterpreterManager.checkMpremoteAvailability env) w
  end.

(** A host without [mpremote], at a wall clock, once a first lookup has
    shown the warning and the cache has been cleared. *)
Definition warned : World :=
  after PythonInterpreterManager.clearCache
    (after (PythonInterpreterManager.getPythonPath
              (at_time 1700000000000 (without_mpremote "/bin/sh: 1: mpremote: not found"))
              None)
       (fresh ∅)).

(** A host on which no program can be started at all. *)
Definition nothing_runs : Env :=
  mkEnv Sample.parse Sample.trim Sample.join (fun k => 1000 * Z.of_nat k)
        (fails "spawn python3 ENOENT" "") (fun _ _ _ => None)
        "linux" None None (Some "/ext").

(** A host on which the Python extension offers [/venv/bin/python]. *)
Definition with_extension : Env :=
  mkEnv Sample.parse Sample.trim Sample.join (fun k => 1000 * Z.of_nat k)
        (prints "Python 3.12") no_child "linux" None
        (Some (mkPythonExtension false None
                 (Some (mkPythonApi (Some (fun _ => inr (Some ["/venv/bin/python"]))) None))))
        (Some "/ext").

(** A step that leaves the monitor, its timeouts, the settings and the
    disk as they are. *)
Record bystander (w w' : World) : Prop := mkBystander {
  by_monitor : monitor w' = monitor w;
  by_timeouts : timeouts w' = timeouts w;
  by_next : next_handle w' = next_handle w;
  by_settings : settings w' = settings w;
  by_files : files w' = files w
}.

(** An operation in the course of which [start] is called: [pre], the
    call, [post]. *)
Definition starting_within {T} (pre : M unit) (post : M T) : M T :=
  run pre; run SerialMonitor.start; post.

(** ** Vocabulary for ticks in flight *)

(** A tick that has started and not ended: it has its arguments and waits
    for the interpreter, or it has spawned its child and waits for it to
    close, or it waits for a child that could not be started. *)
Inductive phase : Type :=
  | Prepared (args : list string)
  | Reading (io : string * string)
  | Stuck.

(** What can happen, with the three stretches of a tick as separate
    happenings: other callbacks run at its [await]s.  [getPythonPath] is
    run in one piece; it touches nothing of the monitor. *)
Inductive happening : Type :=
  | Host (e : event)
  | TickStarts (h : nat)
  | TickSpawns (h : nat)
  | TickEnds (h : nat).

Definition flight : Type := World * gmap nat bool * gmap nat phase.

Definition advance (env : Env) (x : happening) (s : flight) : flight :=
  let '(w, inside, ticks) := s in
  match x with
  | Host e => (step env e (w, inside), ticks)
  | TickStarts h =>
      if bool_decide (h ∈ timeouts w) then
        match SerialMonitor.tick_prepare (disarm [h] w) with
        | (Ok (Some args), w') => (w', inside, <[h := Prepared args]> ticks)
        | (_, w') => (w', inside, ticks)
        end
      else s
  | TickSpawns h =>
      match ticks !! h with
      | Some (Prepared args) =>
          match SerialMonitor.tick_poll env args w with
          | (Ok (Some io), w') => (w', inside, <[h := Reading io]> ticks)
          | (Ok None, w') => (w', inside, <[h := Stuck]> ticks)
          | (Throw _, w') => (w', inside, delete h ticks)
          end
      | _ => s
      end
  | TickEnds h =>
      match ticks !! h with
      | Some (Reading io) =>
          (after (SerialMonitor.tick_conclude env io) w, inside, delete h ticks)
      | _ => s
      end
  end.

Definition unfold_session (env : Env) (xs : list happening) (s : flight) : flight :=
  fold_left (fun s x => advance env x s) xs s.

Definition world_of (s : flight) : World := fst (fst s).

(** ** Vocabulary for the exclusive access *)







(** ** Vocabulary for one poll *)

(** The text that [tick] appends for what the child wrote. *)
Definition poll_text (env : Env) (io : string * string) : string :=
  js_trim env (if String.eqb (fst io) "" then snd io else fst io).

(** The output channel after a poll that read [io]. *)
Definition appended (env : Env) (io : string * string) (o : option (list string))
  : option (list string) :=
  if String.eqb (poll_text env io) "" then o
  else option_map (fun lines => (lines ++ [poll_text env io])%list) o.

(** The state after [tick] has dealt with what its child wrote. *)
Definition concluded (env : Env) (io : string * string) (w : World) : World :=
  let w1 := set_monitor
              (SerialMonitor.set_out (appended env io (out (monitor w))) (monitor w)) w in
  if running (monitor w) && negb (busy (monitor w)) then rearmed w1 else w1.

(** The port setting as [tick] reads it: [get(key, "auto") || ''] *)
Definition tick_connect (w : World) : jsval :=
  js_or (Some (default (JStr "auto") (settings w None !! connect_key))) (Some (JStr "")).

(** ** Vocabulary for the tree views *)

(** The ids for which the sync view sets an icon, and those for which the
    actions view does. *)
Definition sync_ids : list string :=
  [ "toggleAutoSync"; "baseline"; "baselineFromBoard"; "checkDiffs";
    "syncDiffsLocalToBoard"; "syncDiffsBoardToLocal"; "deleteAllBoard" ].

Definition action_icon_ids : list string :=
  [ "runActive"; "openRepl"; "stop"; "softReset"; "sendCtrlC";
    "killUsers"; "cancelOps"; "deleteAll"; "syncAll"; "syncCurrent" ].

(** A click that goes through the wrapper command, which is handed the
    command to run and its arguments. *)
Definition via_wrapper (title command : string) (rest : list json) : Command :=
  mkCommand "microPythonWorkBench.runFromView" title (Some (JStr command :: rest)).

(** * Properties *)

(** ** Stepping through the monad *)

Lemma bind_Ok {A B} (m : M A) (k : A -> M B) w a w' :
  m w = (Ok a, w') -> bind m k w = k a w'.
Proof. intros E. unfold bind. rewrite E. reflexivity. Qed.

Lemma returns_ret {A} (P : A -> Prop) a : P a -> returns P (ret a).
Proof. intros H w. exists a, w. split; [reflexivity | exact H]. Qed.

Lemma returns_get {B} (P : B -> Prop) (f : World -> B) :
  (forall w, P (f w)) -> returns P (get f).
Proof. intros H w. exists (f w), w. split; [reflexivity | apply H]. Qed.

Lemma returns_act f : returns (fun _ => True) (act f).
Proof. intros w. exists tt, (f w). split; [reflexivity | exact I]. Qed.

Lemma returns_bind {A B} (P : A -> Prop) (Q : B -> Prop) (m : M A) (k : A -> M B) :
  returns P m -> (forall a, P a -> returns Q (k a)) -> returns Q (bind m k).
Proof.
  intros Hm Hk w.
  destruct (Hm w) as (a & w1 & E & Pa).
  destruct (Hk a Pa w1) as (b & w2 & E2 & Qb).
  exists b, w2. split; [| exact Qb].
  rewrite (bind_Ok _ _ _ _ _ E). exact E2.
Qed.

Lemma returns_weaken {A} (P Q : A -> Prop) (m : M A) :
  returns P m -> (forall a, P a -> Q a) -> returns Q m.
Proof.
  intros Hm HPQ w. destruct (Hm w) as (a & w' & E & Pa).
  exists a, w'. split; [exact E | apply HPQ, Pa].
Qed.

(** [try { m } catch (e) { h e }] completes in [P] when a normal completion
    of [m] lies in [P] and every handler run does. *)
Lemma returns_try_catch {A} (P : A -> Prop) (m : M A) (h : exn -> M A) :
  (forall w a w', m w = (Ok a, w') -> P a) ->
  (forall e, returns P (h e)) ->
  returns P (try_catch m h).
Proof.
  intros Hm Hh w. unfold try_catch.
  destruct (m w) as [[a | e] w'] eqn:E.
  - exists a, w'. split; [reflexivity | exact (Hm _ _ _ E)].
  - apply Hh.
Qed.

Lemma returns_inv {A} (P : A -> Prop) (m : M A) w a w' :
  returns P m -> m w = (Ok a, w') -> P a.
Proof.
  intros Hm E. destruct (Hm w) as (a0 & w0 & E0 & Pa).
  rewrite E in E0. injection E0 as -> ->. exact Pa.
Qed.

(** ** The interpreter lookup always answers *)

Section Interpreter.
Import PythonInterpreterManager.
Variable env : Env.

Lemma now_returns : returns (fun _ => True) (now env).
Proof. intros w. eexists _, _. split; [reflexivity | exact I]. Qed.

Lemma cacheResult_returns p : returns (fun _ => True) (cacheResult env p).
Proof.
  unfold cacheResult.
  eapply returns_bind; [apply now_returns | intros; apply returns_act].
Qed.

Lemma notification_returns p :
  returns (fun _ => True) (showMpremoteInstallationNotification env p).
Proof.
  unfold showMpremoteInstallationNotification.
  eapply returns_bind; [apply now_returns | intros t _].
  eapply returns_bind; [apply returns_get with (P := fun _ => True); auto | intros l _].
  destruct (t - l <? NOTIFICATION_COOLDOWN).
  - apply returns_ret; exact I.
  - eapply returns_bind; [apply returns_act | intros; apply returns_act].
Qed.

Lemma validatePythonPath_returns p :
  returns (fun _ => True) (validatePythonPath env p).
Proof.
  unfold validatePythonPath.
  apply returns_try_catch; [auto |].
  intros e.
  match goal with |- context [if ?c then _ else _] => destruct c end;
    apply returns_ret; exact I.
Qed.

Lemma usable_None : usable None.
Proof. intros p H. discriminate. Qed.

Lemma try_candidate_returns c : returns usable (try_candidate env c).
Proof.
  unfold try_candidate.
  destruct c as [p |]; [| apply returns_ret, usable_None].
  destruct (String.eqb p "") eqn:Ep; [apply returns_ret, usable_None |].
  eapply returns_bind; [apply validatePythonPath_returns | intros v _].
  destruct (valid v).
  - eapply returns_bind; [apply cacheResult_returns | intros _ _].
    apply returns_ret. intros q [= <-]. intros ->. discriminate.
  - destruct (missingMpremote v).
    + eapply returns_bind; [apply notification_returns | intros _ _].
      apply returns_ret, usable_None.
    + apply returns_ret, usable_None.
Qed.

Lemma method_returns (find : M (option string)) (h : exn -> M (option string)) :
  (forall e, returns usable (h e)) ->
  returns usable (try_catch (do pythonPath <- find; try_candidate env pythonPath) h).
Proof.
  intros Hh. apply returns_try_catch; [| exact Hh].
  intros w r w' E. unfold bind in E.
  destruct (find w) as [[c | e] w1]; [| discriminate].
  exact (returns_inv _ _ _ _ _ (try_candidate_returns c) E).
Qed.

Lemma logged_None_returns text :
  returns usable (run console_log text; ret None).
Proof.
  eapply returns_bind; [apply returns_act | intros _ _].
  apply returns_ret, usable_None.
Qed.

Lemma try_fallbacks_returns l :
  returns (fun r => forall p, r = Some p -> In p l) (try_fallbacks env l).
Proof.
  induction l as [| f rest IH]; cbn [try_fallbacks].
  - apply returns_ret. intros p H. discriminate.
  - eapply returns_bind with (P := fun r => forall p, r = Some p -> p = f).
    + apply returns_try_catch.
      * intros w r w' E p ->. unfold bind in E.
        destruct (validatePythonPath env f w) as [[v | e] w1]; [| discriminate].
        destruct (valid v).
        -- destruct (cacheResult env f w1) as [[[] | e] w2]; [| discriminate].
           cbv [ret] in E. congruence.
        -- destruct (missingMpremote v).
           ++ destruct (showMpremoteInstallationNotification env f w1) as [[[] | e] w2];
                [| discriminate].
              cbv [ret] in E. congruence.
           ++ cbv [ret] in E. congruence.
      * intros e. apply returns_ret. intros p H. discriminate.
    + intros [q |] Hq.
      * apply returns_ret. intros p [= <-]. left. symmetry. apply Hq. reflexivity.
      * eapply returns_weaken; [apply IH |].
        intros r Hr p Hp. right. apply Hr, Hp.
Qed.

Lemma fallbacks_nonempty :
  (forall segments, path_join env segments <> "") ->
  forall p, In p (getFallbackPythonPaths env) -> p <> "".
Proof.
  intros Hjoin p. unfold getFallbackPythonPaths.
  destruct (String.eqb (platform env) "win32"); cbn [In];
    intros H; repeat (destruct H as [<- | H]; [first [apply Hjoin | discriminate] |]);
    destruct H.
Qed.

Lemma cache_hit_nonempty c t p : cache_hit c t = Some p -> p <> "".
Proof.
  unfold cache_hit. destruct (cachedInterpreter c) as [q |]; [| discriminate].
  destruct (String.eqb q "") eqn:Eq; cbn; [discriminate |].
  destruct (t - lastCacheTime c <? CACHE_DURATION); [| discriminate].
  intros [= <-]. intros ->. discriminate.
Qed.

Lemma getPythonPath_returns_in (Q : string -> Prop) workspaceFolder :
  (forall p, p <> "" -> Q p) ->
  (forall p, In p (getFallbackPythonPaths env) -> Q p) ->
  returns Q (getPythonPath env workspaceFolder).
Proof.
  intros Hne Hfb. unfold getPythonPath.
  eapply returns_bind; [apply now_returns | intros t _].
  eapply returns_bind with (P := fun r => forall p, r = Some p -> p <> "").
  { apply returns_get. intros w p. apply cache_hit_nonempty. }
  intros [p |] Hp; [apply returns_ret, Hne, Hp; reflexivity |].
  eapply returns_bind;
    [apply method_returns; intros e; apply logged_None_returns |].
  intros [p |] Hp1; [apply returns_ret, Hne, Hp1; reflexivity |].
  eapply returns_bind;
    [apply method_returns; intros e; apply logged_None_returns |].
  intros [p |] Hp2; [apply returns_ret, Hne, Hp2; reflexivity |].
  eapply returns_bind; [apply try_fallbacks_returns |].
  intros [p |] Hp3.
  - apply returns_ret, Hfb, Hp3. reflexivity.
  - eapply returns_bind; [apply cacheResult_returns | intros _ _].
    apply returns_ret, Hne. discriminate.
Qed.

Lemma getPythonPath_returns workspaceFolder :
  (forall segments, path_join env segments <> "") ->
  returns (fun p => p <> "") (getPythonPath env workspaceFolder).
Proof.
  intros Hjoin. apply getPythonPath_returns_in; [auto |].
  apply fallbacks_nonempty, Hjoin.
Qed.

Lemma getPythonPath_answers workspaceFolder :
  returns (fun _ => True) (getPythonPath env workspaceFolder).
Proof. apply getPythonPath_returns_in; auto. Qed.

End Interpreter.

Lemma append_nonempty (a b : string) : a <> "" -> (a ++ b)%string <> "".
Proof. destruct a; [congruence | discriminate]. Qed.

Lemma join_fold_nonempty (rest : list string) (first : string) :
  first <> "" ->
  List.fold_left (fun acc s => (acc ++ "/" ++ s)%string) rest first <> "".
Proof.
  revert first. induction rest as [| s rest IH]; intros first H; cbn.
  - exact H.
  - apply IH, append_nonempty, H.
Qed.

Lemma join_nonempty (segments : list string) : Sample.join segments <> "".
Proof.
  unfold Sample.join.
  destruct (List.filter _ segments) as [| first rest] eqn:E; [discriminate |].
  apply join_fold_nonempty.
  assert (Hin : In first (List.filter (fun s => negb (String.eqb s "")) segments))
    by (rewrite E; left; reflexivity).
  apply List.filter_In in Hin. destruct Hin as [_ Hne].
  intros ->. discriminate.
Qed.

Example last_resort_run :
  result (PythonInterpreterManager.getPythonPath (linux (fails "spawn python3 ENOENT" "")) None)
         (fresh ∅) = Ok "python3".
Proof. vm_compute. reflexivity. Qed.

(** ** The interpreter lookup stays off the wire *)

Lemma ports_opened_app (l1 l2 : list Effect) :
  ports_opened (l1 ++ l2) = (ports_opened l1 ++ ports_opened l2)%list.
Proof. apply omap_app. Qed.

Lemma baud_rates_app (l1 l2 : list Effect) :
  baud_rates (l1 ++ l2) = (baud_rates l1 ++ baud_rates l2)%list.
Proof. apply omap_app. Qed.

Lemma off_wire_ports l : Forall off_wire l -> ports_opened l = [].
Proof.
  induction 1 as [| e l [Hp _] _ IH]; [reflexivity |].
  unfold ports_opened in *. cbn. rewrite Hp. exact IH.
Qed.

Lemma off_wire_bauds l : Forall off_wire l -> baud_rates l = [].
Proof.
  induction 1 as [| e l [_ Hb] _ IH]; [reflexivity |].
  unfold baud_rates in *. cbn. rewrite Hb. exact IH.
Qed.

Lemma off_refl w : off_the_wire w w.
Proof.
  constructor; try reflexivity.
  exists []. split; [symmetry; apply app_nil_r | constructor].
Qed.

Lemma off_trans w1 w2 w3 :
  off_the_wire w1 w2 -> off_the_wire w2 w3 -> off_the_wire w1 w3.
Proof.
  intros [s1 f1 d1 m1 t1 n1 (l1 & L1 & P1)] [s2 f2 d2 m2 t2 n2 (l2 & L2 & P2)].
  constructor; try congruence.
  exists (l1 ++ l2)%list. split.
  - rewrite L2, L1. symmetry. apply app_assoc.
  - apply Forall_app. split; assumption.
Qed.

Lemma off_emit e w : off_wire e -> off_the_wire w (emit e w).
Proof.
  intros H. constructor; try reflexivity.
  exists [e]. split; [reflexivity | constructor; [exact H | constructor]].
Qed.

Lemma off_bump w : off_the_wire w (bump w).
Proof.
  constructor; try reflexivity.
  exists []. split; [symmetry; apply app_nil_r | constructor].
Qed.

Lemma off_set_interp c w : off_the_wire w (set_interp c w).
Proof.
  constructor; try reflexivity.
  exists []. split; [symmetry; apply app_nil_r | constructor].
Qed.

Lemma off_wire_ConfigRead scope key : off_wire (ConfigRead scope key).
Proof. split; reflexivity. Qed.

Lemma off_wire_ConsoleLog text : off_wire (ConsoleLog text).
Proof. split; reflexivity. Qed.

Lemma off_wire_WarningMessage text : off_wire (WarningMessage text).
Proof. split; reflexivity. Qed.

Lemma quiet_ret {A} (a : A) : quiet (ret a).
Proof. intros w. apply off_refl. Qed.

Lemma quiet_throw {A} e : quiet (throw (A := A) e).
Proof. intros w. apply off_refl. Qed.

Lemma quiet_get {A} (f : World -> A) : quiet (get f).
Proof. intros w. apply off_refl. Qed.

Lemma quiet_lift {A} (r : exn + A) : quiet (lift r).
Proof. destruct r; [apply quiet_throw | apply quiet_ret]. Qed.

Lemma quiet_bind {A B} (m : M A) (k : A -> M B) :
  quiet m -> (forall a, quiet (k a)) -> quiet (bind m k).
Proof.
  intros Hm Hk w. unfold bind.
  specialize (Hm w). destruct (m w) as [[a | e] w1]; cbn in *.
  - eapply off_trans; [exact Hm | apply Hk].
  - exact Hm.
Qed.

Lemma quiet_try_catch {A} (m : M A) (h : exn -> M A) :
  quiet m -> (forall e, quiet (h e)) -> quiet (try_catch m h).
Proof.
  intros Hm Hh w. unfold try_catch.
  specialize (Hm w). destruct (m w) as [[a | e] w1]; cbn in *.
  - exact Hm.
  - eapply off_trans; [exact Hm | apply Hh].
Qed.

Lemma quiet_act f : (forall w, off_the_wire w (f w)) -> quiet (act f).
Proof. intros H w. apply H. Qed.

Lemma quiet_now env : quiet (now env).
Proof. intros w. apply off_bump. Qed.

Lemma quiet_config_get scope key : quiet (config_get scope key).
Proof. intros w. apply off_emit, off_wire_ConfigRead. Qed.

Lemma quiet_console_log text : quiet (console_log text).
Proof. apply quiet_act. intros w. apply off_emit, off_wire_ConsoleLog. Qed.

Lemma quiet_execFileAsync env file args timeout :
  off_wire (ExecFileCall file args timeout) ->
  quiet (execFileAsync env file args timeout).
Proof.
  intros H w. unfold execFileAsync.
  assert (O : off_the_wire w (emit (ExecFileCall file args timeout) (bump w))).
  { eapply off_trans; [apply off_bump | apply off_emit; exact H]. }
  destruct (ex_err _); exact O.
Qed.

Section InterpreterQuiet.
Import PythonInterpreterManager.
Variable env : Env.

Create HintDb quiet.
Local Hint Resolve quiet_ret quiet_throw quiet_get quiet_lift quiet_now
  quiet_config_get quiet_console_log off_set_interp off_emit off_bump
  off_wire_ConfigRead off_wire_ConsoleLog off_wire_WarningMessage : quiet.

Ltac quiet_step :=
  match goal with
  | |- quiet (bind _ _) => apply quiet_bind; [| intros ?]
  | |- quiet (try_catch _ _) => apply quiet_try_catch; [| intros ?]
  | |- quiet (act _) => apply quiet_act; intros ?
  | |- _ => solve [auto with quiet]
  end.

Lemma quiet_cacheResult p : quiet (cacheResult env p).
Proof. unfold cacheResult. repeat quiet_step. Qed.

Lemma quiet_notification p : quiet (showMpremoteInstallationNotification env p).
Proof.
  unfold showMpremoteInstallationNotification.
  do 2 quiet_step. quiet_step.
  destruct (_ <? _); repeat quiet_step.
Qed.

Lemma quiet_validatePythonPath p : quiet (validatePythonPath env p).
Proof.
  unfold validatePythonPath. quiet_step.
  - apply quiet_bind; [apply quiet_execFileAsync; split; reflexivity | intros _].
    apply quiet_bind; [apply quiet_execFileAsync; split; reflexivity | intros _].
    apply quiet_ret.
  - match goal with |- context [if ?c then _ else _] => destruct c end;
      apply quiet_ret.
Qed.

Lemma quiet_getPythonFromExtensionAPI wf : quiet (getPythonFromExtensionAPI env wf).
Proof.
  unfold getPythonFromExtensionAPI. quiet_step; [| repeat quiet_step].
  destruct (python_extension env) as [ext |]; [| apply quiet_ret].
  quiet_step.
  { destruct (isActive ext); [apply quiet_ret |].
    destruct (activate ext); auto with quiet. }
  destruct (exports ext) as [api |]; [| apply quiet_ret].
  quiet_step.
  { destruct (getExecutionDetails api) as [details |]; [| apply quiet_ret].
    quiet_step; [apply quiet_lift |].
    match goal with a : option (list string) |- _ => destruct a as [[| ? ?] |] end;
      apply quiet_ret. }
  match goal with a : option string |- _ => destruct a end; [apply quiet_ret |].
  destruct (getActiveInterpreter api) as [active |]; [| apply quiet_ret].
  quiet_step; [apply quiet_lift |].
  match goal with a : option string |- _ => destruct a as [q |] end;
    [destruct (String.eqb q "") |]; apply quiet_ret.
Qed.

Lemma quiet_trimmed_setting v : quiet (trimmed_setting env v).
Proof.
  unfold trimmed_setting.
  destruct v as [[| | | s | |] |];
    try (destruct (truthy _); auto with quiet).
  destruct (_ && _); apply quiet_ret.
Qed.

Lemma quiet_first_setting scope keys : quiet (first_setting env scope keys).
Proof.
  induction keys as [| key rest IH]; cbn [first_setting]; [apply quiet_ret |].
  quiet_step; [apply quiet_config_get |].
  quiet_step; [apply quiet_trimmed_setting |].
  match goal with a : option string |- _ => destruct a end;
    [apply quiet_ret | exact IH].
Qed.

Lemma quiet_getPythonFromConfiguration wf : quiet (getPythonFromConfiguration env wf).
Proof.
  unfold getPythonFromConfiguration.
  quiet_step; [apply quiet_config_get |].
  quiet_step; [apply quiet_trimmed_setting |].
  match goal with a : option string |- _ => destruct a end;
    [apply quiet_ret | apply quiet_first_setting].
Qed.

Lemma quiet_validated p :
  quiet (do validation <- validatePythonPath env p;
         if valid validation then run cacheResult env p; ret (Some p)
         else if missingMpremote validation
              then run showMpremoteInstallationNotification env p; ret None
              else ret None).
Proof.
  quiet_step; [apply quiet_validatePythonPath |].
  match goal with v : Validation |- _ => destruct (valid v); [| destruct (missingMpremote v)] end.
  - quiet_step; [apply quiet_cacheResult | apply quiet_ret].
  - quiet_step; [apply quiet_notification | apply quiet_ret].
  - apply quiet_ret.
Qed.

Lemma quiet_try_candidate c : quiet (try_candidate env c).
Proof.
  unfold try_candidate. destruct c as [p |]; [| apply quiet_ret].
  destruct (String.eqb p ""); [apply quiet_ret |].
  apply (quiet_validated p).
Qed.

Lemma quiet_try_fallbacks l : quiet (try_fallbacks env l).
Proof.
  induction l as [| f rest IH]; cbn [try_fallbacks]; [apply quiet_ret |].
  quiet_step.
  - quiet_step; [apply (quiet_validated f) | apply quiet_ret].
  - match goal with a : option string |- _ => destruct a end;
      [apply quiet_ret | exact IH].
Qed.

Lemma quiet_getPythonPath wf : quiet (getPythonPath env wf).
Proof.
  unfold getPythonPath.
  quiet_step; [apply quiet_now |].
  quiet_step; [apply quiet_get |].
  match goal with a : option string |- _ => destruct a end; [apply quiet_ret |].
  quiet_step.
  { quiet_step; [| repeat quiet_step].
    quiet_step; [apply quiet_getPythonFromExtensionAPI | apply quiet_try_candidate]. }
  match goal with a : option string |- _ => destruct a end; [apply quiet_ret |].
  quiet_step.
  { quiet_step; [| repeat quiet_step].
    quiet_step; [apply quiet_getPythonFromConfiguration | apply quiet_try_candidate]. }
  match goal with a : option string |- _ => destruct a end; [apply quiet_ret |].
  quiet_step; [apply quiet_try_fallbacks |].
  match goal with a : option string |- _ => destruct a end; [apply quiet_ret |].
  quiet_step; [apply quiet_cacheResult | apply quiet_ret].
Qed.
End InterpreterQuiet.

(** ** The listing call *)

Section Listing.
Variable env : Env.

Lemma truthy_fixed c : c <> "" -> truthy (Some (JStr c)) = true.
Proof.
  intros H. cbn. apply negb_true_iff. apply String.eqb_neq. exact H.
Qed.

Lemma listDirPyRaw_unfixed dirPath w :
  truthy (settings w None !! connect_key) = false
  \/ settings w None !! connect_key = Some (JStr "auto") ->
  listDirPyRaw env dirPath w
  = (Throw (Error "No fixed serial port selected"), emit (ConfigRead None connect_key) w).
Proof.
  intros H.
  cbv [listDirPyRaw config_get_or config_get bind ret throw].
  fold connect_key.
  destruct H as [H | H].
  - destruct (settings w None !! connect_key) as [v|] eqn:Ev.
    + change (default (JStr "auto") (Some v)) with v.
      unfold js_or. rewrite H. reflexivity.
    + reflexivity.
  - rewrite H. reflexivity.
Qed.

(** With a fixed port, the call gets as far as the subprocess, and its
    outcome is what the callback makes of the subprocess's. *)
Lemma listDirPyRaw_reaches dirPath w c root :
  fixed_port w c ->
  extensionPath env = Some root ->
  exists py w1,
    PythonInterpreterManager.getPythonPath env None (emit (ConfigRead None connect_key) w)
    = (Ok py, w1)
    /\ listDirPyRaw env dirPath w
       = on_listing env
           (execFile env (asked w1) py (listing_args env root c dirPath) 10000)
           (emit (ExecFileCall py (listing_args env root c dirPath) 10000) (bump w1)).
Proof.
  intros (Hc & Hne & Hauto) Hroot.
  destruct (getPythonPath_answers env None (emit (ConfigRead None connect_key) w))
    as (py & w1 & E & _).
  exists py, w1. split; [exact E |].
  cbv [listDirPyRaw config_get_or config_get bind ret throw].
  fold connect_key. rewrite Hc.
  change (default (JStr "auto") (Some (JStr c))) with (JStr c).
  unfold js_or. rewrite (truthy_fixed c Hne). rewrite (truthy_fixed c Hne).
  cbn [negb orb is_str].
  apply String.eqb_neq in Hauto. rewrite Hauto.
  rewrite Hroot. rewrite E.
  reflexivity.
Qed.

Lemma on_listing_keeps_world r w : snd (on_listing env r w) = w.
Proof.
  unfold on_listing. destruct (ex_err r); [reflexivity |].
  destruct (JSON_parse env _) as [[] |]; reflexivity.
Qed.

Lemma listDirPyRaw_log dirPath w c root :
  fixed_port w c ->
  extensionPath env = Some root ->
  exists py w1,
    PythonInterpreterManager.getPythonPath env None (emit (ConfigRead None connect_key) w)
    = (Ok py, w1)
    /\ after (listDirPyRaw env dirPath) w
       = emit (ExecFileCall py (listing_args env root c dirPath) 10000) (bump w1).
Proof.
  intros Hc Hroot.
  destruct (listDirPyRaw_reaches dirPath w c root Hc Hroot) as (py & w1 & E & R).
  exists py, w1. split; [exact E |].
  unfold after. rewrite R. apply on_listing_keeps_world.
Qed.
End Listing.

(** C3: when the configured connect value is missing, empty (or otherwise
    falsy) or "auto", [listDirPyRaw] rejects with "No fixed serial port
    selected"; all it has done by then is the one settings read, so no
    subprocess was started, and nothing is tried again. *)
Theorem listDirPyRaw_no_fixed_port (env : Env) (dirPath : string) (w : World) :
  truthy (settings w None !! connect_key) = false
  \/ settings w None !! connect_key = Some (JStr "auto") ->
  result (listDirPyRaw env dirPath) w = Throw (Error "No fixed serial port selected")
  /\ after (listDirPyRaw env dirPath) w = emit (ConfigRead None connect_key) w
  /\ subprocesses (log (after (listDirPyRaw env dirPath) w)) = subprocesses (log w)
  /\ asked (after (listDirPyRaw env dirPath) w) = asked w.
Proof.
  intros H. unfold result, after.
  rewrite (listDirPyRaw_unfixed env dirPath w H). cbn [fst snd].
  repeat split.
  unfold subprocesses. cbn [log emit]. rewrite List.filter_app. apply app_nil_r.
Qed.

Lemma listDirPyRaw_no_fixed_port_witness :
  (truthy (settings (fresh (port "auto")) None !! connect_key) = false
   \/ settings (fresh (port "auto")) None !! connect_key = Some (JStr "auto"))
  /\ result (listDirPyRaw (linux (prints "[]")) "/") (fresh (port "auto"))
     = Throw (Error "No fixed serial port selected").
Proof.
  split; [right; reflexivity |].
  apply (listDirPyRaw_no_fixed_port (linux (prints "[]")) "/" (fresh (port "auto"))).
  right. reflexivity.
Defined.

(** C2: with a fixed port the call reaches the subprocess.  If the
    subprocess succeeds, empty output, output that is not JSON and JSON that
    is not an array all resolve to the empty list; if it fails, the call
    rejects with the standard-error text, or with the error's own message
    when standard error is empty. *)
Theorem listDirPyRaw_outcomes (env : Env) (dirPath : string) (w : World) (c root : string) :
  fixed_port w c ->
  extensionPath env = Some root ->
  JSON_parse env "[]" = Some (JArr []) ->
  exists py w1 r,
    PythonInterpreterManager.getPythonPath env None (emit (ConfigRead None connect_key) w)
    = (Ok py, w1)
    /\ r = execFile env (asked w1) py (listing_args env root c dirPath) 10000
    /\ (ex_err r = None -> ex_stdout r = "" ->
        result (listDirPyRaw env dirPath) w = Ok [])
    /\ (ex_err r = None -> JSON_parse env (ex_stdout r) = None ->
        result (listDirPyRaw env dirPath) w = Ok [])
    /\ (ex_err r = None ->
        forall v, JSON_parse env (ex_stdout r) = Some v -> isArray v = false ->
        result (listDirPyRaw env dirPath) w = Ok [])
    /\ (forall err, ex_err r = Some err ->
        result (listDirPyRaw env dirPath) w
        = Throw (Error (if String.eqb (ex_stderr r) "" then message err else ex_stderr r))).
Proof.
  intros Hc Hroot Hempty.
  destruct (listDirPyRaw_reaches env dirPath w c root Hc Hroot) as (py & w1 & E & R).
  exists py, w1, (execFile env (asked w1) py (listing_args env root c dirPath) 10000).
  split; [exact E |]. split; [reflexivity |].
  unfold result. rewrite R. unfold on_listing.
  set (r := execFile env (asked w1) py (listing_args env root c dirPath) 10000).
  repeat split.
  - intros -> ->. cbn. rewrite Hempty. reflexivity.
  - intros -> Hbad. destruct (String.eqb (ex_stdout r) "").
    + rewrite Hempty. reflexivity.
    + rewrite Hbad. reflexivity.
  - intros -> v Hv Harr. destruct (String.eqb (ex_stdout r) "").
    + rewrite Hempty. reflexivity.
    + rewrite Hv. destruct v; try reflexivity. discriminate.
  - intros err ->. reflexivity.
Qed.

Lemma listDirPyRaw_outcomes_witness :
  fixed_port (fresh (port "serial:///dev/ttyUSB0")) "serial:///dev/ttyUSB0"
  /\ extensionPath (linux (fails "Command failed" "could not open port")) = Some "/ext"
  /\ JSON_parse (linux (fails "Command failed" "could not open port")) "[]" = Some (JArr [])
  /\ result (listDirPyRaw (linux (fails "Command failed" "could not open port")) "/")
       (fresh (port "serial:///dev/ttyUSB0"))
     = Throw (Error "could not open port").
Proof.
  assert (F : fixed_port (fresh (port "serial:///dev/ttyUSB0")) "serial:///dev/ttyUSB0")
    by (repeat split; discriminate).
  split; [exact F |]. split; [reflexivity |]. split; [reflexivity |].
  destruct (listDirPyRaw_outcomes (linux (fails "Command failed" "could not open port")) "/"
              (fresh (port "serial:///dev/ttyUSB0")) "serial:///dev/ttyUSB0" "/ext"
              F eq_refl eq_refl) as (py & w1 & r & _ & -> & _ & _ & _ & Herr).
  exact (Herr (Error "Command failed") eq_refl).
Defined.

Example listing_of_an_empty_board :
  result (listDirPyRaw (linux (prints "")) "/") (fresh (port "/dev/ttyUSB0")) = Ok [].
Proof. vm_compute. reflexivity. Qed.

Example listing_of_garbage :
  result (listDirPyRaw (linux (prints "Traceback (most recent call last):")) "/")
         (fresh (port "/dev/ttyUSB0")) = Ok [].
Proof. vm_compute. reflexivity. Qed.

Example listing_of_an_object :
  result (listDirPyRaw (linux (prints "{}")) "/") (fresh (port "/dev/ttyUSB0")) = Ok [].
Proof. vm_compute. reflexivity. Qed.

Example listing_of_entries :
  result (listDirPyRaw (linux (prints "[true, 7]")) "/") (fresh (port "/dev/ttyUSB0"))
  = Ok [JBool true; JNum 7].
Proof. vm_compute. reflexivity. Qed.

Example listing_failure_without_stderr :
  result (listDirPyRaw (linux (fails "Command failed: python3" "")) "/")
         (fresh (port "/dev/ttyUSB0"))
  = Throw (Error "Command failed: python3").
Proof. vm_compute. reflexivity. Qed.

(** ** What the listing call puts on the command line *)

Lemma listDirPyRaw_effects (env : Env) dirPath w c root :
  fixed_port w c ->
  extensionPath env = Some root ->
  exists py l,
    log (after (listDirPyRaw env dirPath) w)
    = ((log w ++ ConfigRead None connect_key :: l)
         ++ [ExecFileCall py (listing_args env root c dirPath) 10000])%list
    /\ Forall off_wire l
    /\ settings (after (listDirPyRaw env dirPath) w) = settings w
    /\ monitor (after (listDirPyRaw env dirPath) w) = monitor w.
Proof.
  intros Hc Hroot.
  destruct (listDirPyRaw_log env dirPath w c root Hc Hroot) as (py & w1 & E & A).
  pose proof (quiet_getPythonPath env None (emit (ConfigRead None connect_key) w)) as Q.
  rewrite E in Q. cbn [snd] in Q.
  destruct Q as [Qs _ _ Qm _ _ (l & L & Hl)].
  exists py, l. rewrite A. cbn [log emit bump settings monitor].
  rewrite L. cbn [log emit].
  repeat split; try assumption.
  rewrite <- (app_assoc (log w) [ConfigRead None connect_key] l). reflexivity.
Qed.

Lemma listDirPyRaw_baud (env : Env) dirPath w c root :
  fixed_port w c ->
  extensionPath env = Some root ->
  baud_rates (log (after (listDirPyRaw env dirPath) w))
  = (baud_rates (log w) ++ ["115200"])%list.
Proof.
  intros Hc Hroot.
  destruct (listDirPyRaw_effects env dirPath w c root Hc Hroot) as (py & l & L & Hl & _).
  rewrite L, !baud_rates_app.
  change (ConfigRead None connect_key :: l) with ([ConfigRead None connect_key] ++ l)%list.
  rewrite baud_rates_app, (off_wire_bauds l Hl).
  cbn. rewrite app_nil_r. reflexivity.
Qed.


(** C6, as the code has it: the one subprocess that the listing call points
    at the board is [<python> <extension>/scripts/thonny_list_files.py --port
    <device> --baudrate 115200 --path <dirPath>] with a timeout of 10000 ms;
    the device is the configured connect value without its [serial://] or
    [serial:/] prefix, the baud rate is the constant 115200 whatever the
    settings hold, and what runs before it (the interpreter lookup) names
    neither a device nor a baud rate. *)
Theorem listing_invocation (env : Env) (dirPath : string) (w : World) (c root : string) :
  fixed_port w c ->
  extensionPath env = Some root ->
  exists py l,
    log (after (listDirPyRaw env dirPath) w)
    = ((log w ++ ConfigRead None connect_key :: l)
         ++ [ExecFileCall py
               [ path_join env [root; "scripts"; "thonny_list_files.py"];
                 "--port"; device_of c; "--baudrate"; "115200"; "--path"; dirPath ]
               10000])%list
    /\ Forall off_wire l
    /\ baud_rates (log (after (listDirPyRaw env dirPath) w))
       = (baud_rates (log w) ++ ["115200"])%list.
Proof.
  intros Hc Hroot.
  destruct (listDirPyRaw_effects env dirPath w c root Hc Hroot) as (py & l & L & Hl & _).
  exists py, l. split; [exact L |]. split; [exact Hl |].
  apply (listDirPyRaw_baud env dirPath w c root Hc Hroot).
Qed.

Lemma listing_invocation_witness :
  fixed_port (fresh (port "serial://COM3")) "serial://COM3"
  /\ extensionPath (linux (prints "[]")) = Some "/ext"
  /\ baud_rates (log (after (listDirPyRaw (linux (prints "[]")) "/lib")
                        (fresh (port "serial://COM3"))))
     = ["115200"].
Proof.
  assert (F : fixed_port (fresh (port "serial://COM3")) "serial://COM3")
    by (repeat split; discriminate).
  split; [exact F |]. split; [reflexivity |].
  destruct (listing_invocation (linux (prints "[]")) "/lib" (fresh (port "serial://COM3"))
              "serial://COM3" "/ext" F eq_refl) as (py & l & _ & _ & B).
  exact B.
Defined.

Example listing_command_line :
  subprocesses (log (after (listDirPyRaw (linux (prints "[]")) "/lib")
                       (fresh (port "serial://COM3"))))
  = [ ExecFileCall "python3" ["-c"; "import sys; print(sys.version)"] 5000;
      ExecFileCall "mpremote" ["--version"] 5000;
      ExecFileCall "python3"
        ["/ext/scripts/thonny_list_files.py"; "--port"; "COM3";
         "--baudrate"; "115200"; "--path"; "/lib"] 10000 ].
Proof. vm_compute. reflexivity. Qed.

(** C6, as stated, fails: no setting decides the baud rate.  Whatever key
    is proposed, a value of 9600 under it still gives [--baudrate 115200]
    (and the port setting itself gives the port, not the rate). *)
Lemma baud_rate_is_not_configurable : ~ baud_rate_configurable (linux (prints "[]")).
Proof.
  intros (key & H).
  assert (B : forall conf : gmap string json,
             conf !! connect_key = Some (JStr "/dev/ttyUSB0") ->
             baud_rates (log (after (listDirPyRaw (linux (prints "[]")) "/") (fresh conf)))
             = ["115200"]).
  { intros conf Hc.
    rewrite (listDirPyRaw_baud (linux (prints "[]")) "/" _ "/dev/ttyUSB0" "/ext");
      [reflexivity | | reflexivity].
    repeat split; [exact Hc | discriminate | discriminate]. }
  destruct (decide (key = connect_key)) as [-> | Hkey].
  - specialize (H (port "/dev/ttyUSB0") "/dev/ttyUSB0" eq_refl eq_refl).
    rewrite (B (port "/dev/ttyUSB0") eq_refl) in H. discriminate.
  - assert (Hc : (<[key := JStr "9600"]> (port "/dev/ttyUSB0") : gmap string json)
                 !! connect_key = Some (JStr "/dev/ttyUSB0")).
    { rewrite lookup_insert_ne by exact Hkey. reflexivity. }
    specialize (H _ "9600" Hc (lookup_insert_eq _ _ _)).
    rewrite (B _ Hc) in H. discriminate.
Qed.

Example configured_baud_rate_is_ignored :
  baud_rates
    (log (after (listDirPyRaw (linux (prints "[]")) "/")
            (fresh (<["microPythonWorkBench.baudrate" := JNum 9600]> (port "/dev/ttyUSB0")))))
  = ["115200"].
Proof. vm_compute. reflexivity. Qed.

(** ** The monitor's scheduling *)

Section Scheduling.
Import SerialMonitor.

Lemma world_eta w :
  mkWorld (settings w) (files w) (workspaceFolders w) (monitor w) (interp w)
          (timeouts w) (next_handle w) (asked w) (log w) = w.
Proof. destruct w. reflexivity. Qed.

Lemma schedule_idle w :
  running (monitor w) = false \/ busy (monitor w) = true ->
  schedule w = (Ok tt, w).
Proof.
  intros H. cbv [schedule bind get ret].
  destruct H as [-> | ->]; [reflexivity |].
  rewrite orb_true_r. reflexivity.
Qed.

Lemma schedule_arms w :
  running (monitor w) = true -> busy (monitor w) = false ->
  schedule w = (Ok tt, rearmed w).
Proof.
  intros Hr Hb.
  cbv [schedule bind get ret update act clearTimeout setTimeout].
  rewrite Hr, Hb. cbn [negb orb].
  unfold rearmed. destruct (timer (monitor w)); reflexivity.
Qed.

Lemma schedule_returns w : exists w', schedule w = (Ok tt, w').
Proof.
  destruct (running (monitor w)) eqn:Hr; [destruct (busy (monitor w)) eqn:Hb |].
  - eexists. apply schedule_idle. right. exact Hb.
  - eexists. apply schedule_arms; assumption.
  - eexists. apply schedule_idle. left. exact Hr.
Qed.

Lemma start_when_running w :
  running (monitor w) = true -> start w = (Ok tt, w).
Proof. intros H. cbv [start bind get ret]. rewrite H. reflexivity. Qed.

Lemma stop_eq w :
  stop w = (Ok tt,
            set_monitor (mkMonitor None (busy (monitor w)) false (out (monitor w)))
              (set_timeouts
                 (match timer (monitor w) with
                  | Some h => filter (fun h' => h' ≠ h) (timeouts w)
                  | None => timeouts w
                  end) (next_handle w) w)).
Proof.
  cbv [stop bind get ret update act clearTimeout set_running set_timer].
  cbn [monitor set_monitor timer busy running out].
  destruct (timer (monitor w)) eqn:Ht; cbn; [reflexivity |].
  unfold set_monitor, set_timeouts. cbn. reflexivity.
Qed.

Lemma suspendDuring_eq {T} (fn : M T) w :
  suspendDuring fn w
  = (result fn (enter w),
     if running (monitor w)
     then after schedule (unbusy (at_completion fn w))
     else unbusy (at_completion fn w)).
Proof.
  cbv [suspendDuring bind get ret update act try_finally].
  fold (enter w). unfold result, at_completion, after.
  destruct (fn (enter w)) as [r w2]. cbn [fst snd]. fold (unbusy w2).
  destruct (running (monitor w)).
  - destruct (schedule_returns (unbusy w2)) as (w3 & E). rewrite E. reflexivity.
  - reflexivity.
Qed.
End Scheduling.

(** ** Poll ticks *)

Section Ticks.
Import SerialMonitor.
Variable env : Env.

Lemma tick_skips w :
  running (monitor w) = false \/ busy (monitor w) = true ->
  tick env w = (Ok tt, w).
Proof.
  intros H. cbv [tick tick_prepare bind get ret].
  destruct H as [-> | ->]; [reflexivity |].
  rewrite orb_true_r. reflexivity.
Qed.

Lemma filter_keeps_all (P : nat -> Prop) `{forall x, Decision (P x)} (l : list nat) :
  (forall x, x ∈ l -> P x) -> filter P l = l.
Proof.
  induction l as [| a l IH]; intros Hall; [reflexivity |].
  rewrite filter_cons_True by (apply Hall; left).
  f_equal. apply IH. intros x Hx. apply Hall. right. exact Hx.
Qed.

Lemma disarm_nil w : disarm [] w = w.
Proof.
  unfold disarm. rewrite filter_keeps_all.
  - apply world_eta.
  - intros x _. apply not_elem_of_nil.
Qed.

Lemma disarm_cons h hs w : disarm (h :: hs) w = disarm hs (disarm [h] w).
Proof.
  unfold disarm. cbn [timeouts set_timeouts next_handle settings files
                      workspaceFolders monitor interp asked log].
  unfold set_timeouts. cbn. f_equal.
  rewrite list_filter_filter. apply list_filter_iff.
  intros x. rewrite not_elem_of_cons, list_elem_of_singleton. tauto.
Qed.

Lemma clearTimeout_disarm h w : clearTimeout h w = (Ok tt, disarm [h] w).
Proof.
  cbv [clearTimeout act]. f_equal. unfold disarm. f_equal.
  apply list_filter_iff. intros x. rewrite list_elem_of_singleton. tauto.
Qed.

(** A timeout that expires while the flag is set only consumes itself. *)
Lemma fire_skipped h w :
  busy (monitor w) = true -> fire env h w = (Ok tt, disarm [h] w).
Proof.
  intros Hb. cbv [fire bind get].
  destruct (bool_decide (h ∈ timeouts w)) eqn:Harmed.
  - rewrite clearTimeout_disarm.
    unfold try_catch. rewrite tick_skips by (right; exact Hb). reflexivity.
  - apply bool_decide_eq_false in Harmed.
    cbv [ret]. f_equal. symmetry. unfold disarm.
    rewrite filter_keeps_all; [apply world_eta |].
    intros x Hx. rewrite list_elem_of_singleton. intros ->. contradiction.
Qed.

Lemma fire_all_skipped hs w :
  busy (monitor w) = true -> fire_all env hs w = (Ok tt, disarm hs w).
Proof.
  revert w. induction hs as [| h hs IH]; intros w Hb; cbn [fire_all].
  - rewrite disarm_nil. reflexivity.
  - rewrite (bind_Ok _ _ _ _ _ (fire_skipped h w Hb)).
    rewrite IH by exact Hb. rewrite (disarm_cons h hs w). reflexivity.
Qed.
End Ticks.

(** ** At most one timeout is armed *)

Section Tidy.
Import SerialMonitor.

Lemma tidy_at_most_one w : tidy w -> (length (timeouts w) <= 1)%nat.
Proof.
  intros [Hcur _ Hnd _].
  destruct (timeouts w) as [| a [| b l]] eqn:E; cbn; try lia.
  exfalso.
  assert (Ha : timer (monitor w) = Some a) by (apply Hcur; left).
  assert (Hb : timer (monitor w) = Some b) by (apply Hcur; right; left).
  assert (a = b) by congruence. subst b.
  apply NoDup_cons in Hnd. destruct Hnd as [Hnotin _]. apply Hnotin. left.
Qed.

Lemma tidy_pending_cleared w :
  tidy w ->
  match timer (monitor w) with
  | Some h => filter (fun h' => h' ≠ h) (timeouts w)
  | None => timeouts w
  end = [].
Proof.
  intros [Hcur _ _ _].
  destruct (timer (monitor w)) as [h |] eqn:Ht.
  - destruct (filter _ (timeouts w)) as [| x l] eqn:E; [reflexivity | exfalso].
    assert (Hx : x ∈ filter (fun h' => h' ≠ h) (timeouts w)) by (rewrite E; left).
    apply list_elem_of_filter in Hx. destruct Hx as [Hne Hin].
    apply Hcur in Hin. injection Hin as <-. apply Hne. reflexivity.
  - destruct (timeouts w) as [| x l] eqn:E; [reflexivity | exfalso].
    assert (Hx : None = Some x) by (apply Hcur; left).
    discriminate.
Qed.

Lemma rearmed_timeouts w : tidy w -> timeouts (rearmed w) = [next_handle w].
Proof.
  intros Ht. unfold rearmed. cbn [timeouts set_monitor set_timeouts].
  rewrite (tidy_pending_cleared w Ht). reflexivity.
Qed.

Lemma rearmed_polling w : polling (rearmed w) = true.
Proof.
  unfold polling, rearmed. cbn [timer monitor set_monitor set_timer timeouts set_timeouts].
  apply bool_decide_eq_true. apply elem_of_app. right. left.
Qed.

Lemma tidy_rearmed w :
  tidy w -> running (monitor w) = true -> tidy (rearmed w).
Proof.
  intros Ht Hr. constructor.
  - rewrite (rearmed_timeouts w Ht). intros h Hh.
    apply list_elem_of_singleton in Hh. subst h. reflexivity.
  - intros _. exact Hr.
  - rewrite (rearmed_timeouts w Ht). apply NoDup_singleton.
  - unfold rearmed. cbn. intros h [= <-]. lia.
Qed.

Lemma tidy_unbusy w : tidy w -> tidy (unbusy w).
Proof. intros [H1 H2 H3 H4]. constructor; assumption. Qed.

Lemma tidy_enter w : tidy w -> tidy (enter w).
Proof. intros [H1 H2 H3 H4]. constructor; assumption. Qed.

Lemma tidy_schedule w : tidy w -> tidy (after schedule w).
Proof.
  intros Ht. unfold after.
  destruct (running (monitor w)) eqn:Hr; [destruct (busy (monitor w)) eqn:Hb |].
  - rewrite schedule_idle by (right; exact Hb). exact Ht.
  - rewrite schedule_arms by assumption. apply tidy_rearmed; assumption.
  - rewrite schedule_idle by (left; exact Hr). exact Ht.
Qed.

Lemma tidy_stop w : tidy w -> tidy (after stop w).
Proof.
  intros Ht. unfold after. rewrite stop_eq. cbn [snd].
  constructor; cbn [timeouts monitor timer running set_monitor set_timeouts next_handle];
    rewrite ?(tidy_pending_cleared w Ht).
  - intros h Hh. apply elem_of_nil in Hh. destruct Hh.
  - congruence.
  - apply NoDup_nil_2.
  - discriminate.
Qed.

Lemma tidy_start w : tidy w -> tidy (after start w).
Proof.
  intros Ht. unfold after.
  destruct (running (monitor w)) eqn:Hr.
  - rewrite start_when_running by exact Hr. exact Ht.
  - cbv [start bind get ret update act]. rewrite Hr.
    match goal with |- tidy (snd (schedule ?w1)) => apply (tidy_schedule w1) end.
    destruct Ht as [H1 H2 H3 H4]. constructor; cbn; try assumption.
    intros _. reflexivity.
Qed.

Lemma tidy_fresh conf : tidy (fresh conf).
Proof.
  constructor; cbn.
  - intros h Hh. apply elem_of_nil in Hh. destruct Hh.
  - congruence.
  - apply NoDup_nil_2.
  - discriminate.
Qed.

Lemma tidy_disarm hs w : tidy w -> tidy (disarm hs w).
Proof.
  intros [H1 H2 H3 H4]. constructor; cbn.
  - intros h Hh. apply list_elem_of_filter in Hh. apply H1. tauto.
  - intros Hne. apply H2. intros E. apply Hne. rewrite E. reflexivity.
  - apply NoDup_filter. exact H3.
  - exact H4.
Qed.
End Tidy.

(** ** Suspension *)

Section Suspension.
Import SerialMonitor.

(** The world [suspendDuring] leaves behind. *)
Lemma suspendDuring_after {T} (fn : M T) w :
  after (suspendDuring fn) w
  = if running (monitor w) && running (monitor (at_completion fn w))
    then rearmed (unbusy (at_completion fn w))
    else unbusy (at_completion fn w).
Proof.
  unfold after at 1. rewrite suspendDuring_eq. cbn [snd].
  destruct (running (monitor w)); [| reflexivity].
  destruct (running (monitor (at_completion fn w))) eqn:Hr; cbn [andb]; unfold after.
  - rewrite schedule_arms; [reflexivity | exact Hr | reflexivity].
  - rewrite schedule_idle; [reflexivity | left; exact Hr].
Qed.

Lemma suspendDuring_result {T} (fn : M T) w :
  result (suspendDuring fn) w = result fn (enter w).
Proof. unfold result at 1. rewrite suspendDuring_eq. reflexivity. Qed.

Lemma polling_unbusy w : polling (unbusy w) = polling w.
Proof. reflexivity. Qed.

Lemma stopped_not_polling w :
  tidy w -> running (monitor w) = false -> polling w = false.
Proof.
  intros [_ Hrun _ _] Hr. unfold polling.
  destruct (timer (monitor w)) as [h |]; [| reflexivity].
  apply bool_decide_eq_false. intros Hin.
  assert (timeouts w <> []) by (intros E; rewrite E in Hin; apply elem_of_nil in Hin; exact Hin).
  rewrite Hrun in Hr by assumption. discriminate.
Qed.

Lemma old_handle_not_fresh w :
  tidy w -> bool_decide (timer (monitor w) = Some (next_handle w)) = false.
Proof.
  intros [_ _ _ Hold]. apply bool_decide_eq_false. intros E.
  apply Hold in E. lia.
Qed.

Lemma resumes_iff {T} (fn : M T) w :
  tidy (at_completion fn w) ->
  resumes fn w = running (monitor w) && running (monitor (at_completion fn w)).
Proof.
  intros Ht. unfold resumes. rewrite suspendDuring_after.
  destruct (running (monitor w) && running (monitor (at_completion fn w))).
  - rewrite rearmed_polling. cbn [andb].
    apply bool_decide_eq_true. reflexivity.
  - change (timer (monitor (unbusy (at_completion fn w))))
      with (timer (monitor (at_completion fn w))).
    rewrite (old_handle_not_fresh _ Ht). apply andb_false_r.
Qed.

Lemma polling_after_suspension {T} (fn : M T) w :
  tidy (at_completion fn w) ->
  running (monitor w) = true ->
  polling (after (suspendDuring fn) w) = running (monitor (at_completion fn w)).
Proof.
  intros Ht Hr. rewrite suspendDuring_after, Hr. cbn [andb].
  destruct (running (monitor (at_completion fn w))) eqn:Hr2.
  - apply rearmed_polling.
  - rewrite polling_unbusy. apply stopped_not_polling; assumption.
Qed.

Lemma tidy_after_suspension {T} (fn : M T) w :
  tidy (at_completion fn w) -> tidy (after (suspendDuring fn) w).
Proof.
  intros Ht. rewrite suspendDuring_after.
  destruct (running (monitor w) && running (monitor (at_completion fn w))) eqn:E.
  - apply andb_true_iff in E. destruct E as [_ E].
    apply tidy_rearmed; [apply tidy_unbusy, Ht | exact E].
  - apply tidy_unbusy, Ht.
Qed.

Lemma flags_after_suspension {T} (fn : M T) w :
  busy (monitor (after (suspendDuring fn) w)) = false
  /\ running (monitor (after (suspendDuring fn) w))
     = running (monitor (at_completion fn w)).
Proof.
  rewrite suspendDuring_after.
  destruct (running (monitor w) && running (monitor (at_completion fn w)));
    split; reflexivity.
Qed.

Lemma start_sets_running w : running (monitor (after start w)) = true.
Proof.
  unfold after. destruct (running (monitor w)) eqn:Hr.
  - rewrite start_when_running by exact Hr. exact Hr.
  - cbv [start bind get ret update act]. rewrite Hr.
    match goal with |- context [schedule ?w1] =>
      destruct (running (monitor w1)) eqn:Hr1;
      [destruct (busy (monitor w1)) eqn:Hb1 |]
    end.
    + rewrite schedule_idle by (right; exact Hb1). exact Hr1.
    + rewrite schedule_arms by assumption. exact Hr1.
    + discriminate Hr1.
Qed.
End Suspension.

(** C10: [start] on a running monitor changes nothing at all, so arms no
    second timeout; two [start]s in a row are one.  After [stop] the
    monitor reports that it is not running, remembers no timeout, the
    timeout it remembered is no longer armed, none was armed in its place,
    and in a tidy state none is left. *)
Theorem start_idempotent_stop_clears (w : World) :
  (running (monitor w) = true -> SerialMonitor.start w = (Ok tt, w))
  /\ SerialMonitor.start (after SerialMonitor.start w) = (Ok tt, after SerialMonitor.start w)
  /\ result SerialMonitor.isRunning (after SerialMonitor.stop w) = Ok false
  /\ timer (monitor (after SerialMonitor.stop w)) = None
  /\ (forall h, timer (monitor w) = Some h -> h ∉ timeouts (after SerialMonitor.stop w))
  /\ next_handle (after SerialMonitor.stop w) = next_handle w
  /\ (tidy w -> timeouts (after SerialMonitor.stop w) = []).
Proof.
  split; [apply start_when_running |].
  split; [apply start_when_running, start_sets_running |].
  unfold after, result. rewrite stop_eq. cbn [fst snd].
  repeat split.
  - intros h Hh. cbn [timeouts set_monitor set_timeouts]. rewrite Hh.
    intros Hin. apply list_elem_of_filter in Hin. destruct Hin as [Hne _].
    apply Hne. reflexivity.
  - intros Ht. cbn [timeouts set_monitor set_timeouts].
    apply tidy_pending_cleared, Ht.
Qed.

Example start_twice_arms_one_timeout :
  timeouts (after SerialMonitor.start (started (port "/dev/ttyUSB0"))) = [0%nat].
Proof. vm_compute. reflexivity. Qed.

Example stop_disarms :
  timeouts (after SerialMonitor.stop (started (port "/dev/ttyUSB0"))) = [].
Proof. vm_compute. reflexivity. Qed.

Lemma tidy_started conf : tidy (started conf).
Proof. apply tidy_start, tidy_fresh. Qed.

Lemma listDirPyRaw_keeps_timeouts env dirPath w c root :
  fixed_port w c ->
  extensionPath env = Some root ->
  monitor (after (listDirPyRaw env dirPath) w) = monitor w
  /\ timeouts (after (listDirPyRaw env dirPath) w) = timeouts w
  /\ next_handle (after (listDirPyRaw env dirPath) w) = next_handle w.
Proof.
  intros Hc Hroot.
  destruct (listDirPyRaw_log env dirPath w c root Hc Hroot) as (py & w1 & E & A).
  pose proof (quiet_getPythonPath env None (emit (ConfigRead None connect_key) w)) as Q.
  rewrite E in Q. cbn [snd] in Q.
  destruct Q as [_ _ _ Qm Qt Qn _].
  rewrite A. cbn [monitor timeouts next_handle emit bump].
  repeat split; assumption.
Qed.

Lemma tidy_same_timers w w' :
  monitor w' = monitor w -> timeouts w' = timeouts w -> next_handle w' = next_handle w ->
  tidy w -> tidy w'.
Proof.
  intros Em Et En [H1 H2 H3 H4].
  constructor; rewrite ?Em, ?Et, ?En; assumption.
Qed.

Lemma tidy_listing_under_suspension env dirPath conf c root :
  conf !! connect_key = Some (JStr c) -> c <> "" -> c <> "auto" ->
  extensionPath env = Some root ->
  tidy (at_completion (listDirPyRaw env dirPath) (started conf)).
Proof.
  intros Hc Hne Hauto Hroot. unfold at_completion.
  assert (F : fixed_port (enter (started conf)) c).
  { split; [exact Hc | split; assumption]. }
  destruct (listDirPyRaw_keeps_timeouts env dirPath _ c root F Hroot) as (Em & Et & En).
  apply (tidy_same_timers _ _ Em Et En).
  apply tidy_enter, tidy_started.
Qed.

Lemma interrupted_undisturbed (env : Env) {T} (pre : M unit) hs (fn : M T) w :
  keeps_flag pre -> busy (monitor w) = true ->
  interrupted env pre hs fn w = undisturbed pre hs fn w.
Proof.
  intros Hpre Hb. unfold interrupted, undisturbed, bind.
  specialize (Hpre w Hb). unfold after in Hpre.
  destruct (pre w) as [[[] | e] w1]; [| reflexivity]. cbn [snd] in Hpre.
  rewrite (fire_all_skipped env hs w1 Hpre). reflexivity.
Qed.

Lemma suspendDuring_ext {T} (fn1 fn2 : M T) w :
  fn1 (enter w) = fn2 (enter w) ->
  SerialMonitor.suspendDuring fn1 w = SerialMonitor.suspendDuring fn2 w.
Proof.
  intros E. rewrite !suspendDuring_eq. unfold result, at_completion, after.
  rewrite E. reflexivity.
Qed.

Lemma tidy_intro w :
  Forall (fun h => timer (monitor w) = Some h) (timeouts w) ->
  (timeouts w = [] \/ running (monitor w) = true) ->
  NoDup (timeouts w) ->
  match timer (monitor w) with Some h => (h < next_handle w)%nat | None => True end ->
  tidy w.
Proof.
  intros Hall Hrun Hnd Hold. constructor.
  - intros h Hh. rewrite Forall_forall in Hall. apply Hall, Hh.
  - intros Hne. destruct Hrun; [contradiction | assumption].
  - exact Hnd.
  - intros h Hh. rewrite Hh in Hold. exact Hold.
Qed.

(** Inside [suspendDuring] the busy flag is up, and while it is up every
    poll timeout that expires only consumes itself: the tick returns at
    once, nothing is added to the log (no subprocess, no settings read), no
    oracle is consulted, the monitor's fields stay as they are and no
    timeout is armed in its place, so nothing queues up.  A wrapped
    operation during which poll timeouts expire therefore runs exactly as
    if they had been disarmed.  When it ends, the release arms the next
    poll exactly when the monitor is (still) running, and never more than
    one. *)
Theorem polls_skipped_while_busy (env : Env) {T} (pre : M unit) (fn : M T)
    (hs : list nat) (w0 : World) :
  keeps_flag pre ->
  running (monitor w0) = true ->
  tidy (at_completion (interrupted env pre hs fn) w0) ->
  (forall w, busy (monitor w) = true ->
     SerialMonitor.fire_all env hs w = (Ok tt, disarm hs w)
     /\ log (after (SerialMonitor.fire_all env hs) w) = log w
     /\ asked (after (SerialMonitor.fire_all env hs) w) = asked w
     /\ monitor (after (SerialMonitor.fire_all env hs) w) = monitor w
     /\ next_handle (after (SerialMonitor.fire_all env hs) w) = next_handle w
     /\ (length (timeouts (after (SerialMonitor.fire_all env hs) w))
         <= length (timeouts w))%nat)
  /\ SerialMonitor.suspendDuring (interrupted env pre hs fn) w0
     = SerialMonitor.suspendDuring (undisturbed pre hs fn) w0
  /\ polling (after (SerialMonitor.suspendDuring (interrupted env pre hs fn)) w0)
     = running (monitor (at_completion (interrupted env pre hs fn) w0))
  /\ (length (timeouts (after (SerialMonitor.suspendDuring (interrupted env pre hs fn)) w0))
      <= 1)%nat.
Proof.
  intros Hpre Hr Ht. split.
  { intros w Hb. split; [apply fire_all_skipped, Hb |].
    unfold after. rewrite (fire_all_skipped env hs w Hb). cbn [snd].
    repeat split. cbn [timeouts disarm set_timeouts]. apply length_filter. }
  split; [apply suspendDuring_ext, interrupted_undisturbed; [exact Hpre | reflexivity] |].
  split; [apply polling_after_suspension; assumption |].
  apply tidy_at_most_one, tidy_after_suspension, Ht.
Qed.

Lemma console_log_keeps_flag text : keeps_flag (console_log text).
Proof. intros w Hb. exact Hb. Qed.

Lemma polls_skipped_while_busy_witness :
  keeps_flag (console_log "listing /")
  /\ running (monitor (started (port "/dev/ttyUSB0"))) = true
  /\ tidy (at_completion
             (interrupted (linux (prints "[]")) (console_log "listing /") [0%nat]
                (listDirPyRaw (linux (prints "[]")) "/"))
             (started (port "/dev/ttyUSB0")))
  /\ ports_opened
       (log (after (SerialMonitor.suspendDuring
                      (interrupted (linux (prints "[]")) (console_log "listing /") [0%nat]
                         (listDirPyRaw (linux (prints "[]")) "/")))
               (started (port "/dev/ttyUSB0")))) = ["/dev/ttyUSB0"]
  /\ polling (after (SerialMonitor.suspendDuring
                       (interrupted (linux (prints "[]")) (console_log "listing /") [0%nat]
                          (listDirPyRaw (linux (prints "[]")) "/")))
                (started (port "/dev/ttyUSB0"))) = true.
Proof.
  assert (Ht : tidy (at_completion
             (interrupted (linux (prints "[]")) (console_log "listing /") [0%nat]
                (listDirPyRaw (linux (prints "[]")) "/"))
             (started (port "/dev/ttyUSB0")))).
  { apply tidy_intro; vm_compute; [constructor | left; reflexivity | constructor | lia]. }
  split; [apply console_log_keeps_flag |]. split; [reflexivity |]. split; [exact Ht |].
  destruct (polls_skipped_while_busy (linux (prints "[]")) (console_log "listing /")
              (listDirPyRaw (linux (prints "[]")) "/") [0%nat]
              (started (port "/dev/ttyUSB0"))
              (console_log_keeps_flag _) eq_refl Ht)
    as (_ & Hsame & Hpoll & _).
  split.
  - unfold after. rewrite Hsame. vm_compute. reflexivity.
  - rewrite Hpoll. vm_compute. reflexivity.
Defined.

Example poll_runs_when_not_busy :
  subprocesses (log (after (SerialMonitor.fire (linux (prints "[]")) 0)
                       (started (port "/dev/ttyUSB0"))))
  = [ ExecFileCall "python3" ["-c"; "import sys; print(sys.version)"] 5000;
      ExecFileCall "mpremote" ["--version"] 5000;
      SpawnCall "python3"
        ["-m"; "serial.tools.miniterm"; "/dev/ttyUSB0"; "115200"; "--eol"; "LF"] 400 ].
Proof. vm_compute. reflexivity. Qed.

Example poll_skipped_when_busy :
  log (after (SerialMonitor.fire (linux (prints "[]")) 0)
         (enter (started (port "/dev/ttyUSB0")))) = [].
Proof. vm_compute. reflexivity. Qed.

(** C4, as the code has it: whether [fn] returns or throws, its outcome is
    passed on, the busy flag ends cleared, and the poll is re-armed exactly
    when the monitor was running before the call and is still running when
    [fn] completes ([schedule] arms nothing for a stopped monitor).  The
    running flag is left as [fn] left it; in particular an operation that
    does not touch it resumes polling if and only if the monitor was running
    before, and a stopped monitor stays stopped. *)
Theorem suspendDuring_resumes_if_still_running {T} (fn : M T) (w : World) :
  tidy (at_completion fn w) ->
  result (SerialMonitor.suspendDuring fn) w = result fn (enter w)
  /\ after (SerialMonitor.suspendDuring fn) w
     = (if running (monitor w) && running (monitor (at_completion fn w))
        then rearmed (unbusy (at_completion fn w))
        else unbusy (at_completion fn w))
  /\ resumes fn w = running (monitor w) && running (monitor (at_completion fn w))
  /\ busy (monitor (after (SerialMonitor.suspendDuring fn) w)) = false
  /\ running (monitor (after (SerialMonitor.suspendDuring fn) w))
     = running (monitor (at_completion fn w))
  /\ (running (monitor (at_completion fn w)) = running (monitor w) ->
      resumes fn w = running (monitor w)
      /\ running (monitor (after (SerialMonitor.suspendDuring fn) w)) = running (monitor w)).
Proof.
  intros Ht.
  destruct (flags_after_suspension fn w) as [Hbusy Hrun].
  split; [apply suspendDuring_result |].
  split; [apply suspendDuring_after |].
  split; [apply resumes_iff, Ht |].
  split; [exact Hbusy |].
  split; [exact Hrun |].
  intros Hsame. split.
  - rewrite (resumes_iff fn w Ht), Hsame. apply andb_diag.
  - rewrite Hrun. exact Hsame.
Qed.

Lemma suspendDuring_resumes_if_still_running_witness :
  tidy (at_completion (listDirPyRaw (linux (prints "[]")) "/") (started (port "COM3")))
  /\ resumes (listDirPyRaw (linux (prints "[]")) "/") (started (port "COM3")) = true
  /\ running (monitor (after (SerialMonitor.suspendDuring
                                (listDirPyRaw (linux (prints "[]")) "/"))
                         (started (port "COM3")))) = true.
Proof.
  assert (Ht : tidy (at_completion (listDirPyRaw (linux (prints "[]")) "/")
                       (started (port "COM3")))).
  { apply (tidy_listing_under_suspension _ _ _ "COM3" "/ext");
      [reflexivity | discriminate | discriminate | reflexivity]. }
  split; [exact Ht |].
  destruct (suspendDuring_resumes_if_still_running
              (listDirPyRaw (linux (prints "[]")) "/") (started (port "COM3")) Ht)
    as (_ & _ & Hres & _ & Hrun & _).
  split.
  - rewrite Hres. reflexivity.
  - rewrite Hrun. reflexivity.
Defined.

(** C4, as stated, fails: the monitor is running, the wrapped operation
    stops it (as the stop command does) and returns; the poll is not
    re-armed, and nothing is left armed. *)
Lemma stopped_during_suspension_does_not_resume :
  running (monitor (started (port "COM3"))) = true
  /\ result (SerialMonitor.suspendDuring SerialMonitor.stop) (started (port "COM3")) = Ok tt
  /\ resumes SerialMonitor.stop (started (port "COM3")) = false
  /\ timeouts (after (SerialMonitor.suspendDuring SerialMonitor.stop) (started (port "COM3")))
     = []
  /\ ~ (resumes SerialMonitor.stop (started (port "COM3")) = true
        <-> running (monitor (started (port "COM3"))) = true).
Proof.
  assert (R : resumes SerialMonitor.stop (started (port "COM3")) = false)
    by (vm_compute; reflexivity).
  split; [reflexivity |]. split; [vm_compute; reflexivity |].
  split; [exact R |]. split; [vm_compute; reflexivity |].
  intros [_ H]. rewrite R in H. specialize (H eq_refl). discriminate.
Qed.

(** C9, as the code has it: when [fn] throws, the error is passed on, the
    busy flag is cleared all the same, and the poll is re-armed exactly when
    the monitor was running before the call and is still running when [fn]
    fails; if it is, one poll is armed afterwards, so a running monitor is
    never left suspended by a failure. *)
Theorem suspendDuring_releases_on_throw {T} (fn : M T) (w : World) (e : exn) :
  result fn (enter w) = Throw e ->
  tidy (at_completion fn w) ->
  result (SerialMonitor.suspendDuring fn) w = Throw e
  /\ busy (monitor (after (SerialMonitor.suspendDuring fn) w)) = false
  /\ resumes fn w = running (monitor w) && running (monitor (at_completion fn w))
  /\ (running (monitor w) = true -> running (monitor (at_completion fn w)) = true ->
      polling (after (SerialMonitor.suspendDuring fn) w) = true
      /\ timeouts (after (SerialMonitor.suspendDuring fn) w)
         = [next_handle (at_completion fn w)]).
Proof.
  intros He Ht.
  split; [rewrite suspendDuring_result; exact He |].
  split; [apply flags_after_suspension |].
  split; [apply resumes_iff, Ht |].
  intros Hr Hr2. rewrite suspendDuring_after, Hr, Hr2. cbn [andb].
  split; [apply rearmed_polling |].
  exact (rearmed_timeouts _ (tidy_unbusy _ Ht)).
Qed.

Lemma suspendDuring_releases_on_throw_witness :
  result (listDirPyRaw (linux (fails "Command failed" "could not open port")) "/")
         (enter (started (port "COM3"))) = Throw (Error "could not open port")
  /\ tidy (at_completion (listDirPyRaw (linux (fails "Command failed" "could not open port")) "/")
             (started (port "COM3")))
  /\ result (SerialMonitor.suspendDuring
               (listDirPyRaw (linux (fails "Command failed" "could not open port")) "/"))
            (started (port "COM3")) = Throw (Error "could not open port")
  /\ busy (monitor (after (SerialMonitor.suspendDuring
               (listDirPyRaw (linux (fails "Command failed" "could not open port")) "/"))
            (started (port "COM3")))) = false
  /\ polling (after (SerialMonitor.suspendDuring
               (listDirPyRaw (linux (fails "Command failed" "could not open port")) "/"))
            (started (port "COM3"))) = true.
Proof.
  assert (He : result (listDirPyRaw (linux (fails "Command failed" "could not open port")) "/")
                 (enter (started (port "COM3"))) = Throw (Error "could not open port"))
    by (vm_compute; reflexivity).
  assert (Ht : tidy (at_completion
                       (listDirPyRaw (linux (fails "Command failed" "could not open port")) "/")
                       (started (port "COM3")))).
  { apply (tidy_listing_under_suspension _ _ _ "COM3" "/ext");
      [reflexivity | discriminate | discriminate | reflexivity]. }
  split; [exact He |]. split; [exact Ht |].
  destruct (suspendDuring_releases_on_throw _ _ _ He Ht) as (Hres & Hbusy & _ & Hpoll).
  split; [exact Hres |]. split; [exact Hbusy |].
  apply Hpoll; vm_compute; reflexivity.
Defined.

(** C9, as stated, fails: the monitor is running, the wrapped operation
    stops it and then throws; the busy flag is cleared, but the poll is not
    re-armed. *)
Lemma failure_after_stop_is_not_rescheduled :
  running (monitor (started (port "COM3"))) = true
  /\ result (SerialMonitor.suspendDuring stop_then_fail) (started (port "COM3"))
     = Throw (Error "board not responding")
  /\ busy (monitor (after (SerialMonitor.suspendDuring stop_then_fail)
                      (started (port "COM3")))) = false
  /\ resumes stop_then_fail (started (port "COM3")) = false
  /\ polling (after (SerialMonitor.suspendDuring stop_then_fail) (started (port "COM3")))
     = false
  /\ ~ (running (monitor (started (port "COM3"))) = true ->
        resumes stop_then_fail (started (port "COM3")) = true).
Proof.
  assert (R : resumes stop_then_fail (started (port "COM3")) = false)
    by (vm_compute; reflexivity).
  split; [reflexivity |]. split; [vm_compute; reflexivity |].
  split; [vm_compute; reflexivity |]. split; [exact R |].
  split; [vm_compute; reflexivity |].
  intros H. rewrite R in H. specialize (H eq_refl). discriminate.
Qed.

(** ** Which port an operation opens *)

Section Ports.
Import SerialMonitor.
Variable env : Env.

Lemma tick_conclude_frame io w :
  exists w', tick_conclude env io w = (Ok tt, w')
             /\ log w' = log w /\ settings w' = settings w
             /\ running (monitor w') = running (monitor w)
             /\ busy (monitor w') = busy (monitor w).
Proof.
  destruct io as [buf err]. cbv [tick_conclude].
  set (text := js_trim env (if String.eqb buf "" then err else buf)).
  assert (S1 : exists w1,
             (if String.eqb text "" then ret tt
              else update (fun m => set_out (option_map (fun lines => (lines ++ [text])%list) (out m)) m)) w
             = (Ok tt, w1)
             /\ log w1 = log w /\ settings w1 = settings w
             /\ running (monitor w1) = running (monitor w)
             /\ busy (monitor w1) = busy (monitor w)).
  { destruct (String.eqb text ""); eexists; repeat split. }
  destruct S1 as (w1 & E1 & L1 & St1 & R1 & B1).
  rewrite (bind_Ok _ _ _ _ _ E1). cbv [bind get].
  destruct (running (monitor w1)) eqn:Hr; [destruct (busy (monitor w1)) eqn:Hb |]; cbn [andb negb].
  - exists w1. cbv [ret]. repeat split; congruence.
  - rewrite schedule_arms by assumption.
    eexists. split; [reflexivity |].
    cbn [log settings monitor running busy rearmed set_monitor set_timeouts set_timer].
    repeat split; congruence.
  - exists w1. cbv [ret]. repeat split; congruence.
Qed.

Lemma after_close_frame (closed : option (string * string)) w :
  exists w', match closed with
             | Some io => tick_conclude env io
             | None => ret tt
             end w = (Ok tt, w')
             /\ log w' = log w /\ settings w' = settings w
             /\ running (monitor w') = running (monitor w)
             /\ busy (monitor w') = busy (monitor w).
Proof.
  destruct closed as [io |]; [apply tick_conclude_frame |].
  exists w. repeat split.
Qed.




End Ports.



Example two_listings_follow_the_setting :
  ports_opened
    (log (perform (linux (prints "[]")) (Listing "/lib")
            (reconfigure "COM7"
               (perform (linux (prints "[]")) (Listing "/")
                  (reconfigure "serial:///dev/ttyACM0" (fresh ∅))))))
  = ["/dev/ttyACM0"; "COM7"].
Proof. vm_compute. reflexivity. Qed.

(** ** The sync view's toggle label *)

Section Toggle.
Import SyncTree.
Variable env : Env.

Lemma autoSyncLabel_no_workspace w :
  head (workspaceFolders w) = None ->
  autoSyncLabel env w = (Ok neutral_label, w).
Proof.
  intros H. cbv [autoSyncLabel try_catch bind get ret]. rewrite H. reflexivity.
Qed.

Lemma fallback_read w :
  config_get_or None autoSync_key (JBool false) w
  = (Ok (Some (default (JBool false) (settings w None !! autoSync_key))),
     emit (ConfigRead None autoSync_key) w).
Proof. reflexivity. Qed.

Lemma autoSyncLabel_absent w fsPath :
  head (workspaceFolders w) = Some fsPath ->
  files w !! record_path fsPath = None ->
  autoSyncLabel env w
  = (Ok (label_of (setting_enabled w)),
     emit (ConfigRead None autoSync_key) (emit (FileExists (record_path fsPath)) w)).
Proof.
  intros Hws Hf.
  cbv [autoSyncLabel try_catch bind get ret existsSync lift get_prop assoc is_boolean].
  rewrite Hws. fold (record_path fsPath). rewrite Hf.
  fold autoSync_key. rewrite fallback_read.
  reflexivity.
Qed.

Lemma autoSyncLabel_unreadable w fsPath :
  head (workspaceFolders w) = Some fsPath ->
  files w !! record_path fsPath = Some None ->
  result (autoSyncLabel env) w = Ok neutral_label.
Proof.
  intros Hws Hf.
  cbv [result autoSyncLabel try_catch bind get ret existsSync readFileSync].
  rewrite Hws. fold (record_path fsPath). rewrite Hf.
  cbn [files emit]. rewrite Hf. reflexivity.
Qed.

Lemma autoSyncLabel_unparsable w fsPath text :
  head (workspaceFolders w) = Some fsPath ->
  files w !! record_path fsPath = Some (Some text) ->
  JSON_parse env text = None \/ JSON_parse env text = Some JNull ->
  result (autoSyncLabel env) w = Ok neutral_label.
Proof.
  intros Hws Hf Hp.
  cbv [result autoSyncLabel try_catch bind get ret existsSync readFileSync
       JSON_parse_or_throw throw lift get_prop].
  rewrite Hws. fold (record_path fsPath). rewrite Hf.
  cbn [files emit]. rewrite Hf.
  destruct Hp as [-> | ->]; reflexivity.
Qed.

Lemma autoSyncLabel_parsed w fsPath text v :
  head (workspaceFolders w) = Some fsPath ->
  files w !! record_path fsPath = Some (Some text) ->
  JSON_parse env text = Some v -> v <> JNull ->
  result (autoSyncLabel env) w
  = Ok (label_of (match flag_of v with
                  | Some b => b
                  | None => setting_enabled w
                  end)).
Proof.
  intros Hws Hf Hp Hnull.
  cbv [result autoSyncLabel try_catch bind get ret existsSync readFileSync
       JSON_parse_or_throw throw lift].
  rewrite Hws. fold (record_path fsPath). rewrite Hf.
  cbn [files emit]. rewrite Hf, Hp.
  fold autoSync_key.
  destruct v as [| b | n | s | items | props]; try contradiction;
    cbn [get_prop is_boolean flag_of]; try reflexivity.
  destruct (assoc "autoSyncOnSave" props) as [[| b | n | s | items | props'] |];
    cbn [is_boolean]; reflexivity.
Qed.

Lemma autoSyncLabel_consults_disk w fsPath :
  head (workspaceFolders w) = Some fsPath ->
  exists l, log (after (autoSyncLabel env) w)
            = (log w ++ FileExists (record_path fsPath) :: l)%list.
Proof.
  intros Hws.
  cbv [after autoSyncLabel try_catch bind get ret existsSync readFileSync
       JSON_parse_or_throw throw lift].
  rewrite Hws. fold (record_path fsPath). fold autoSync_key.
  destruct (files w !! record_path fsPath) as [[text |] |] eqn:Hf;
    cbn [files emit]; rewrite ?Hf.
  - destruct (JSON_parse env text) as [v |].
    + destruct (get_prop (Some v) "autoSyncOnSave") as [e | flag].
      * cbn. eexists. rewrite <- app_assoc. reflexivity.
      * destruct (is_boolean flag); cbn; eexists; rewrite <- !app_assoc; reflexivity.
    + cbn. eexists. rewrite <- app_assoc. reflexivity.
  - cbn. eexists. rewrite <- app_assoc. reflexivity.
  - cbn. eexists. rewrite <- !app_assoc; reflexivity.
Qed.

Lemma getActionNodes_toggle w :
  exists lbl rest,
    result (autoSyncLabel env) w = Ok lbl
    /\ result (getActionNodes env) w
       = Ok (mkNode "toggleAutoSync" lbl "microPythonWorkBench.toggleWorkspaceAutoSync" :: rest)
    /\ after (getActionNodes env) w = after (autoSyncLabel env) w.
Proof.
  assert (Hret : returns (fun _ => True) (autoSyncLabel env)).
  { apply returns_try_catch; [auto | intros e; apply returns_ret; exact I]. }
  destruct (Hret w) as (lbl & w' & E & _).
  exists lbl. eexists. unfold result, after, getActionNodes.
  rewrite (bind_Ok _ _ _ _ _ E), E. cbn. repeat split.
Qed.
End Toggle.

Lemma toggle_label_eq (env : Env) w :
  toggle_label env w = result (SyncTree.autoSyncLabel env) w
  /\ after (SyncTree.getActionNodes env) w = after (SyncTree.autoSyncLabel env) w.
Proof.
  destruct (getActionNodes_toggle env w) as (lbl & rest & E1 & E2 & E3).
  unfold toggle_label. rewrite E2, E1. split; [reflexivity | exact E3].
Qed.

Lemma autoSyncLabel_reads_only (env : Env) w1 w2 :
  workspaceFolders w2 = workspaceFolders w1 ->
  files w2 = files w1 ->
  settings w2 = settings w1 ->
  result (SyncTree.autoSyncLabel env) w2 = result (SyncTree.autoSyncLabel env) w1.
Proof.
  intros Hw Hf Hs.
  assert (He : setting_enabled w2 = setting_enabled w1)
    by (unfold setting_enabled; rewrite Hs; reflexivity).
  destruct (head (workspaceFolders w1)) as [fsPath |] eqn:H1.
  - assert (H2 : head (workspaceFolders w2) = Some fsPath) by (rewrite Hw; exact H1).
    destruct (files w1 !! record_path fsPath) as [[text |] |] eqn:F1.
    + assert (F2 : files w2 !! record_path fsPath = Some (Some text))
        by (rewrite Hf; exact F1).
      destruct (JSON_parse env text) as [v |] eqn:Hp.
      * assert (Hnull : v = JNull \/ v <> JNull)
          by (destruct v; [left; reflexivity | right; discriminate ..]).
        destruct Hnull as [-> | Hv].
        -- rewrite (autoSyncLabel_unparsable env w1 fsPath text H1 F1 (or_intror Hp)).
           apply (autoSyncLabel_unparsable env w2 fsPath text H2 F2 (or_intror Hp)).
        -- rewrite (autoSyncLabel_parsed env w1 fsPath text v H1 F1 Hp Hv).
           rewrite (autoSyncLabel_parsed env w2 fsPath text v H2 F2 Hp Hv).
           rewrite He. reflexivity.
      * rewrite (autoSyncLabel_unparsable env w1 fsPath text H1 F1 (or_introl Hp)).
        apply (autoSyncLabel_unparsable env w2 fsPath text H2 F2 (or_introl Hp)).
    + assert (F2 : files w2 !! record_path fsPath = Some None) by (rewrite Hf; exact F1).
      rewrite (autoSyncLabel_unreadable env w1 fsPath H1 F1).
      apply (autoSyncLabel_unreadable env w2 fsPath H2 F2).
    + assert (F2 : files w2 !! record_path fsPath = None) by (rewrite Hf; exact F1).
      unfold result.
      rewrite (autoSyncLabel_absent env w1 fsPath H1 F1).
      rewrite (autoSyncLabel_absent env w2 fsPath H2 F2).
      cbn [fst]. rewrite He. reflexivity.
  - assert (H2 : head (workspaceFolders w2) = None) by (rewrite Hw; exact H1).
    unfold result.
    rewrite (autoSyncLabel_no_workspace env w1 H1), (autoSyncLabel_no_workspace env w2 H2).
    reflexivity.
Qed.

(** C7, as the code has it: with a workspace folder open, every rendering
    of the sync nodes consults the record file on disk, and its toggle label
    depends on nothing but the folders, the disk and the settings at that
    moment.  If the record is absent, or parses to a value other than
    [null] without a boolean [autoSyncOnSave], the label follows the editor
    setting ([false] when unset); with a boolean field it follows the
    field.  If the record cannot be read or parsed, or is [null], no value
    is determined and the label stays "Toggle AutoSync". *)
Theorem toggle_label_from_record (env : Env) (w : World) (fsPath : string) :
  head (workspaceFolders w) = Some fsPath ->
  (exists l, log (after (SyncTree.getActionNodes env) w)
             = (log w ++ FileExists (record_path fsPath) :: l)%list)
  /\ (forall w2, workspaceFolders w2 = workspaceFolders w -> files w2 = files w ->
                 settings w2 = settings w -> toggle_label env w2 = toggle_label env w)
  /\ (files w !! record_path fsPath = None ->
      toggle_label env w = Ok (label_of (setting_enabled w)))
  /\ (forall text v,
        files w !! record_path fsPath = Some (Some text) ->
        JSON_parse env text = Some v -> v <> JNull ->
        toggle_label env w
        = Ok (label_of (match flag_of v with
                        | Some b => b
                        | None => setting_enabled w
                        end)))
  /\ (forall text,
        files w !! record_path fsPath = Some (Some text) ->
        JSON_parse env text = None \/ JSON_parse env text = Some JNull ->
        toggle_label env w = Ok SyncTree.neutral_label)
  /\ (files w !! record_path fsPath = Some None ->
      toggle_label env w = Ok SyncTree.neutral_label).
Proof.
  intros Hws.
  destruct (toggle_label_eq env w) as [Hl Ha].
  split; [rewrite Ha; apply autoSyncLabel_consults_disk, Hws |].
  split.
  { intros w2 Hw Hf Hs. rewrite (proj1 (toggle_label_eq env w2)), Hl.
    apply autoSyncLabel_reads_only; assumption. }
  rewrite Hl. split.
  { intros Hf. unfold result. rewrite (autoSyncLabel_absent env w fsPath Hws Hf). reflexivity. }
  split; [intros text v; apply autoSyncLabel_parsed, Hws |].
  split; [intros text; apply autoSyncLabel_unparsable, Hws |].
  apply autoSyncLabel_unreadable, Hws.
Qed.

Lemma toggle_label_from_record_witness :
  head (workspaceFolders (workspace (Some "{}") true)) = Some "/ws"
  /\ toggle_label (linux (prints "[]")) (workspace (Some "{}") true)
     = Ok SyncTree.on_label.
Proof.
  split; [reflexivity |].
  destruct (toggle_label_from_record (linux (prints "[]")) (workspace (Some "{}") true)
              "/ws" eq_refl) as (_ & _ & _ & Hparsed & _).
  rewrite (Hparsed "{}" (JObj []) eq_refl eq_refl ltac:(discriminate)).
  reflexivity.
Defined.

Example record_flag_wins :
  toggle_label (linux (prints "[]"))
    (workspace (Some ("{" ++ Sample.quoted "autoSyncOnSave" ++ ": false}")) true)
  = Ok SyncTree.off_label.
Proof. vm_compute. reflexivity. Qed.

Example record_with_number_flag_falls_back :
  toggle_label (linux (prints "[]"))
    (workspace (Some ("{" ++ Sample.quoted "autoSyncOnSave" ++ ": 1}")) false)
  = Ok SyncTree.off_label.
Proof. vm_compute. reflexivity. Qed.

(** C7, as stated, fails: the record file exists and is empty, so it holds
    no boolean [autoSyncOnSave]; the editor setting is [true]; the label is
    neither of the two the setting could give but "Toggle AutoSync". *)
Lemma empty_record_gives_no_fallback :
  files (workspace (Some "") true) !! record_path "/ws" = Some (Some "")
  /\ JSON_parse (linux (prints "[]")) "" = None
  /\ setting_enabled (workspace (Some "") true) = true
  /\ toggle_label (linux (prints "[]")) (workspace (Some "") true)
     = Ok SyncTree.neutral_label
  /\ toggle_label (linux (prints "[]")) (workspace (Some "") true)
     <> Ok (label_of (setting_enabled (workspace (Some "") true))).
Proof.
  split; [reflexivity |]. split; [reflexivity |]. split; [reflexivity |].
  split; [vm_compute; reflexivity |].
  vm_compute. discriminate.
Qed.

(** ** No backlog in any session *)

Section Sessions.
Import SerialMonitor.
Variable env : Env.

Lemma tidy_emit e w : tidy w -> tidy (emit e w).
Proof. intros [H1 H2 H3 H4]. constructor; assumption. Qed.

Lemma tidy_off_the_wire w w' : off_the_wire w w' -> tidy w -> tidy w'.
Proof.
  intros [_ _ _ Em Et En _]. apply tidy_same_timers; assumption.
Qed.

Lemma tidy_set_out w o : tidy w -> tidy (set_monitor (set_out o (monitor w)) w).
Proof. intros [H1 H2 H3 H4]. constructor; assumption. Qed.

Lemma tidy_tick_conclude io w : tidy w -> tidy (after (tick_conclude env io) w).
Proof.
  intros Ht. destruct io as [buf err]. cbv [after tick_conclude bind get].
  set (text := js_trim env (if String.eqb buf "" then err else buf)).
  destruct (String.eqb text "").
  - cbv [ret]. destruct (running (monitor w) && negb (busy (monitor w)));
      [apply (tidy_schedule w Ht) | exact Ht].
  - cbv [update act].
    match goal with |- context [running (monitor ?w1)] => set (w1' := w1) end.
    assert (Ht1 : tidy w1') by apply tidy_set_out, Ht.
    destruct (running (monitor w1') && negb (busy (monitor w1')));
      [apply (tidy_schedule w1' Ht1) | exact Ht1].
Qed.

Lemma tidy_tick w : tidy w -> tidy (after (tick env) w).
Proof.
  intros Ht. cbv [after tick tick_prepare bind get config_get_or config_get].
  destruct (negb (running (monitor w)) || busy (monitor w)); [exact Ht |].
  fold connect_key. cbv [ret].
  destruct (js_or _ _) as [[| | | c | |] |]; try (apply tidy_emit, Ht).
  cbv [tick_poll bind].
  pose proof (quiet_getPythonPath env None (emit (ConfigRead None connect_key) w)) as Q.
  destruct (PythonInterpreterManager.getPythonPath env None _) as [[py | e] w2];
    cbn [snd] in Q; pose proof (tidy_off_the_wire _ _ Q (tidy_emit _ _ Ht)) as Ht2.
  - cbv [spawn_collect].
    assert (Ht3 : tidy (bump w2)) by (destruct Ht2 as [H1 H2 H3 H4]; constructor; assumption).
    destruct (spawn_io env _ _ _) as [io |];
      [apply tidy_tick_conclude, tidy_emit, Ht3 | apply tidy_emit, Ht3].
  - exact Ht2.
Qed.

Lemma tidy_fire h w : tidy w -> tidy (after (fire env h) w).
Proof.
  intros Ht. cbv [after fire bind get].
  destruct (bool_decide (h ∈ timeouts w)); [| exact Ht].
  rewrite clearTimeout_disarm. unfold try_catch.
  pose proof (tidy_tick (disarm [h] w) (tidy_disarm [h] w Ht)) as Ht'.
  unfold after in Ht'.
  destruct (tick env (disarm [h] w)) as [[[] | e] w']; exact Ht'.
Qed.

Lemma tidy_release wasRunning w : tidy w -> tidy (after (release wasRunning) w).
Proof.
  intros Ht. cbv [after release bind update act]. fold (unbusy w).
  destruct wasRunning; [apply (tidy_schedule _ (tidy_unbusy w Ht)) | apply tidy_unbusy, Ht].
Qed.

Lemma tidy_reconfigure c w : tidy w -> tidy (reconfigure c w).
Proof. intros [H1 H2 H3 H4]. constructor; assumption. Qed.

Lemma tidy_step e s : tidy (fst s) -> tidy (fst (step env e s)).
Proof.
  destruct s as [w inside]. cbn [fst]. intros Ht.
  destruct e as [| | h | op | op | c]; cbn [step fst].
  - apply tidy_start, Ht.
  - apply tidy_stop, Ht.
  - apply tidy_fire, Ht.
  - apply tidy_enter, Ht.
  - destruct (inside !! op); cbn [fst]; [apply tidy_release, Ht | exact Ht].
  - apply tidy_reconfigure, Ht.
Qed.

(** Whatever happens, and in whatever order, at most one poll is armed. *)
Lemma tidy_play es s : tidy (fst s) -> tidy (fst (play env es s)).
Proof.
  revert s. induction es as [| e es IH]; intros s Ht; [exact Ht |].
  cbn [play fold_left]. apply IH, tidy_step, Ht.
Qed.

Lemma session_never_queues es conf :
  (length (timeouts (fst (play env es (fresh conf, ∅)))) <= 1)%nat.
Proof. apply tidy_at_most_one, tidy_play, tidy_fresh. Qed.

(** The two events of a wrapped operation are [suspendDuring]. *)
Lemma enter_leave_is_suspendDuring {T} (fn : M T) w :
  after (suspendDuring fn) w
  = after (release (running (monitor w))) (at_completion fn w).
Proof.
  rewrite suspendDuring_after.
  cbv [after release bind update act]. fold (unbusy (at_completion fn w)).
  destruct (running (monitor w)); cbn [andb]; [| reflexivity].
  destruct (running (monitor (at_completion fn w))) eqn:Hr.
  - rewrite schedule_arms; [reflexivity | exact Hr | reflexivity].
  - rewrite schedule_idle; [reflexivity | left; exact Hr].
Qed.
End Sessions.

Example polls_during_an_operation_are_dropped :
  let s := play (linux (prints "[]"))
             [CallStart; Enter 1; Expire 0; Expire 0; Leave 1]
             (fresh (port "COM3"), ∅) in
  log (fst s) = [] /\ timeouts (fst s) = [1%nat] /\ busy (monitor (fst s)) = false.
Proof. vm_compute. repeat split. Qed.

(** What the flag does not cover.  The guard is read once, when a tick
    starts: a tick that is already waiting for the interpreter path when an
    operation raises the flag goes on to open the port. *)
Example tick_past_its_guard_still_opens_the_port :
  let env := linux (prints "[]") in
  let fired := after SerialMonitor.tick_prepare
                     (disarm [0%nat] (started (port "COM3"))) in
  let suspended := enter fired in
  busy (monitor suspended) = true
  /\ ports_opened (log (after (SerialMonitor.tick_poll env (miniterm_args "COM3")) suspended))
     = ["COM3"].
Proof. vm_compute. split; reflexivity. Qed.

(** And the flag is one boolean: when two wrapped operations overlap, the
    first to leave clears it for both. *)
Example first_exit_clears_the_flag :
  let s := play (linux (prints "[]")) [CallStart; Enter 1; Enter 2; Leave 1]
             (fresh (port "COM3"), ∅) in
  is_Some (snd s !! 2%nat) /\ busy (monitor (fst s)) = false /\ polling (fst s) = true.
Proof. vm_compute. repeat split. eexists. reflexivity. Qed.

(** The same in session form: the monitor is stopped by a command that
    arrives while a wrapped operation is in progress; when the operation
    leaves, nothing is armed. *)
Example stop_command_during_an_operation :
  let s := play (linux (prints "[]")) [CallStart; Enter 1; CallStop; Leave 1]
             (fresh (port "COM3"), ∅) in
  running (monitor (fst s)) = false /\ timeouts (fst s) = [] /\ polling (fst s) = false.
Proof. vm_compute. repeat split. Qed.

(** A monitor that is started while a wrapped operation is in progress is
    marked running, but [schedule] arms nothing while the flag is up and the
    exit does not call it, since the monitor was not running at the entry. *)
Example start_command_during_an_operation :
  let s := play (linux (prints "[]")) [Enter 1; CallStart; Leave 1; CallStart]
             (fresh (port "COM3"), ∅) in
  running (monitor (fst s)) = true /\ busy (monitor (fst s)) = false
  /\ timeouts (fst s) = [] /\ polling (fst s) = false.
Proof. vm_compute. repeat split. Qed.

(** * Further properties *)

(** ** Steps that stay within a relation *)

Section Respects.
Variable R : World -> World -> Prop.
Hypothesis R_refl : forall w, R w w.
Hypothesis R_trans : forall w1 w2 w3, R w1 w2 -> R w2 w3 -> R w1 w3.

Lemma respects_ret {A} (a : A) : respects R (ret a).
Proof. intros w. apply R_refl. Qed.

Lemma respects_throw {A} e : respects R (throw (A := A) e).
Proof. intros w. apply R_refl. Qed.

Lemma respects_get {A} (f : World -> A) : respects R (get f).
Proof. intros w. apply R_refl. Qed.

Lemma respects_lift {A} (r : exn + A) : respects R (lift r).
Proof. destruct r; [apply respects_throw | apply respects_ret]. Qed.

Lemma respects_bind {A B} (m : M A) (k : A -> M B) :
  respects R m -> (forall a, respects R (k a)) -> respects R (bind m k).
Proof.
  intros Hm Hk w. unfold bind. specialize (Hm w).
  destruct (m w) as [[a | e] w1]; cbn [snd] in *; [| exact Hm].
  eapply R_trans; [exact Hm | apply Hk].
Qed.

Lemma respects_try_catch {A} (m : M A) (h : exn -> M A) :
  respects R m -> (forall e, respects R (h e)) -> respects R (try_catch m h).
Proof.
  intros Hm Hh w. unfold try_catch. specialize (Hm w).
  destruct (m w) as [[a | e] w1]; cbn [snd] in *; [exact Hm |].
  eapply R_trans; [exact Hm | apply Hh].
Qed.

Section OfTheInterpreter.
Import PythonInterpreterManager.
Variable env : Env.
Hypothesis R_now : respects R (now env).
Hypothesis R_config : forall scope key, respects R (config_get scope key).
Hypothesis R_exec : forall file args timeout, respects R (execFileAsync env file args timeout).
Hypothesis R_console : forall text, respects R (console_log text).
Hypothesis R_cache : forall p, respects R (cacheResult env p).
Hypothesis R_warn : forall p, respects R (showMpremoteInstallationNotification env p).

Ltac respects_step :=
  match goal with
  | |- respects _ (bind _ _) => apply respects_bind; [| intros ?]
  | |- respects _ (try_catch _ _) => apply respects_try_catch; [| intros ?]
  | |- respects _ (ret _) => apply respects_ret
  | |- respects _ (throw _) => apply respects_throw
  | |- respects _ (get _) => apply respects_get
  | |- respects _ (lift _) => apply respects_lift
  | |- respects _ (now _) => apply R_now
  | |- respects _ (config_get _ _) => apply R_config
  | |- respects _ (execFileAsync _ _ _ _) => apply R_exec
  | |- respects _ (console_log _) => apply R_console
  | |- respects _ (cacheResult _ _) => apply R_cache
  | |- respects _ (showMpremoteInstallationNotification _ _) => apply R_warn
  end.

Lemma respects_validatePythonPath p : respects R (validatePythonPath env p).
Proof.
  unfold validatePythonPath. respects_step; [repeat respects_step |].
  match goal with |- context [if ?c then _ else _] => destruct c end; respects_step.
Qed.

Lemma respects_getPythonFromExtensionAPI wf :
  respects R (getPythonFromExtensionAPI env wf).
Proof.
  unfold getPythonFromExtensionAPI. respects_step; [| repeat respects_step].
  destruct (python_extension env) as [ext |]; [| respects_step].
  respects_step.
  { destruct (isActive ext); [respects_step |].
    destruct (activate ext); respects_step. }
  destruct (exports ext) as [api |]; [| respects_step].
  respects_step.
  { destruct (getExecutionDetails api) as [details |]; [| respects_step].
    respects_step; [respects_step |].
    match goal with a : option (list string) |- _ => destruct a as [[| ? ?] |] end;
      respects_step. }
  match goal with a : option string |- _ => destruct a end; [respects_step |].
  destruct (getActiveInterpreter api) as [active |]; [| respects_step].
  respects_step; [respects_step |].
  match goal with a : option string |- _ => destruct a as [q |] end;
    [destruct (String.eqb q "") |]; respects_step.
Qed.

Lemma respects_trimmed_setting v : respects R (trimmed_setting env v).
Proof.
  unfold trimmed_setting.
  destruct v as [[| | | s | |] |];
    try (destruct (truthy _); respects_step).
  destruct (_ && _); respects_step.
Qed.

Lemma respects_first_setting scope keys : respects R (first_setting env scope keys).
Proof.
  induction keys as [| key rest IH]; cbn [first_setting]; [respects_step |].
  respects_step; [respects_step |].
  respects_step; [apply respects_trimmed_setting |].
  match goal with a : option string |- _ => destruct a end;
    [respects_step | exact IH].
Qed.

Lemma respects_getPythonFromConfiguration wf :
  respects R (getPythonFromConfiguration env wf).
Proof.
  unfold getPythonFromConfiguration.
  respects_step; [respects_step |].
  respects_step; [apply respects_trimmed_setting |].
  match goal with a : option string |- _ => destruct a end;
    [respects_step | apply respects_first_setting].
Qed.

Lemma respects_validated p :
  respects R (do validation <- validatePythonPath env p;
              if valid validation then run cacheResult env p; ret (Some p)
              else if missingMpremote validation
                   then run showMpremoteInstallationNotification env p; ret None
                   else ret None).
Proof.
  respects_step; [apply respects_validatePythonPath |].
  match goal with v : Validation |- _ => destruct (valid v); [| destruct (missingMpremote v)] end;
    repeat respects_step.
Qed.

Lemma respects_try_candidate c : respects R (try_candidate env c).
Proof.
  unfold try_candidate. destruct c as [p |]; [| respects_step].
  destruct (String.eqb p ""); [respects_step |].
  apply (respects_validated p).
Qed.

Lemma respects_try_fallbacks l : respects R (try_fallbacks env l).
Proof.
  induction l as [| f rest IH]; cbn [try_fallbacks]; [respects_step |].
  respects_step.
  - respects_step; [apply (respects_validated f) | respects_step].
  - match goal with a : option string |- _ => destruct a end;
      [respects_step | exact IH].
Qed.

Lemma respects_method1 wf :
  respects R
    (try_catch
       (do pythonPath <- getPythonFromExtensionAPI env wf; try_candidate env pythonPath)
       (fun e =>
          run console_log ("Failed to get Python from extension API: " ++ exn_to_string e);
          ret None)).
Proof.
  respects_step; [| repeat respects_step].
  respects_step; [apply respects_getPythonFromExtensionAPI | apply respects_try_candidate].
Qed.

Lemma respects_method2 wf :
  respects R
    (try_catch
       (do pythonPath <- getPythonFromConfiguration env wf; try_candidate env pythonPath)
       (fun e =>
          run console_log ("Failed to get Python from configuration: " ++ exn_to_string e);
          ret None)).
Proof.
  respects_step; [| repeat respects_step].
  respects_step; [apply respects_getPythonFromConfiguration | apply respects_try_candidate].
Qed.

Lemma respects_getPythonPath wf : respects R (getPythonPath env wf).
Proof.
  unfold getPythonPath.
  do 2 (respects_step; [respects_step |]).
  match goal with a : option string |- _ => destruct a end; [respects_step |].
  respects_step; [apply respects_method1 |].
  match goal with a : option string |- _ => destruct a end; [respects_step |].
  respects_step; [apply respects_method2 |].
  match goal with a : option string |- _ => destruct a end; [respects_step |].
  respects_step; [apply respects_try_fallbacks |].
  match goal with a : option string |- _ => destruct a end; repeat respects_step.
Qed.

Lemma respects_checkMpremoteAvailability : respects R (checkMpremoteAvailability env).
Proof.
  unfold checkMpremoteAvailability.
  respects_step; [| repeat respects_step].
  respects_step; [apply respects_getPythonPath |].
  respects_step; [apply respects_validatePythonPath |].
  destruct (_ && _); repeat respects_step.
Qed.
End OfTheInterpreter.
End Respects.

(** ** The interpreter cache *)

Section Cache.
Import PythonInterpreterManager.
Variable env : Env.

Lemma later_refl w : later w w.
Proof. unfold later. lia. Qed.

Lemma later_trans w1 w2 w3 : later w1 w2 -> later w2 w3 -> later w1 w3.
Proof. unfold later. lia. Qed.

Lemma later_cacheResult p : respects later (cacheResult env p).
Proof. intros w. cbv [later cacheResult bind now act snd set_interp bump asked]. lia. Qed.

Lemma later_notification p : respects later (showMpremoteInstallationNotification env p).
Proof.
  intros w. cbv [showMpremoteInstallationNotification bind now get].
  destruct (_ <? _); cbv [later ret act snd set_interp emit bump asked]; lia.
Qed.

Lemma later_execFileAsync file args timeout :
  respects later (execFileAsync env file args timeout).
Proof.
  intros w. cbv [execFileAsync].
  destruct (ex_err _); cbv [later snd emit bump asked]; lia.
Qed.

Lemma later_getPythonFromExtensionAPI wf :
  respects later (getPythonFromExtensionAPI env wf).
Proof.
  apply respects_getPythonFromExtensionAPI;
    [exact later_refl | exact later_trans |].
  intros; intros w; cbv [later console_log act snd emit asked]; lia.
Qed.

Lemma later_getPythonFromConfiguration wf :
  respects later (getPythonFromConfiguration env wf).
Proof.
  apply respects_getPythonFromConfiguration;
    [exact later_refl | exact later_trans |].
  intros; intros w; cbv [later config_get snd emit asked]; lia.
Qed.

(** What one validation does. *)
Lemma validatePythonPath_spec p w :
  exists v w',
    validatePythonPath env p w = (Ok v, w')
    /\ valid v = passes env p (asked w)
    /\ (valid v = true -> missingMpremote v = false)
    /\ asked w' = (if interpreter_runs env p (asked w)
                   then S (S (asked w)) else S (asked w))
    /\ log w' = (log w ++ validation_calls env p (asked w))%list
    /\ interp w' = interp w.
Proof.
  cbv [validatePythonPath try_catch bind execFileAsync passes interpreter_runs
       mpremote_runs validation_calls version_args].
  destruct (ex_err (execFile env (asked w) p _ 5000)) as [e |].
  - match goal with |- context [if ?c then _ else _] => destruct c end;
      cbv [ret]; eexists _, _; (split; [reflexivity |]);
      cbn; repeat split; congruence.
  - cbn [asked emit bump].
    destruct (ex_err (execFile env (S (asked w)) "mpremote" _ 5000)) as [e |].
    + match goal with |- context [if ?c then _ else _] => destruct c end;
        cbv [ret]; eexists _, _; (split; [reflexivity |]);
        cbn; rewrite <- app_assoc; repeat split; congruence.
    + cbv [ret]. eexists _, _. split; [reflexivity |].
      cbn. rewrite <- app_assoc. repeat split.
Qed.

(** The body that the three methods share: it answers [p] only after [p]
    has passed, and then [p] is in the cache. *)
Lemma validated_chosen p w q w' :
  (do validation <- validatePythonPath env p;
   if valid validation then run cacheResult env p; ret (Some p)
   else if missingMpremote validation
        then run showMpremoteInstallationNotification env p; ret None
        else ret None) w = (Ok (Some q), w') ->
  q = p /\ cached_at env p w' /\ validated_between env w p w'.
Proof.
  destruct (validatePythonPath_spec p w) as (v & w1 & E & Hv & _ & Ha & _ & _).
  rewrite (bind_Ok _ _ _ _ _ E).
  destruct (valid v) eqn:Ev.
  - cbv [bind cacheResult now act ret]. intros [= <- <-].
    symmetry in Hv. pose proof Hv as Hp. unfold passes in Hp.
    apply andb_true_iff in Hp as [Hi _]. rewrite Hi in Ha.
    split; [reflexivity |]. split.
    + split; cbn; [reflexivity | rewrite Ha; reflexivity].
    + exists (asked w). split; [cbn; lia | exact Hv].
  - destruct (missingMpremote v).
    + destruct (notification_returns env p w1) as ([] & w2 & E2 & _).
      rewrite (bind_Ok _ _ _ _ _ E2). cbv [ret]. discriminate.
    + cbv [ret]. discriminate.
Qed.

Lemma chosen_from_later w0 w p w' :
  later w0 w -> validated_between env w p w' -> validated_between env w0 p w'.
Proof. unfold later. intros Hl (k & Hk & Hp). exists k. split; [lia | exact Hp]. Qed.

Lemma try_candidate_chosen c w p w' :
  try_candidate env c w = (Ok (Some p), w') ->
  cached_at env p w' /\ validated_between env w p w'.
Proof.
  unfold try_candidate. destruct c as [q |]; [| cbv [ret]; discriminate].
  destruct (String.eqb q ""); [cbv [ret]; discriminate |].
  intros E. apply validated_chosen in E as (-> & H). exact H.
Qed.

Lemma method_chosen (find : M (option string)) text w p w' :
  respects later find ->
  try_catch (do pythonPath <- find; try_candidate env pythonPath)
    (fun e => run console_log (text ++ exn_to_string e); ret None) w
  = (Ok (Some p), w') ->
  cached_at env p w' /\ validated_between env w p w'.
Proof.
  intros Hl. specialize (Hl w). cbv [try_catch bind].
  destruct (find w) as [[c | e] w1]; cbn [snd] in Hl.
  - destruct (try_candidate env c w1) as [[r | e] w2] eqn:E.
    + intros [= -> <-]. apply try_candidate_chosen in E as [Hc Hv].
      split; [exact Hc | exact (chosen_from_later _ _ _ _ Hl Hv)].
    + cbv [console_log act ret]. discriminate.
  - cbv [console_log act ret]. discriminate.
Qed.

Lemma later_validated p :
  respects later (do validation <- validatePythonPath env p;
                  if valid validation then run cacheResult env p; ret (Some p)
                  else if missingMpremote validation
                       then run showMpremoteInstallationNotification env p; ret None
                       else ret None).
Proof.
  apply respects_validated;
    [exact later_refl | exact later_trans | exact later_execFileAsync |
     exact later_cacheResult | exact later_notification].
Qed.

Lemma try_fallbacks_chosen l w p w' :
  try_fallbacks env l w = (Ok (Some p), w') ->
  cached_at env p w' /\ validated_between env w p w'.
Proof.
  revert w. induction l as [| f rest IH]; intros w; cbn [try_fallbacks];
    [cbv [ret]; discriminate |].
  unfold bind at 1. unfold try_catch.
  pose proof (later_validated f w) as Hl.
  match goal with |- context [bind (validatePythonPath env f) ?k w] =>
    destruct (bind (validatePythonPath env f) k w) as [[[q |] | e] w1] eqn:E
  end; cbn [snd] in Hl.
  - cbv [ret]. intros [= <- <-]. apply validated_chosen in E as (-> & H). exact H.
  - intros E2. apply IH in E2 as [Hc Hv].
    split; [exact Hc | exact (chosen_from_later _ _ _ _ Hl Hv)].
  - cbv [ret]. intros E2. apply IH in E2 as [Hc Hv].
    split; [exact Hc | exact (chosen_from_later _ _ _ _ Hl Hv)].
Qed.

Lemma later_try_fallbacks l : respects later (try_fallbacks env l).
Proof.
  apply respects_try_fallbacks;
    [exact later_refl | exact later_trans | exact later_execFileAsync |
     exact later_cacheResult | exact later_notification].
Qed.

Lemma later_method (find : M (option string)) text :
  respects later find ->
  respects later
    (try_catch (do pythonPath <- find; try_candidate env pythonPath)
       (fun e => run console_log (text ++ exn_to_string e); ret None)).
Proof.
  intros Hf. apply respects_try_catch; [exact later_trans | |].
  - apply respects_bind; [exact later_trans | exact Hf |].
    intros c. apply respects_try_candidate;
      [exact later_refl | exact later_trans | exact later_execFileAsync |
       exact later_cacheResult | exact later_notification].
  - intros e w. cbv [later bind console_log act ret snd emit asked]. lia.
Qed.

(** A lookup that the cache does not answer. *)
Lemma getPythonPath_miss wf w p w' :
  cache_hit (interp w) (Date_now env (asked w)) = None ->
  getPythonPath env wf w = (Ok p, w') ->
  cached_at env p w' /\ (p = "python3" \/ validated_between env w p w').
Proof.
  intros Hmiss. unfold getPythonPath.
  unfold bind at 1. unfold now. unfold bind at 1. cbv [get].
  cbn [interp bump]. rewrite Hmiss.
  assert (L0 : later w (bump w)) by (cbv [later bump asked]; lia).
  unfold bind at 1.
  pose proof (later_method (getPythonFromExtensionAPI env wf)
                "Failed to get Python from extension API: "
                (later_getPythonFromExtensionAPI wf) (bump w)) as L1.
  destruct (try_catch _ _ (bump w)) as [[[q |] | e] w1] eqn:E1; cbn [snd] in L1.
  - cbv [ret]. intros [= <- <-].
    apply method_chosen in E1 as [Hc Hv]; [| apply later_getPythonFromExtensionAPI].
    split; [exact Hc | right; exact (chosen_from_later _ _ _ _ L0 Hv)].
  - clear E1. unfold bind at 1.
    pose proof (later_method (getPythonFromConfiguration env wf)
                  "Failed to get Python from configuration: "
                  (later_getPythonFromConfiguration wf) w1) as L2.
    destruct (try_catch _ _ w1) as [[[q |] | e] w2] eqn:E2; cbn [snd] in L2.
    + cbv [ret]. intros [= <- <-].
      apply method_chosen in E2 as [Hc Hv]; [| apply later_getPythonFromConfiguration].
      split; [exact Hc |]. right.
      apply (chosen_from_later w w1); [| exact Hv].
      eapply later_trans; [exact L0 | exact L1].
    + clear E2. unfold bind at 1.
      pose proof (later_try_fallbacks (getFallbackPythonPaths env) w2) as L3.
      destruct (try_fallbacks env _ w2) as [[[q |] | e] w3] eqn:E3; cbn [snd] in L3.
      * cbv [ret]. intros [= <- <-].
        apply try_fallbacks_chosen in E3 as [Hc Hv].
        split; [exact Hc |]. right.
        apply (chosen_from_later w w2); [| exact Hv].
        eapply later_trans; [exact L0 |]. eapply later_trans; [exact L1 | exact L2].
      * cbv [bind cacheResult now act ret]. intros [= <- <-].
        split; [| left; reflexivity]. split; reflexivity.
      * discriminate.
    + discriminate.
  - discriminate.
Qed.

(** A lookup that the cache answers: one clock reading, nothing else. *)
Lemma getPythonPath_hit wf w p :
  cache_hit (interp w) (Date_now env (asked w)) = Some p ->
  getPythonPath env wf w = (Ok p, bump w).
Proof.
  intros Hhit. unfold getPythonPath.
  unfold bind at 1. unfold now. unfold bind at 1. cbv [get].
  cbn [interp bump]. rewrite Hhit. reflexivity.
Qed.

Lemma cache_hit_cached c t p : cache_hit c t = Some p -> cachedInterpreter c = Some p.
Proof.
  unfold cache_hit. destruct (cachedInterpreter c) as [q |]; [| discriminate].
  destruct (_ && _); [| discriminate]. intros [= <-]. reflexivity.
Qed.

Lemma cache_hit_fresh c t p :
  cachedInterpreter c = Some p -> p <> "" -> t - lastCacheTime c < CACHE_DURATION ->
  cache_hit c t = Some p.
Proof.
  intros Hc Hne Ht. unfold cache_hit. rewrite Hc.
  destruct (String.eqb_spec p ""); [contradiction |].
  destruct (Z.ltb_spec (t - lastCacheTime c) CACHE_DURATION); [reflexivity | lia].
Qed.

Lemma getPythonPath_cached wf w p w' :
  getPythonPath env wf w = (Ok p, w') -> cachedInterpreter (interp w') = Some p.
Proof.
  intros E.
  destruct (cache_hit (interp w) (Date_now env (asked w))) as [q |] eqn:Hc.
  - rewrite (getPythonPath_hit wf w q Hc) in E. injection E as <- <-.
    apply cache_hit_cached in Hc. exact Hc.
  - apply (getPythonPath_miss wf w p w' Hc) in E as [[Hcached _] _]. exact Hcached.
Qed.

Lemma notification_starts_nothing p w :
  subprocesses (log (snd (showMpremoteInstallationNotification env p w)))
  = subprocesses (log w).
Proof.
  cbv [showMpremoteInstallationNotification bind now get].
  destruct (_ <? _); cbn; [reflexivity |].
  unfold subprocesses. rewrite List.filter_app. cbn. apply app_nil_r.
Qed.

End Cache.

(** X1: whatever way [getPythonPath] finds its answer (the cache, the
    Python extension, a setting, a fallback or the last resort), the path it
    returns is the one the cache holds afterwards. *)
Theorem getPythonPath_caches_its_answer (env : Env) (workspaceFolder : option string)
    (w : World) :
  exists p w',
    PythonInterpreterManager.getPythonPath env workspaceFolder w = (Ok p, w')
    /\ cachedInterpreter (interp w') = Some p.
Proof.
  destruct (getPythonPath_answers env workspaceFolder w) as (p & w' & E & _).
  exists p, w'. split; [exact E |].
  exact (getPythonPath_cached env workspaceFolder w p w' E).
Qed.

(** X2: a lookup that follows another within the cache duration returns
    the same path at the cost of one clock reading: it reads no setting,
    starts no subprocess and shows nothing.  The cache is not keyed by
    workspace folder: the second lookup may be for a different one. *)
Theorem repeated_lookup_is_served_from_cache (env : Env)
    (workspaceFolder workspaceFolder' : option string) (w : World) (p : string) :
  result (PythonInterpreterManager.getPythonPath env workspaceFolder) w = Ok p ->
  p <> "" ->
  Date_now env (asked (after (PythonInterpreterManager.getPythonPath env workspaceFolder) w))
  - lastCacheTime (interp (after (PythonInterpreterManager.getPythonPath env workspaceFolder) w))
  < PythonInterpreterManager.CACHE_DURATION ->
  PythonInterpreterManager.getPythonPath env workspaceFolder'
    (after (PythonInterpreterManager.getPythonPath env workspaceFolder) w)
  = (Ok p, bump (after (PythonInterpreterManager.getPythonPath env workspaceFolder) w)).
Proof.
  unfold result, after.
  destruct (PythonInterpreterManager.getPythonPath env workspaceFolder w) as [r w1] eqn:E.
  cbn [fst snd]. intros -> Hne Hfresh.
  apply getPythonPath_hit, cache_hit_fresh; [| exact Hne | exact Hfresh].
  exact (getPythonPath_cached env workspaceFolder w p w1 E).
Qed.

Lemma repeated_lookup_is_served_from_cache_witness :
  PythonInterpreterManager.getPythonPath (linux (prints "[]")) (Some "/other")
    (after (PythonInterpreterManager.getPythonPath (linux (prints "[]")) None) (fresh ∅))
  = (Ok "python3",
     bump (after (PythonInterpreterManager.getPythonPath (linux (prints "[]")) None) (fresh ∅))).
Proof.
  apply (repeated_lookup_is_served_from_cache (linux (prints "[]")) None (Some "/other")
           (fresh ∅) "python3").
  - vm_compute. reflexivity.
  - discriminate.
  - vm_compute. reflexivity.
Defined.

(** X3: when the cache does not answer, the path returned has passed both
    checks of a validation made during this very call, or else it is the
    last resort [python3], which is returned without having passed; either
    way it is cached with the time of the call's last clock reading. *)
Theorem lookup_validates_or_falls_back (env : Env) (workspaceFolder : option string)
    (w : World) :
  PythonInterpreterManager.cache_hit (interp w) (Date_now env (asked w)) = None ->
  exists p w',
    PythonInterpreterManager.getPythonPath env workspaceFolder w = (Ok p, w')
    /\ cached_at env p w'
    /\ (p = "python3" \/ validated_between env w p w').
Proof.
  intros Hmiss.
  destruct (getPythonPath_answers env workspaceFolder w) as (p & w' & E & _).
  exists p, w'. split; [exact E |].
  exact (getPythonPath_miss env workspaceFolder w p w' Hmiss E).
Qed.

Lemma lookup_validates_or_falls_back_witness :
  exists p w',
    PythonInterpreterManager.getPythonPath (linux (prints "[]")) None (fresh ∅) = (Ok p, w')
    /\ cached_at (linux (prints "[]")) p w'
    /\ (p = "python3" \/ validated_between (linux (prints "[]")) (fresh ∅) p w').
Proof.
  apply (lookup_validates_or_falls_back (linux (prints "[]")) None (fresh ∅)).
  reflexivity.
Defined.

(** X4: after [clearCache] the next lookup does not trust the cache, however
    recent it was: its answer has been validated anew, or is the last
    resort.  Clearing the cache leaves the warning's cooldown running. *)
Theorem clearCache_forces_a_lookup (env : Env) (workspaceFolder : option string)
    (w : World) :
  exists p w',
    PythonInterpreterManager.getPythonPath env workspaceFolder
      (after PythonInterpreterManager.clearCache w) = (Ok p, w')
    /\ (p = "python3" \/ validated_between env w p w')
    /\ lastMpremoteNotification (interp (after PythonInterpreterManager.clearCache w))
       = lastMpremoteNotification (interp w).
Proof.
  destruct (getPythonPath_answers env workspaceFolder
              (after PythonInterpreterManager.clearCache w)) as (p & w' & E & _).
  exists p, w'. split; [exact E |]. split; [| reflexivity].
  apply getPythonPath_miss in E as [_ H]; [exact H | reflexivity].
Qed.

(** X5: [validatePythonPath] never rejects.  Its verdict is [valid] exactly
    when the interpreter and then [mpremote] both run; [valid] and
    [missingMpremote] never hold together; and [mpremote] is not even
    started when the interpreter itself fails. *)
Theorem validation_verdict (env : Env) (p : string) (w : World) :
  exists v w',
    PythonInterpreterManager.validatePythonPath env p w = (Ok v, w')
    /\ PythonInterpreterManager.valid v = passes env p (asked w)
    /\ (PythonInterpreterManager.valid v = true ->
        PythonInterpreterManager.missingMpremote v = false)
    /\ subprocesses (log w')
       = (subprocesses (log w) ++ validation_calls env p (asked w))%list
    /\ interp w' = interp w.
Proof.
  destruct (validatePythonPath_spec env p w) as (v & w' & E & Hv & Hm & _ & Hl & Hi).
  exists v, w'. repeat split; try assumption.
  rewrite Hl. unfold subprocesses. rewrite List.filter_app. f_equal.
  unfold validation_calls. destruct (interpreter_runs env p (asked w)); reflexivity.
Qed.

(** X6: [checkMpremoteAvailability] never rejects, and its answer is the
    verdict of a validation of the path that [getPythonPath] returns, made
    after the lookup: the path is checked again even when the lookup has
    just validated it or was served from the cache. *)
Theorem checkMpremoteAvailability_answer (env : Env) (w : World) :
  exists p w1 w',
    PythonInterpreterManager.getPythonPath env None w = (Ok p, w1)
    /\ PythonInterpreterManager.checkMpremoteAvailability env w
       = (Ok (passes env p (asked w1)), w')
    /\ subprocesses (log w')
       = (subprocesses (log w1) ++ validation_calls env p (asked w1))%list.
Proof.
  destruct (getPythonPath_answers env None w) as (p & w1 & E & _).
  destruct (validatePythonPath_spec env p w1) as (v & w2 & E2 & Hv & Hm & _ & Hl & _).
  assert (Hs : subprocesses (log w2)
               = (subprocesses (log w1) ++ validation_calls env p (asked w1))%list).
  { rewrite Hl. unfold subprocesses. rewrite List.filter_app. f_equal.
    unfold validation_calls. destruct (interpreter_runs env p (asked w1)); reflexivity. }
  assert (Hc : forall w', PythonInterpreterManager.checkMpremoteAvailability env w
                          = (Ok (PythonInterpreterManager.valid v), w') ->
                          subprocesses (log w') = subprocesses (log w2) ->
               exists p w1 w',
                 PythonInterpreterManager.getPythonPath env None w = (Ok p, w1)
                 /\ PythonInterpreterManager.checkMpremoteAvailability env w
                    = (Ok (passes env p (asked w1)), w')
                 /\ subprocesses (log w')
                    = (subprocesses (log w1) ++ validation_calls env p (asked w1))%list).
  { intros w' Ec Hw'. exists p, w1, w'. rewrite <- Hv, Hw'. repeat split; assumption. }
  unfold PythonInterpreterManager.checkMpremoteAvailability, try_catch in *.
  rewrite (bind_Ok _ _ _ _ _ E), (bind_Ok _ _ _ _ _ E2) in *.
  destruct (PythonInterpreterManager.valid v) eqn:Ev; cbn [negb andb] in *.
  - apply (Hc w2); reflexivity.
  - destruct (PythonInterpreterManager.missingMpremote v).
    + destruct (notification_returns env p w2) as ([] & w3 & E3 & _).
      pose proof (notification_starts_nothing env p w2) as Hn.
      rewrite E3 in Hn. cbn [snd] in Hn.
      rewrite (bind_Ok _ _ _ _ _ E3) in *. cbv [ret] in *.
      apply (Hc w3); [reflexivity | exact Hn].
    + apply (Hc w2); reflexivity.
Qed.

(** X7: [getPythonCommandForTerminal] returns the path of [getPythonPath]
    as it is.  The branch that would put it in quotes tests for a space
    after the paths with a space have already been returned, so a path is
    never quoted. *)
Theorem terminal_command_is_never_quoted (env : Env) (workspaceFolder : option string)
    (w : World) :
  PythonInterpreterManager.getPythonCommandForTerminal env workspaceFolder w
  = PythonInterpreterManager.getPythonPath env workspaceFolder w.
Proof.
  unfold PythonInterpreterManager.getPythonCommandForTerminal, bind.
  destruct (PythonInterpreterManager.getPythonPath env workspaceFolder w) as [[p | e] w'];
    [| reflexivity].
  destruct (includes " " p); reflexivity.
Qed.

(** ** The warning's cooldown *)

Section Cooldown.
Import PythonInterpreterManager.
Variable env : Env.

Lemma warnings_emit e w :
  warning_of e = None -> warnings (log (emit e w)) = warnings (log w).
Proof.
  intros He. cbn [log emit]. unfold warnings. rewrite omap_app.
  change (omap warning_of [e])
    with (match warning_of e with Some text => [text] | None => [] end).
  rewrite He. apply app_nil_r.
Qed.

Lemma cool_refl w : cool_step env w w.
Proof. split; [lia | intros _; split; reflexivity]. Qed.

Lemma cool_trans w1 w2 w3 :
  cool_step env w1 w2 -> cool_step env w2 w3 -> cool_step env w1 w3.
Proof.
  intros [L12 C12] [L23 C23]. split; [lia |]. intros Hc.
  destruct C12 as [Hl Hw]; [intros k Hk; apply Hc; lia |].
  destruct C23 as [Hl' Hw']; [intros k Hk; rewrite Hl; apply Hc; lia |].
  split; congruence.
Qed.

(** A step that asks questions but neither warns nor touches the time of
    the last warning. *)
Lemma cool_silent w w' :
  (asked w <= asked w')%nat ->
  lastMpremoteNotification (interp w') = lastMpremoteNotification (interp w) ->
  warnings (log w') = warnings (log w) ->
  cool_step env w w'.
Proof. intros Ha Hl Hw. split; [exact Ha | intros _; split; assumption]. Qed.

Lemma cool_now : respects (cool_step env) (now env).
Proof. intros w. apply cool_silent; cbn; [lia | reflexivity | reflexivity]. Qed.

Lemma cool_config_get scope key : respects (cool_step env) (config_get scope key).
Proof.
  intros w. apply cool_silent; cbn [snd config_get]; [cbn; lia | reflexivity |].
  apply warnings_emit. reflexivity.
Qed.

Lemma cool_console_log text : respects (cool_step env) (console_log text).
Proof.
  intros w. apply cool_silent; cbn [snd console_log act]; [cbn; lia | reflexivity |].
  apply warnings_emit. reflexivity.
Qed.

Lemma cool_execFileAsync file args timeout :
  respects (cool_step env) (execFileAsync env file args timeout).
Proof.
  intros w. unfold execFileAsync.
  destruct (ex_err _); cbn [snd]; apply cool_silent;
    try (cbn; lia); try reflexivity;
    rewrite warnings_emit; reflexivity.
Qed.

Lemma cool_cacheResult p : respects (cool_step env) (cacheResult env p).
Proof.
  intros w. cbv [cacheResult bind now act snd].
  apply cool_silent; cbn; [lia | reflexivity | reflexivity].
Qed.

(** The warning itself: within the cooldown it is not shown. *)
Lemma cool_notification p :
  respects (cool_step env) (showMpremoteInstallationNotification env p).
Proof.
  intros w. cbv [showMpremoteInstallationNotification bind now get].
  cbn [interp bump].
  destruct (Z.ltb_spec (Date_now env (asked w) - lastMpremoteNotification (interp w))
              NOTIFICATION_COOLDOWN) as [Hin | Hout].
  - cbv [ret snd]. apply cool_silent; cbn; [lia | reflexivity | reflexivity].
  - cbv [act snd]. split; [cbn; lia |].
    intros Hc. exfalso.
    specialize (Hc (asked w)). cbn [asked emit set_interp bump] in Hc.
    specialize (Hc ltac:(lia)). lia.
Qed.

Lemma cool_getPythonPath wf : respects (cool_step env) (getPythonPath env wf).
Proof.
  apply respects_getPythonPath;
    [exact cool_refl | exact cool_trans | exact cool_now | exact cool_config_get |
     exact cool_execFileAsync | exact cool_console_log | exact cool_cacheResult |
     exact cool_notification].
Qed.

Lemma cool_checkMpremoteAvailability :
  respects (cool_step env) (checkMpremoteAvailability env).
Proof.
  apply respects_checkMpremoteAvailability;
    [exact cool_refl | exact cool_trans | exact cool_now | exact cool_config_get |
     exact cool_execFileAsync | exact cool_console_log | exact cool_cacheResult |
     exact cool_notification].
Qed.

(** The settings that name an interpreter. *)
Lemma trimmed_setting_text v w :
  string_or_unset v -> trimmed_setting env v w = (Ok (setting_text env v), w).
Proof.
  destruct v as [[| | | s | |] |]; cbn [string_or_unset]; try contradiction; intros _.
  - cbn [trimmed_setting setting_text]. destruct (_ && _); reflexivity.
  - reflexivity.
Qed.
End Cooldown.

(** X8: for as long as every clock reading of a call stays within five
    minutes of the last warning about [mpremote], the call, be it a lookup
    or an availability check, does not show the warning again, however
    many candidates lack [mpremote], and the time of the last warning
    stands. *)
Theorem no_warning_within_the_cooldown (env : Env) (site : warning_site) (w : World) :
  cooling env w (asked (visit env site w)) ->
  warnings (log (visit env site w)) = warnings (log w)
  /\ lastMpremoteNotification (interp (visit env site w))
     = lastMpremoteNotification (interp w).
Proof.
  intros Hc. destruct site as [workspaceFolder |]; cbn [visit] in *.
  - destruct (cool_getPythonPath env workspaceFolder w) as [_ C].
    destruct (C Hc) as [L W]. split; assumption.
  - destruct (cool_checkMpremoteAvailability env w) as [_ C].
    destruct (C Hc) as [L W]. split; assumption.
Qed.

Lemma no_warning_within_the_cooldown_witness :
  warnings (log warned)
  = ["MicroPython WorkBench requires the 'mpremote' package to communicate with your MicroPython board."]
  /\ warnings (log (visit (at_time 1700000000000 (without_mpremote "/bin/sh: 1: mpremote: not found"))
                      (Lookup None) warned))
     = warnings (log warned)
  /\ warnings (log (visit (at_time 1700000000000 (without_mpremote "/bin/sh: 1: mpremote: not found"))
                      AvailabilityCheck warned))
     = warnings (log warned).
Proof.
  assert (Hlast : lastMpremoteNotification (interp warned) = 1700000003000)
    by (vm_compute; reflexivity).
  assert (Hfrom : asked warned = 23%nat) by (vm_compute; reflexivity).
  assert (Hlookup : asked (visit (at_time 1700000000000
                                    (without_mpremote "/bin/sh: 1: mpremote: not found"))
                             (Lookup None) warned) = 46%nat)
    by (vm_compute; reflexivity).
  assert (Hcheck : asked (visit (at_time 1700000000000
                                   (without_mpremote "/bin/sh: 1: mpremote: not found"))
                            AvailabilityCheck warned) = 49%nat)
    by (vm_compute; reflexivity).
  split; [vm_compute; reflexivity |]. split.
  - refine (proj1 (no_warning_within_the_cooldown
                     (at_time 1700000000000 (without_mpremote "/bin/sh: 1: mpremote: not found"))
                     (Lookup None) warned _)).
    unfold cooling. rewrite Hlast, Hfrom, Hlookup. intros k.
    cbn [at_time Date_now]. unfold PythonInterpreterManager.NOTIFICATION_COOLDOWN. lia.
  - refine (proj1 (no_warning_within_the_cooldown
                     (at_time 1700000000000 (without_mpremote "/bin/sh: 1: mpremote: not found"))
                     AvailabilityCheck warned _)).
    unfold cooling. rewrite Hlast, Hfrom, Hcheck. intros k.
    cbn [at_time Date_now]. unfold PythonInterpreterManager.NOTIFICATION_COOLDOWN. lia.
Defined.

Example warning_again_after_the_cooldown :
  length
    (warnings
       (log (after (PythonInterpreterManager.getPythonPath
                      (mkEnv Sample.parse Sample.trim Sample.join
                         (fun k => 1700000000000 + 100000 * Z.of_nat k)
                         (without_mpremote "/bin/sh: 1: mpremote: not found") no_child
                         "linux" None None (Some "/ext")) None)
               (fresh ∅))))
  = 7%nat.
Proof. vm_compute. reflexivity. Qed.

(** X9: with the three settings that name an interpreter declared as they
    are (strings, or unset), [getPythonFromConfiguration] returns the
    trimmed text of the first of them, in the order
    [microPythonWorkBench.pythonPath], [python.defaultInterpreterPath],
    [python.pythonPath], that is neither unset, empty nor blank, and
    nothing when there is none. *)
Theorem configuration_precedence (env : Env) (scope : option string) (w : World) :
  Forall (fun key => string_or_unset (settings w scope !! key)) interpreter_settings ->
  result (PythonInterpreterManager.getPythonFromConfiguration env scope) w
  = Ok (configured_interpreter env w scope).
Proof.
  intros H. unfold interpreter_settings in H.
  apply Forall_cons in H as [H1 H]. apply Forall_cons in H as [H2 H].
  apply Forall_cons in H as [H3 _].
  assert (Hspec : configured_interpreter env w scope
                  = match setting_text env (settings w scope !! "microPythonWorkBench.pythonPath") with
                    | Some p => Some p
                    | None =>
                        match setting_text env (settings w scope !! "python.defaultInterpreterPath") with
                        | Some p => Some p
                        | None => setting_text env (settings w scope !! "python.pythonPath")
                        end
                    end).
  { unfold configured_interpreter, interpreter_settings. cbn [omap list_omap].
    repeat (match goal with |- context [setting_text env ?v] =>
              destruct (setting_text env v); cbn [head] end); reflexivity. }
  rewrite Hspec.
  cbv [result PythonInterpreterManager.getPythonFromConfiguration
       PythonInterpreterManager.first_setting bind config_get].
  rewrite (trimmed_setting_text env _ _ H1).
  destruct (setting_text env (settings w scope !! "microPythonWorkBench.pythonPath"));
    [reflexivity |].
  cbn [settings emit append].
  rewrite (trimmed_setting_text env _ _ H2).
  destruct (setting_text env (settings w scope !! "python.defaultInterpreterPath"));
    [reflexivity |].
  cbn [settings emit].
  rewrite (trimmed_setting_text env _ _ H3).
  destruct (setting_text env (settings w scope !! "python.pythonPath")); reflexivity.
Qed.

Lemma configuration_precedence_witness :
  result (PythonInterpreterManager.getPythonFromConfiguration (linux (prints "[]")) None)
    (fresh (<["python.defaultInterpreterPath" := JStr " /usr/bin/python3.11 "]>
              {[ "microPythonWorkBench.pythonPath" := JStr "  ";
                 "python.pythonPath" := JStr "/usr/bin/python2" ]}))
  = Ok (Some "/usr/bin/python3.11").
Proof.
  refine (eq_trans (configuration_precedence (linux (prints "[]")) None _ _) _).
  - repeat constructor.
  - vm_compute. reflexivity.
Defined.

Example one_warning_for_seven_fallbacks :
  warnings
    (log (after (PythonInterpreterManager.getPythonPath
                   (at_time 1700000000000
                      (without_mpremote "/bin/sh: 1: mpremote: not found")) None)
            (fresh ∅)))
  = ["MicroPython WorkBench requires the 'mpremote' package to communicate with your MicroPython board."].
Proof. vm_compute. reflexivity. Qed.

Example a_missing_executable_is_not_reported :
  warnings
    (log (after (PythonInterpreterManager.getPythonPath
                   (at_time 1700000000000 (without_mpremote "spawn mpremote ENOENT")) None)
            (fresh ∅)))
  = []
  /\ result (PythonInterpreterManager.getPythonPath
               (at_time 1700000000000 (without_mpremote "spawn mpremote ENOENT")) None)
            (fresh ∅)
     = Ok "python3".
Proof. vm_compute. split; reflexivity. Qed.

(** ** The device behind the port setting *)

Lemma strip_prefix_app (p q s : string) :
  strip_prefix (p ++ q) s
  = match strip_prefix p s with
    | Some r => strip_prefix q r
    | None => None
    end.
Proof.
  revert s. induction p as [| a p IH]; intros s; [reflexivity |].
  destruct s as [| b s]; simpl; [reflexivity |].
  destruct (Ascii.eqb a b); [apply IH | reflexivity].
Qed.

Lemma strip_prefix_self (p d : string) : strip_prefix p (p ++ d) = Some d.
Proof.
  induction p as [| a p IH]; [reflexivity |].
  simpl. rewrite Ascii.eqb_refl. exact IH.
Qed.

Lemma strip_prefix_none (p s : string) :
  String.prefix p s = false -> strip_prefix p s = None.
Proof.
  revert s. induction p as [| a p IH]; intros s; [destruct s; discriminate |].
  destruct s as [| b s]; cbn [String.prefix strip_prefix]; [reflexivity |].
  destruct (Ascii.eqb_spec a b) as [-> | Hne].
  - destruct (ascii_dec b b) as [_ | N]; [apply IH | contradiction].
  - reflexivity.
Qed.

(** X10: the port setting may name the device as a [serial://] URL.  A
    value that does not begin with [serial:/] is the device as it stands;
    [serial://] in front of it is removed.  A single slash is removed
    together with the scheme, so [serial:/dev/ttyUSB0] names the relative
    path [dev/ttyUSB0]. *)
Theorem device_of_strips_the_scheme (d : string) :
  String.prefix "serial:/" d = false ->
  device_of d = d
  /\ device_of ("serial://" ++ d) = d
  /\ (String.prefix "/" d = false -> device_of ("serial:/" ++ d) = d).
Proof.
  intros Hd. pose proof (strip_prefix_none _ _ Hd) as Hn.
  assert (Hnn : strip_prefix "serial://" d = None).
  { pose proof (strip_prefix_app "serial:/" "/" d) as Ha.
    change ("serial:/" ++ "/") with "serial://" in Ha. rewrite Ha, Hn. reflexivity. }
  unfold device_of, replace_prefix. repeat split.
  - rewrite Hnn, Hn. reflexivity.
  - rewrite (strip_prefix_self "serial://" d), Hn. reflexivity.
  - intros Hslash.
    pose proof (strip_prefix_app "serial:/" "/" ("serial:/" ++ d)) as Ha.
    change ("serial:/" ++ "/") with "serial://" in Ha. rewrite Ha.
    rewrite (strip_prefix_self "serial:/" d).
    rewrite (strip_prefix_none _ _ Hslash).
    rewrite (strip_prefix_self "serial:/" d). reflexivity.
Qed.

Lemma device_of_strips_the_scheme_witness :
  device_of "COM3" = "COM3"
  /\ device_of "serial://COM3" = "COM3"
  /\ device_of "serial:/COM3" = "COM3".
Proof.
  destruct (device_of_strips_the_scheme "COM3" eq_refl) as (H1 & H2 & H3).
  split; [exact H1 | split; [exact H2 | exact (H3 eq_refl)]].
Defined.

Example device_of_a_posix_url : device_of "serial:///dev/ttyUSB0" = "/dev/ttyUSB0".
Proof. reflexivity. Qed.

Example device_of_a_single_slash_url : device_of "serial:/dev/ttyUSB0" = "dev/ttyUSB0".
Proof. reflexivity. Qed.

(** ** More on the listing *)

(** X11: when the listing script exits normally and prints a JSON array,
    [listDirPyRaw] resolves to the elements of that array as parsed, in
    order; the entries are not inspected. *)
Theorem listing_returns_the_parsed_array (env : Env) (dirPath : string) (w : World)
    (c root : string) :
  fixed_port w c ->
  extensionPath env = Some root ->
  exists py w1 r,
    PythonInterpreterManager.getPythonPath env None (emit (ConfigRead None connect_key) w)
    = (Ok py, w1)
    /\ r = execFile env (asked w1) py (listing_args env root c dirPath) 10000
    /\ (forall data,
          ex_err r = None -> ex_stdout r <> "" ->
          JSON_parse env (ex_stdout r) = Some (JArr data) ->
          result (listDirPyRaw env dirPath) w = Ok data).
Proof.
  intros Hc Hroot.
  destruct (listDirPyRaw_reaches env dirPath w c root Hc Hroot) as (py & w1 & E & R).
  exists py, w1, (execFile env (asked w1) py (listing_args env root c dirPath) 10000).
  split; [exact E |]. split; [reflexivity |].
  intros data Herr Hout Hparse. unfold result. rewrite R. unfold on_listing.
  rewrite Herr. apply String.eqb_neq in Hout. rewrite Hout, Hparse. reflexivity.
Qed.

Lemma listing_returns_the_parsed_array_witness :
  fixed_port (fresh (port "serial:///dev/ttyUSB0")) "serial:///dev/ttyUSB0"
  /\ result (listDirPyRaw (linux (prints "[true, 7]")) "/")
       (fresh (port "serial:///dev/ttyUSB0"))
     = Ok [JBool true; JNum 7].
Proof.
  assert (Hc : fixed_port (fresh (port "serial:///dev/ttyUSB0")) "serial:///dev/ttyUSB0").
  { split; [reflexivity | split; discriminate]. }
  split; [exact Hc |].
  destruct (listing_returns_the_parsed_array (linux (prints "[true, 7]")) "/"
              (fresh (port "serial:///dev/ttyUSB0")) "serial:///dev/ttyUSB0" "/ext"
              Hc eq_refl) as (py & w1 & r & _ & -> & H).
  apply H; [reflexivity | discriminate | vm_compute; reflexivity].
Defined.

(** X12: of two listings in a row, the second, when it starts within the
    cache duration of the first, runs one subprocess only, the listing
    script, under the interpreter the first one used: the interpreter is not
    validated again. *)
Theorem second_listing_skips_the_validation (env : Env) (dir1 dir2 : string) (w : World)
    (c root : string) :
  fixed_port w c ->
  extensionPath env = Some root ->
  (forall segments, path_join env segments <> "") ->
  Date_now env (asked (after (listDirPyRaw env dir1) w))
  - lastCacheTime (interp (after (listDirPyRaw env dir1) w))
  < PythonInterpreterManager.CACHE_DURATION ->
  exists py,
    last (log (after (listDirPyRaw env dir1) w))
    = Some (ExecFileCall py (listing_args env root c dir1) 10000)
    /\ log (after (listDirPyRaw env dir2) (after (listDirPyRaw env dir1) w))
       = (log (after (listDirPyRaw env dir1) w)
            ++ [ConfigRead None connect_key;
                ExecFileCall py (listing_args env root c dir2) 10000])%list.
Proof.
  intros Hc Hroot Hjoin.
  destruct (listDirPyRaw_log env dir1 w c root Hc Hroot) as (py & w1 & E & A).
  rewrite A. cbn [asked interp emit bump]. intros Hfresh.
  exists py. split; [cbn [log emit]; apply last_snoc |].
  set (wa := emit (ExecFileCall py (listing_args env root c dir1) 10000) (bump w1)).
  assert (Hs : settings wa = settings w).
  { pose proof (quiet_getPythonPath env None (emit (ConfigRead None connect_key) w)) as Q.
    rewrite E in Q. cbn [snd] in Q. destruct Q as [Qs _ _ _ _ _ _]. exact Qs. }
  assert (Hc' : fixed_port wa c).
  { destruct Hc as (H1 & H2 & H3). split; [rewrite Hs; exact H1 | split; assumption]. }
  destruct (listDirPyRaw_log env dir2 wa c root Hc' Hroot) as (py2 & w2 & E2 & A2).
  assert (Hhit : PythonInterpreterManager.getPythonPath env None
                   (emit (ConfigRead None connect_key) wa)
                 = (Ok py, bump (emit (ConfigRead None connect_key) wa))).
  { apply getPythonPath_hit, cache_hit_fresh.
    - exact (getPythonPath_cached env None _ py w1 E).
    - exact (returns_inv _ _ _ _ _ (getPythonPath_returns env None Hjoin) E).
    - exact Hfresh. }
  rewrite Hhit in E2. injection E2 as <- <-.
  rewrite A2. cbn [log emit bump]. rewrite <- app_assoc. reflexivity.
Qed.

Lemma second_listing_skips_the_validation_witness :
  exists py,
    last (log (after (listDirPyRaw (linux (prints "[]")) "/") (fresh (port "COM3"))))
    = Some (ExecFileCall py (listing_args (linux (prints "[]")) "/ext" "COM3" "/") 10000)
    /\ log (after (listDirPyRaw (linux (prints "[]")) "/lib")
              (after (listDirPyRaw (linux (prints "[]")) "/") (fresh (port "COM3"))))
       = (log (after (listDirPyRaw (linux (prints "[]")) "/") (fresh (port "COM3")))
            ++ [ConfigRead None connect_key;
                ExecFileCall py (listing_args (linux (prints "[]")) "/ext" "COM3" "/lib")
                  10000])%list.
Proof.
  apply (second_listing_skips_the_validation (linux (prints "[]")) "/" "/lib"
           (fresh (port "COM3")) "COM3" "/ext").
  - split; [reflexivity | split; discriminate].
  - reflexivity.
  - exact join_nonempty.
  - vm_compute. reflexivity.
Defined.

Example second_listing_command_line :
  subprocesses
    (log (after (listDirPyRaw (linux (prints "[]")) "/lib")
            (after (listDirPyRaw (linux (prints "[]")) "/") (fresh (port "COM3")))))
  = [ ExecFileCall "python3" ["-c"; "import sys; print(sys.version)"] 5000;
      ExecFileCall "mpremote" ["--version"] 5000;
      ExecFileCall "python3"
        ["/ext/scripts/thonny_list_files.py"; "--port"; "COM3";
         "--baudrate"; "115200"; "--path"; "/"] 10000;
      ExecFileCall "python3"
        ["/ext/scripts/thonny_list_files.py"; "--port"; "COM3";
         "--baudrate"; "115200"; "--path"; "/lib"] 10000 ].
Proof. vm_compute. reflexivity. Qed.

(** ** One poll *)

Section Polling.
Import SerialMonitor.
Variable env : Env.

Lemma tick_opens w c :
  running (monitor w) = true -> busy (monitor w) = false ->
  tick_connect w = Some (JStr c) ->
  exists py w2,
    PythonInterpreterManager.getPythonPath env None (emit (ConfigRead None connect_key) w)
    = (Ok py, w2)
    /\ tick env w
       = match spawn_io env (asked w2) py (miniterm_args c) with
         | Some io => tick_conclude env io
         | None => ret tt
         end (emit (SpawnCall py (miniterm_args c) windowMs) (bump w2)).
Proof.
  intros Hr Hb Hc.
  destruct (getPythonPath_answers env None (emit (ConfigRead None connect_key) w))
    as (py & w2 & E & _).
  exists py, w2. split; [exact E |].
  cbv [tick tick_prepare bind get ret config_get_or config_get].
  rewrite Hr, Hb. cbn [negb orb]. fold connect_key. fold (tick_connect w). rewrite Hc.
  cbv [tick_poll bind spawn_collect]. rewrite E. reflexivity.
Qed.

Lemma set_out_same w :
  set_monitor (set_out (out (monitor w)) (monitor w)) w = w.
Proof. destruct w as [? ? ? [] ? ? ? ? ?]. reflexivity. Qed.

Lemma tick_conclude_eq io w : tick_conclude env io w = (Ok tt, concluded env io w).
Proof.
  destruct io as [buf err].
  cbv [tick_conclude concluded appended poll_text fst snd].
  set (text := js_trim env (if String.eqb buf "" then err else buf)).
  destruct (String.eqb text "").
  - rewrite set_out_same. cbv [bind ret get].
    destruct (running (monitor w)) eqn:Hr; [destruct (busy (monitor w)) eqn:Hb |];
      cbn [andb negb]; try reflexivity.
    apply schedule_arms; assumption.
  - cbv [bind update act get].
    set (w1 := set_monitor _ w).
    change (running (monitor w1)) with (running (monitor w)).
    change (busy (monitor w1)) with (busy (monitor w)).
    destruct (running (monitor w)) eqn:Hr; [destruct (busy (monitor w)) eqn:Hb |];
      cbn [andb negb]; try reflexivity.
    apply schedule_arms; assumption.
Qed.

(** The port a tick opens, whatever the setting holds. *)
Lemma tick_opens_port w c :
  running (monitor w) = true -> busy (monitor w) = false ->
  tick_connect w = Some (JStr c) ->
  ports_opened (log (after (tick env) w)) = (ports_opened (log w) ++ [device_of c])%list.
Proof.
  intros Hr Hb Hc.
  destruct (tick_opens w c Hr Hb Hc) as (py & w2 & E & T).
  pose proof (quiet_getPythonPath env None (emit (ConfigRead None connect_key) w)) as Q.
  rewrite E in Q. cbn [snd] in Q. destruct Q as [_ _ _ _ _ _ (l & L & Hl)].
  unfold after. rewrite T.
  destruct (after_close_frame env (spawn_io env (asked w2) py (miniterm_args c))
              (emit (SpawnCall py (miniterm_args c) windowMs) (bump w2)))
    as (w' & E' & L' & _).
  rewrite E'. cbn [snd]. rewrite L'. cbn [log emit bump]. rewrite L. cbn [log emit].
  rewrite !ports_opened_app, (off_wire_ports l Hl). cbn. rewrite !app_nil_r. reflexivity.
Qed.

Lemma tick_connect_unfixed w :
  truthy (settings w None !! connect_key) = false
  \/ settings w None !! connect_key = Some (JStr "auto") ->
  tick_connect w = Some (JStr "auto") \/ tick_connect w = Some (JStr "").
Proof.
  unfold tick_connect. intros [Hf | ->]; [| left; reflexivity].
  destruct (settings w None !! connect_key) as [v |]; [| left; reflexivity].
  right. change (default (JStr "auto") (Some v)) with v. unfold js_or. rewrite Hf.
  reflexivity.
Qed.

Lemma tidy_single w h : tidy w -> h ∈ timeouts w -> timeouts (disarm [h] w) = [].
Proof.
  intros Ht Hh. pose proof (tidy_pending_cleared w Ht) as Hp.
  rewrite (armed_is_current w Ht h Hh) in Hp.
  cbn [disarm timeouts set_timeouts].
  transitivity (filter (fun h' => h' ≠ h) (timeouts w)); [| exact Hp].
  apply list_filter_iff. intros x. cbn beta.
  split; intros Hx Hin; apply Hx; [apply list_elem_of_singleton; exact Hin |].
  apply list_elem_of_singleton in Hin. exact Hin.
Qed.







(** The three stretches of a tick, run back to back, are the expiry of the
    coarse model. *)
Lemma stretches_make_a_tick h w inside ticks :
  ticks !! h = None ->
  world_of (unfold_session env [TickStarts h; TickSpawns h; TickEnds h] (w, inside, ticks))
  = after (fire env h) w.
Proof.
  intros Hfree. cbn [unfold_session fold_left]. cbv [after fire bind get].
  unfold advance at 3.
  destruct (bool_decide (h ∈ timeouts w)).
  - rewrite clearTimeout_disarm. unfold try_catch, tick, bind.
    destruct (tick_prepare (disarm [h] w)) as [[[args |] | e] w1].
    + unfold advance at 2. rewrite lookup_insert_eq.
      destruct (tick_poll env args w1) as [[[io |] | e] w2].
      * unfold advance. rewrite lookup_insert_eq. cbn [world_of fst].
        unfold after. rewrite tick_conclude_eq. reflexivity.
      * unfold advance. rewrite lookup_insert_eq. reflexivity.
      * unfold advance. rewrite lookup_delete_eq. reflexivity.
    + unfold advance at 2. rewrite Hfree. unfold advance. rewrite Hfree. reflexivity.
    + unfold advance at 2. rewrite Hfree. unfold advance. rewrite Hfree. reflexivity.
  - unfold advance at 2. rewrite Hfree. unfold advance. rewrite Hfree. reflexivity.
Qed.
End Polling.



Example poll_that_reads_output :
  let env := mkEnv Sample.parse Sample.trim Sample.join (fun k => 1000 * Z.of_nat k)
               (prints "3.12.1") (fun _ _ _ => Some ("", "  boot ok  "))
               "linux" None None (Some "/ext") in
  out (monitor (after (SerialMonitor.fire env 0) (started (port "COM3")))) = Some ["boot ok"]
  /\ timeouts (after (SerialMonitor.fire env 0) (started (port "COM3"))) = [1%nat].
Proof. vm_compute. split; reflexivity. Qed.

Example poll_with_an_interpreter_that_cannot_be_started :
  ports_opened (log (after (SerialMonitor.fire nothing_runs 0) (started (port "COM3"))))
  = ["COM3"]
  /\ timeouts (after (SerialMonitor.fire nothing_runs 0) (started (port "COM3"))) = []
  /\ running (monitor (after (SerialMonitor.fire nothing_runs 0) (started (port "COM3"))))
     = true.
Proof. vm_compute. repeat split. Qed.

(** X14: [tick] has no check for a fixed port.  In the states in which
    [listDirPyRaw] refuses to run (the setting unset, falsy or "auto"), a
    poll of a running monitor still starts its reader, on the device
    [auto] or on the empty device. *)
Theorem tick_polls_without_a_fixed_port (env : Env) (dirPath : string) (w : World) :
  running (monitor w) = true -> busy (monitor w) = false ->
  truthy (settings w None !! connect_key) = false
  \/ settings w None !! connect_key = Some (JStr "auto") ->
  result (listDirPyRaw env dirPath) w = Throw (Error "No fixed serial port selected")
  /\ exists d, (d = "auto" \/ d = "")
       /\ ports_opened (log (after (SerialMonitor.tick env) w))
          = (ports_opened (log w) ++ [d])%list.
Proof.
  intros Hr Hb Hu. split.
  - unfold result. rewrite (listDirPyRaw_unfixed env dirPath w Hu). reflexivity.
  - destruct (tick_connect_unfixed w Hu) as [Hc | Hc].
    + exists "auto". split; [left; reflexivity |].
      exact (tick_opens_port env w "auto" Hr Hb Hc).
    + exists "". split; [right; reflexivity |].
      exact (tick_opens_port env w "" Hr Hb Hc).
Qed.

Lemma tick_polls_without_a_fixed_port_witness :
  result (listDirPyRaw (linux (prints "[]")) "/") (started ∅)
  = Throw (Error "No fixed serial port selected")
  /\ exists d, (d = "auto" \/ d = "")
       /\ ports_opened (log (after (SerialMonitor.tick (linux (prints "[]"))) (started ∅)))
          = (ports_opened (log (started ∅)) ++ [d])%list.
Proof.
  apply (tick_polls_without_a_fixed_port (linux (prints "[]")) "/" (started ∅)).
  - reflexivity.
  - reflexivity.
  - left. reflexivity.
Defined.

Example poll_of_an_unset_port :
  subprocesses (log (after (SerialMonitor.fire (linux (prints "[]")) 0) (started ∅)))
  = [ ExecFileCall "python3" ["-c"; "import sys; print(sys.version)"] 5000;
      ExecFileCall "mpremote" ["--version"] 5000;
      SpawnCall "python3" ["-m"; "serial.tools.miniterm"; "auto"; "115200"; "--eol"; "LF"] 400 ].
Proof. vm_compute. reflexivity. Qed.

(** X15: a tick that throws ends the polling.  When the port setting holds
    a truthy value that is not a string, the tick fails before it starts
    anything, the failure is swallowed, and no timeout is armed: the monitor
    still reports that it runs, and [start] does nothing for it. *)
Theorem failed_tick_ends_the_polling (env : Env) (w : World) (h : nat) (v : json) :
  tidy w -> running (monitor w) = true -> busy (monitor w) = false ->
  h ∈ timeouts w ->
  settings w None !! connect_key = Some v -> truthy (Some v) = true ->
  (forall s, v <> JStr s) ->
  SerialMonitor.fire env h w
  = (Ok tt, emit (ConfigRead None connect_key) (disarm [h] w))
  /\ timeouts (after (SerialMonitor.fire env h) w) = []
  /\ result SerialMonitor.isRunning (after (SerialMonitor.fire env h) w) = Ok true
  /\ after SerialMonitor.start (after (SerialMonitor.fire env h) w)
     = after (SerialMonitor.fire env h) w.
Proof.
  intros Ht Hr Hb Hh Hc Hv Hs.
  assert (E : SerialMonitor.fire env h w
              = (Ok tt, emit (ConfigRead None connect_key) (disarm [h] w))).
  { cbv [SerialMonitor.fire bind get]. rewrite (bool_decide_eq_true_2 _ Hh).
    rewrite clearTimeout_disarm.
    cbv [try_catch SerialMonitor.tick SerialMonitor.tick_prepare bind get
         config_get_or config_get ret].
    cbn [monitor disarm set_timeouts settings]. rewrite Hr, Hb. cbn [negb orb].
    change (settings (disarm [h] w)) with (settings w).
    fold connect_key. rewrite Hc.
    change (default (JStr "auto") (Some v)) with v. unfold js_or. rewrite Hv.
    destruct v as [| b | n | s | items | props]; try reflexivity.
    exfalso. exact (Hs s eq_refl). }
  unfold after, result. rewrite E. cbn [snd].
  split; [reflexivity |]. split; [exact (tidy_single w h Ht Hh) |].
  split; [cbn; rewrite Hr; reflexivity |].
  rewrite start_when_running; [reflexivity | exact Hr].
Qed.

Lemma failed_tick_ends_the_polling_witness :
  timeouts (after (SerialMonitor.fire (linux (prints "[]")) 0)
              (started {[ connect_key := JNum 3 ]})) = []
  /\ result SerialMonitor.isRunning
       (after (SerialMonitor.fire (linux (prints "[]")) 0)
          (started {[ connect_key := JNum 3 ]})) = Ok true.
Proof.
  destruct (failed_tick_ends_the_polling (linux (prints "[]"))
              (started {[ connect_key := JNum 3 ]}) 0%nat (JNum 3)) as (_ & H1 & H2 & _).
  - apply tidy_started.
  - reflexivity.
  - reflexivity.
  - vm_compute. apply list_elem_of_here.
  - reflexivity.
  - reflexivity.
  - discriminate.
  - split; assumption.
Defined.

(** X16: stopping a monitor and starting it again leaves it running with
    exactly one timeout armed, a fresh one, and with the output channel it
    had before: the channel is created once and kept. *)
Theorem restart_arms_one_poll (w : World) :
  tidy w -> busy (monitor w) = false ->
  running (monitor (after SerialMonitor.start (after SerialMonitor.stop w))) = true
  /\ timeouts (after SerialMonitor.start (after SerialMonitor.stop w)) = [next_handle w]
  /\ polling (after SerialMonitor.start (after SerialMonitor.stop w)) = true
  /\ out (monitor (after SerialMonitor.start (after SerialMonitor.stop w)))
     = Some (default [] (out (monitor w))).
Proof.
  intros Ht Hb.
  pose proof (tidy_pending_cleared w Ht) as Hp.
  unfold after at 2 4 6 8. rewrite stop_eq. cbn [snd]. rewrite Hp.
  cbv [after SerialMonitor.start bind get SerialMonitor.update act].
  cbn [monitor running set_monitor set_timeouts SerialMonitor.set_out
       SerialMonitor.set_running out busy timer].
  rewrite schedule_arms; [| reflexivity | exact Hb].
  cbn [snd rearmed monitor timer set_monitor set_timeouts timeouts next_handle
       SerialMonitor.set_timer running out polling app].
  repeat split.
  apply bool_decide_eq_true_2, list_elem_of_here.
Qed.

Lemma restart_arms_one_poll_witness :
  timeouts (after SerialMonitor.start (after SerialMonitor.stop (started (port "COM3"))))
  = [next_handle (started (port "COM3"))].
Proof.
  exact (proj1 (proj2 (restart_arms_one_poll (started (port "COM3"))
                         (tidy_started _) eq_refl))).
Defined.

(** X18: the suspension does not nest.  When an operation that runs under
    [suspendDuring] itself runs another one under it, the end of the inner
    operation lowers the busy flag and, if the monitor is running, arms a
    poll, although the outer operation still holds the link. *)
Theorem inner_operation_ends_the_suspension {T} (inner : M T) (w : World) :
  tidy (at_completion inner (enter w)) ->
  running (monitor w) = true ->
  running (monitor (at_completion inner (enter w))) = true ->
  busy (monitor (enter w)) = true
  /\ busy (monitor (after (SerialMonitor.suspendDuring inner) (enter w))) = false
  /\ polling (after (SerialMonitor.suspendDuring inner) (enter w)) = true.
Proof.
  intros Ht Hr Hr'. split; [reflexivity |].
  split; [apply (flags_after_suspension inner (enter w)) |].
  rewrite (polling_after_suspension inner (enter w) Ht); [exact Hr' | exact Hr].
Qed.

Lemma inner_operation_ends_the_suspension_witness :
  busy (monitor (enter (started (port "COM3")))) = true
  /\ busy (monitor (after (SerialMonitor.suspendDuring (listDirPyRaw (linux (prints "[]")) "/"))
                      (enter (started (port "COM3"))))) = false
  /\ polling (after (SerialMonitor.suspendDuring (listDirPyRaw (linux (prints "[]")) "/"))
                (enter (started (port "COM3")))) = true.
Proof.
  apply (inner_operation_ends_the_suspension (listDirPyRaw (linux (prints "[]")) "/")
           (started (port "COM3"))).
  - apply tidy_intro.
    + vm_compute. repeat constructor.
    + right. vm_compute. reflexivity.
    + vm_compute. apply NoDup_singleton.
    + vm_compute. lia.
  - reflexivity.
  - vm_compute. reflexivity.
Defined.


Example tick_in_flight_across_a_restart :
  let s := unfold_session (linux (prints "[]"))
             [Host CallStart; TickStarts 0; Host CallStop; Host CallStart;
              TickSpawns 0; TickStarts 1; TickSpawns 1; TickEnds 0; TickEnds 1]
             (fresh (port "COM3"), ∅, ∅) in
  timeouts (world_of s) = [3%nat] /\ timer (monitor (world_of s)) = Some 3%nat.
Proof. vm_compute. split; reflexivity. Qed.

(** ** The tree views *)

Section Views.
Variable env : Env.

Lemma label_of_cases b :
  label_of b = SyncTree.on_label \/ label_of b = SyncTree.off_label.
Proof. destruct b; [left | right]; reflexivity. Qed.

(** The toggle shows one of three texts, whatever the workspace holds. *)
Lemma autoSyncLabel_one_of_three w :
  exists lbl,
    result (SyncTree.autoSyncLabel env) w = Ok lbl
    /\ (lbl = SyncTree.neutral_label \/ lbl = SyncTree.on_label \/ lbl = SyncTree.off_label).
Proof.
  destruct (head (workspaceFolders w)) as [fsPath |] eqn:Hws.
  - destruct (files w !! record_path fsPath) as [[text |] |] eqn:Hf.
    + destruct (JSON_parse env text) as [v |] eqn:Hp.
      * assert (Hd : v = JNull \/ v <> JNull) by (destruct v; (left; reflexivity) || (right; discriminate)).
        destruct Hd as [-> | Hv].
        -- exists SyncTree.neutral_label. split; [| left; reflexivity].
           apply (autoSyncLabel_unparsable env w fsPath text Hws Hf). right. exact Hp.
        -- eexists. split; [apply (autoSyncLabel_parsed env w fsPath text v Hws Hf Hp Hv) |].
           right. apply label_of_cases.
      * exists SyncTree.neutral_label. split; [| left; reflexivity].
        apply (autoSyncLabel_unparsable env w fsPath text Hws Hf). left. exact Hp.
    + exists SyncTree.neutral_label. split; [| left; reflexivity].
      apply (autoSyncLabel_unreadable env w fsPath Hws Hf).
    + eexists. split.
      * unfold result. rewrite (autoSyncLabel_absent env w fsPath Hws Hf). reflexivity.
      * right. apply label_of_cases.
  - exists SyncTree.neutral_label. split; [| left; reflexivity].
    unfold result. rewrite (autoSyncLabel_no_workspace env w Hws). reflexivity.
Qed.
End Views.

(** X20: the sync view always lists its seven nodes, in a fixed order,
    whatever the workspace and its record file are like; the first is the
    toggle, labelled with one of three texts.  An item has an icon exactly
    when its id is one of the seven, so every listed node has one.  A click
    on the toggle runs the toggle command itself; a click on any other item
    goes through the wrapper with the node's command as its only
    argument. *)
Theorem sync_view_items (env : Env) (w : World) :
  (exists nodes w' lbl,
     SyncTree.getChildren env w = (Ok nodes, w')
     /\ map SyncTree.id nodes = sync_ids
     /\ head (map SyncTree.label nodes) = Some lbl
     /\ (lbl = SyncTree.neutral_label \/ lbl = SyncTree.on_label
         \/ lbl = SyncTree.off_label)
     /\ Forall (fun n => iconPath (SyncTree.getTreeItem n) <> None) nodes)
  /\ (forall element,
        iconPath (SyncTree.getTreeItem element) <> None
        <-> In (SyncTree.id element) sync_ids)
  /\ (forall element,
        item_label (SyncTree.getTreeItem element) = SyncTree.label element
        /\ item_command (SyncTree.getTreeItem element)
           = Some (if String.eqb (SyncTree.id element) "toggleAutoSync"
                   then mkCommand "microPythonWorkBench.toggleWorkspaceAutoSync"
                          (SyncTree.label element) None
                   else via_wrapper (SyncTree.label element) (SyncTree.command element) [])).
Proof.
  split; [| split].
  - destruct (autoSyncLabel_one_of_three env w) as (lbl & E & Hl).
    unfold SyncTree.getChildren, SyncTree.getActionNodes, bind.
    unfold result in E.
    destruct (SyncTree.autoSyncLabel env w) as [[lbl' | e] w1]; cbn [fst] in E;
      [| discriminate].
    injection E as ->.
    eexists _, w1, lbl. split; [reflexivity |].
    split; [reflexivity |]. split; [reflexivity |]. split; [exact Hl |].
    repeat constructor; discriminate.
  - intros [i l c]. unfold sync_ids.
    unfold SyncTree.getTreeItem, SyncTree.getTreeItemForAction, SyncTree.icon_if.
    cbn [SyncTree.id In].
    split.
    + destruct (String.eqb_spec i "toggleAutoSync") as [-> | _]; [tauto |].
      cbn [iconPath].
      destruct (String.eqb_spec i "deleteAllBoard") as [-> | _]; [tauto |].
      destruct (String.eqb_spec i "syncDiffsBoardToLocal") as [-> | _]; [tauto |].
      destruct (String.eqb_spec i "syncDiffsLocalToBoard") as [-> | _]; [tauto |].
      destruct (String.eqb_spec i "checkDiffs") as [-> | _]; [tauto |].
      destruct (String.eqb_spec i "baselineFromBoard") as [-> | _]; [tauto |].
      destruct (String.eqb_spec i "baseline") as [-> | _]; [tauto |].
      intros H. contradiction.
    + intros H.
      repeat (destruct H as [<- | H]; [cbn; discriminate |]). destruct H.
  - intros [i l c].
    unfold SyncTree.getTreeItem, SyncTree.getTreeItemForAction.
    cbn [SyncTree.id SyncTree.label SyncTree.command].
    destruct (String.eqb i "toggleAutoSync"); split; reflexivity.
Qed.

(** X21: every item of the actions view is marked as an action and its
    click goes through the wrapper, which is handed the node's command
    followed by the node's arguments, if it has any.  An item has an icon
    exactly when its id is one of ten; the five nodes the view lists are
    among them and carry no arguments. *)
Theorem actions_view_items (w : World) :
  (exists nodes,
     ActionsTree.getChildren w = (Ok nodes, w)
     /\ map ActionsTree.id nodes
        = ["runActive"; "openRepl"; "stop"; "softReset"; "sendCtrlC"]
     /\ Forall (fun n => iconPath (ActionsTree.getTreeItem n) <> None
                         /\ ActionsTree.args n = None) nodes)
  /\ (forall element,
        iconPath (ActionsTree.getTreeItem element) <> None
        <-> In (ActionsTree.id element) action_icon_ids)
  /\ (forall element,
        contextValue (ActionsTree.getTreeItem element) = Some "action"
        /\ item_label (ActionsTree.getTreeItem element) = ActionsTree.label element
        /\ item_command (ActionsTree.getTreeItem element)
           = Some (via_wrapper (ActionsTree.label element) (ActionsTree.command element)
                     (default [] (ActionsTree.args element)))).
Proof.
  split; [| split].
  - eexists. split; [reflexivity |]. split; [reflexivity |].
    repeat constructor; discriminate.
  - intros [i l c a]. unfold action_icon_ids.
    unfold ActionsTree.getTreeItem, ActionsTree.getTreeItemForAction.
    cbn [ActionsTree.id iconPath In].
    split.
    + destruct (String.eqb_spec i "runActive") as [-> | _]; [tauto |].
      destruct (String.eqb_spec i "openRepl") as [-> | _]; [tauto |].
      destruct (String.eqb_spec i "stop") as [-> | _]; [tauto |].
      destruct (String.eqb_spec i "softReset") as [-> | _]; [tauto |].
      destruct (String.eqb_spec i "sendCtrlC") as [-> | _]; [tauto |].
      destruct (String.eqb_spec i "killUsers") as [-> | _]; [tauto |].
      destruct (String.eqb_spec i "cancelOps") as [-> | _]; [tauto |].
      destruct (String.eqb_spec i "deleteAll") as [-> | _]; [tauto |].
      destruct (String.eqb_spec i "syncAll") as [-> | _]; [tauto |].
      destruct (String.eqb_spec i "syncCurrent") as [-> | _]; [tauto |].
      intros H. contradiction.
    + intros H.
      repeat (destruct H as [<- | H]; [cbn; discriminate |]). destruct H.
  - intros [i l c a]. repeat split.
Qed.

(** ** The order of the lookup, and what a listing leaves alone *)

Section Order.
Import PythonInterpreterManager.
Variable env : Env.

Lemma extension_answer wf p w :
  extension_offers env wf p ->
  getPythonFromExtensionAPI env wf w = (Ok (Some p), w).
Proof.
  intros (ext & api & details & rest & He & Ha & Hx & Hd & Hp).
  unfold getPythonFromExtensionAPI, try_catch. rewrite He.
  assert (Hact : (if isActive ext then ret tt
                  else match activate ext with
                       | Some e => throw e
                       | None => ret tt
                       end) w = (Ok tt, w)).
  { destruct Ha as [-> | Hn]; [reflexivity |].
    destruct (isActive ext); [reflexivity | rewrite Hn; reflexivity]. }
  rewrite (bind_Ok _ _ _ _ _ Hact). rewrite Hx, Hd.
  cbv [bind lift]. rewrite Hp. reflexivity.
Qed.

Lemma bystander_refl w : bystander w w.
Proof. constructor; reflexivity. Qed.

Lemma bystander_trans w1 w2 w3 : bystander w1 w2 -> bystander w2 w3 -> bystander w1 w3.
Proof. intros [] []. constructor; congruence. Qed.

Lemma bystander_off w w' : off_the_wire w w' -> bystander w w'.
Proof. intros [Hs Hf _ Hm Ht Hn _]. constructor; assumption. Qed.

Lemma bystander_listing dirPath : respects bystander (listDirPyRaw env dirPath).
Proof.
  unfold listDirPyRaw.
  apply respects_bind; [exact bystander_trans | |].
  { intros w. cbv [config_get_or config_get bind ret snd]. constructor; reflexivity. }
  intros configured.
  destruct (negb _ || _); [apply respects_throw, bystander_refl |].
  apply respects_bind; [exact bystander_trans | |].
  { destruct (js_or _ _) as [[| | | c | |] |];
      first [apply respects_ret | apply respects_throw]; exact bystander_refl. }
  intros device.
  apply respects_bind; [exact bystander_trans | |].
  { destruct (extensionPath env);
      first [apply respects_ret | apply respects_throw]; exact bystander_refl. }
  intros root.
  apply respects_bind; [exact bystander_trans | |].
  { intros w. apply bystander_off, quiet_getPythonPath. }
  intros pythonPath.
  apply respects_bind; [exact bystander_trans | |].
  { intros w. cbv [execFile_callback snd]. constructor; reflexivity. }
  intros r w. rewrite on_listing_keeps_world. apply bystander_refl.
Qed.
End Order.

(** X22: the interpreter that the Python extension names comes first.
    When the cache does not answer and the extension's interpreter passes
    validation, [getPythonPath] returns it having read no setting at all:
    the two validation subprocesses are all that the call does.  The
    [microPythonWorkBench.pythonPath] setting is consulted only when the
    extension offers nothing that passes. *)
Theorem extension_interpreter_comes_first (env : Env) (workspaceFolder : option string)
    (w : World) (p : string) :
  PythonInterpreterManager.cache_hit (interp w) (Date_now env (asked w)) = None ->
  extension_offers env workspaceFolder p ->
  p <> "" ->
  passes env p (S (asked w)) = true ->
  exists w',
    PythonInterpreterManager.getPythonPath env workspaceFolder w = (Ok p, w')
    /\ log w' = (log w ++ validation_calls env p (S (asked w)))%list.
Proof.
  intros Hmiss Hext Hne Hpass.
  destruct (validatePythonPath_spec env p (bump w)) as (v & w1 & E & Hv & _ & _ & Hl & _).
  cbn [asked bump log] in Hv, Hl. rewrite Hpass in Hv.
  unfold PythonInterpreterManager.getPythonPath.
  unfold bind at 1. unfold now. unfold bind at 1. cbv [get].
  cbn [interp bump]. rewrite Hmiss.
  unfold bind at 1. unfold try_catch.
  rewrite (bind_Ok _ _ _ _ _ (extension_answer env workspaceFolder p (bump w) Hext)).
  unfold PythonInterpreterManager.try_candidate.
  apply String.eqb_neq in Hne. rewrite Hne.
  rewrite (bind_Ok _ _ _ _ _ E), Hv.
  cbv [bind PythonInterpreterManager.cacheResult now act ret].
  eexists. split; [reflexivity |]. cbn [log set_interp bump]. exact Hl.
Qed.

Lemma extension_interpreter_comes_first_witness :
  exists w',
    PythonInterpreterManager.getPythonPath with_extension None
      (fresh {[ "microPythonWorkBench.pythonPath" := JStr "/usr/bin/python3" ]})
    = (Ok "/venv/bin/python", w')
    /\ log w'
       = (log (fresh {[ "microPythonWorkBench.pythonPath" := JStr "/usr/bin/python3" ]})
            ++ validation_calls with_extension "/venv/bin/python"
                 (S (asked (fresh {[ "microPythonWorkBench.pythonPath"
                                       := JStr "/usr/bin/python3" ]}))))%list.
Proof.
  apply (extension_interpreter_comes_first with_extension None
           (fresh {[ "microPythonWorkBench.pythonPath" := JStr "/usr/bin/python3" ]})
           "/venv/bin/python").
  - reflexivity.
  - eexists _, _, _, _. split; [reflexivity |].
    split; [right; reflexivity |]. repeat split.
  - discriminate.
  - reflexivity.
Defined.

(** X23: [listDirPyRaw] never touches the monitor: whatever its outcome,
    the monitor's fields (the busy flag among them), the armed timeouts,
    the settings and the disk are as they were.  It does not suspend the
    polling by itself; that is left to the caller. *)
Theorem listing_leaves_the_monitor_alone (env : Env) (dirPath : string) (w : World) :
  monitor (after (listDirPyRaw env dirPath) w) = monitor w
  /\ timeouts (after (listDirPyRaw env dirPath) w) = timeouts w
  /\ next_handle (after (listDirPyRaw env dirPath) w) = next_handle w
  /\ settings (after (listDirPyRaw env dirPath) w) = settings w
  /\ files (after (listDirPyRaw env dirPath) w) = files w.
Proof.
  destruct (bystander_listing env dirPath w) as [H1 H2 H3 H4 H5].
  repeat split; assumption.
Qed.

Lemma start_while_busy w :
  running (monitor w) = false -> busy (monitor w) = true ->
  SerialMonitor.start w
  = (Ok tt, set_monitor (mkMonitor (timer (monitor w)) true true
                           (Some (default [] (out (monitor w))))) w).
Proof.
  intros Hr Hb.
  cbv [SerialMonitor.start bind get SerialMonitor.update act]. rewrite Hr.
  rewrite schedule_idle; [| right; exact Hb].
  cbv [set_monitor SerialMonitor.set_running SerialMonitor.set_out].
  cbn [monitor running timer busy out settings files workspaceFolders interp timeouts
       next_handle asked log].
  rewrite Hb. reflexivity.
Qed.

(** X17: when [start] is called in the course of an operation that runs
    under [suspendDuring] and that found the monitor stopped, the monitor
    is marked as running but no timeout is armed when the operation ends:
    [schedule] does nothing while the flag is up, and the [finally] block
    arms nothing for a monitor that was stopped at the entry.  Until
    something else arms a poll no timeout can expire, and calling [start]
    again changes nothing.  The end of the next operation under
    [suspendDuring] does arm one, if the monitor is still running then. *)
Theorem start_during_an_operation_arms_nothing (env : Env) {T U}
    (pre : M unit) (post : M T) (next : M U) (w : World) :
  respects bystander pre -> respects bystander post ->
  result pre (enter w) = Ok tt ->
  tidy w -> running (monitor w) = false ->
  running (monitor (after (SerialMonitor.suspendDuring (starting_within pre post)) w)) = true
  /\ busy (monitor (after (SerialMonitor.suspendDuring (starting_within pre post)) w)) = false
  /\ timeouts (after (SerialMonitor.suspendDuring (starting_within pre post)) w) = []
  /\ SerialMonitor.start (after (SerialMonitor.suspendDuring (starting_within pre post)) w)
     = (Ok tt, after (SerialMonitor.suspendDuring (starting_within pre post)) w)
  /\ (forall h,
        SerialMonitor.fire env h
          (after (SerialMonitor.suspendDuring (starting_within pre post)) w)
        = (Ok tt, after (SerialMonitor.suspendDuring (starting_within pre post)) w))
  /\ (tidy (at_completion next
              (after (SerialMonitor.suspendDuring (starting_within pre post)) w)) ->
      running (monitor (at_completion next
                          (after (SerialMonitor.suspendDuring (starting_within pre post)) w)))
      = true ->
      polling (after (SerialMonitor.suspendDuring next)
                 (after (SerialMonitor.suspendDuring (starting_within pre post)) w))
      = true).
Proof.
  intros Hpre Hpost Hok Ht Hr.
  assert (Hnone : timeouts w = []).
  { destruct (timeouts w) as [| h l] eqn:El; [reflexivity |].
    pose proof (armed_means_running w Ht) as Ha. rewrite El in Ha.
    rewrite Ha in Hr; [discriminate | discriminate]. }
  rewrite suspendDuring_after, Hr. cbn [andb].
  assert (Hc : exists w3,
             at_completion (starting_within pre post) w = w3
             /\ running (monitor w3) = true /\ busy (monitor w3) = true
             /\ timeouts w3 = []).
  { unfold at_completion, after, starting_within, result in *.
    pose proof (Hpre (enter w)) as B1.
    destruct (pre (enter w)) as [r1 w1] eqn:E1. cbn [fst snd] in Hok, B1. subst r1.
    destruct B1 as [M1 T1 _ _ _]. cbn [enter monitor timeouts set_monitor] in M1, T1.
    rewrite (bind_Ok _ _ _ _ _ E1).
    assert (Hs : SerialMonitor.start w1
                 = (Ok tt, set_monitor (mkMonitor (timer (monitor w1)) true true
                                          (Some (default [] (out (monitor w1))))) w1)).
    { apply start_while_busy; rewrite M1; [exact Hr | reflexivity]. }
    rewrite (bind_Ok _ _ _ _ _ Hs).
    pose proof (Hpost (set_monitor (mkMonitor (timer (monitor w1)) true true
                                      (Some (default [] (out (monitor w1))))) w1)) as B3.
    destruct B3 as [M3 T3 _ _ _]. cbn [monitor timeouts set_monitor] in M3, T3.
    eexists. split; [reflexivity |].
    rewrite M3, T3, T1. repeat split. exact Hnone. }
  destruct Hc as (w3 & -> & Hr3 & Hb3 & Ht3).
  assert (Hrun : running (monitor (unbusy w3)) = true) by exact Hr3.
  split; [exact Hr3 |]. split; [reflexivity |]. split; [exact Ht3 |].
  split; [apply start_when_running; exact Hrun |]. split.
  - intros h. cbv [SerialMonitor.fire bind get].
    cbn [timeouts unbusy set_monitor]. rewrite Ht3.
    rewrite bool_decide_eq_false_2; [reflexivity | apply not_elem_of_nil].
  - intros Htn Hrn.
    rewrite (polling_after_suspension next (unbusy w3) Htn Hrun). exact Hrn.
Qed.

Lemma start_during_an_operation_arms_nothing_witness :
  running (monitor (after (SerialMonitor.suspendDuring
                             (starting_within (console_log "sync")
                                (listDirPyRaw (linux (prints "[]")) "/")))
                      (fresh (port "COM3")))) = true
  /\ timeouts (after (SerialMonitor.suspendDuring
                        (starting_within (console_log "sync")
                           (listDirPyRaw (linux (prints "[]")) "/")))
                 (fresh (port "COM3"))) = []
  /\ polling (after (SerialMonitor.suspendDuring (listDirPyRaw (linux (prints "[]")) "/lib"))
                (after (SerialMonitor.suspendDuring
                          (starting_within (console_log "sync")
                             (listDirPyRaw (linux (prints "[]")) "/")))
                   (fresh (port "COM3")))) = true.
Proof.
  destruct (start_during_an_operation_arms_nothing (linux (prints "[]"))
              (console_log "sync") (listDirPyRaw (linux (prints "[]")) "/")
              (listDirPyRaw (linux (prints "[]")) "/lib") (fresh (port "COM3")))
    as (H1 & _ & H3 & _ & _ & H6).
  - intros w. constructor; reflexivity.
  - apply bystander_listing.
  - reflexivity.
  - apply tidy_fresh.
  - reflexivity.
  - split; [exact H1 |]. split; [exact H3 |]. apply H6.
    + apply tidy_intro.
      * vm_compute. repeat constructor.
      * left. vm_compute. reflexivity.
      * vm_compute. apply NoDup_nil_2.
      * vm_compute. exact I.
    + vm_compute. reflexivity.
Defined.

(** ** The last resort *)

Section LastResort.
Import PythonInterpreterManager.
Variable env : Env.








End LastResort.



(** ** The exclusive access *)

Section Exclusive.
Import SerialMonitor.
Variable env : Env.



End Exclusive.



